(** * Strategy / benchmark recurrence engine of KBAM/Dashboard/call.py

    A shallow embedding of the numeric core of
    [get_strategy_portfolio_weight_comparison] (daily drift, exact-targeting
    injection, dilution, base-date initialisation, output rows) and of
    [get_daily_sector_contributions] (chained sector attribution), together
    with the properties the specification states about them.  The file also
    embeds [calculate_strategy_portfolio_returns] of the same module, the
    business-day functions of utils.py and [_rsi_from_prices] of rsi.py, with
    properties read off their code.

    Modelling conventions.
    - Python floats are idealised as exact rationals: [Qc], the canonical
      rationals of the Standard Library, so that equality of weights is
      Leibniz equality.  In the recurrence engine every division of the
      source by a computed value is guarded by a positivity test, which the
      embedding keeps; elsewhere a division that can raise returns an
      [option].
    - A Python [dict] is an insertion-ordered association list with unique
      keys ([dget], [dset]); iteration follows insertion order.
    - A Python [set] of strings has no specified iteration order: the order is
      a parameter of the engine ([SetOrder]).
    - Identifiers are byte strings; [upper] acts on ASCII letters. *)

From Stdlib Require Import QArith Qcanon ZArith List String Ascii Bool Lia.
From Stdlib Require Import Permutation Sorted.
Import ListNotations.

Open Scope string_scope.
Open Scope list_scope.
Open Scope Qc_scope.

(* ------------------------------------------------------------------ *)
(** * Numbers *)

Module Num.

(** [q a b] is the rational a/b. *)
Definition q (a : Z) (b : positive) : Qc := Q2Qc (Qmake a b).

(** Python [x == y] on floats. *)
Definition Qceqb (x y : Qc) : bool := Qeq_bool x y.

(** Python [x < y]. *)
Definition Qcltb (x y : Qc) : bool :=
  match x ?= y with Lt => true | _ => false end.

(** Python [x <= y]. *)
Definition Qcleb (x y : Qc) : bool :=
  match x ?= y with Gt => false | _ => true end.

(** Python [abs(x)]. *)
Definition Qcabs (x : Qc) : Qc := if Qcltb x 0 then - x else x.

(** Python [sum(xs)]: left fold from 0. *)
Definition sum (xs : list Qc) : Qc := fold_left Qcplus xs 0.

(** Truthiness of an optional float: neither [None] nor [0.0]. *)
Definition truthy (p : option Qc) : bool :=
  match p with
  | Some x => negb (Qceqb x 0)
  | None => false
  end.

End Num.
Import Num.

(* ------------------------------------------------------------------ *)
(** * Insertion-ordered dictionaries *)

Section Dict.
Context {V : Type}.

Definition dict := list (string * V).

(** [d.get(k)] (None when the key is absent). *)
Fixpoint dget (k : string) (d : dict) : option V :=
  match d with
  | [] => None
  | (k', v) :: d' => if String.eqb k k' then Some v else dget k d'
  end.

(** [d.get(k, dflt)]. *)
Definition dget_or (k : string) (dflt : V) (d : dict) : V :=
  match dget k d with Some v => v | None => dflt end.

(** [k in d]. *)
Definition dmem (k : string) (d : dict) : bool :=
  match dget k d with Some _ => true | None => false end.

(** [d[k] = v]: an existing key keeps its position. *)
Fixpoint dset (k : string) (v : V) (d : dict) : dict :=
  match d with
  | [] => [(k, v)]
  | (k', v') :: d' =>
      if String.eqb k k' then (k', v) :: d' else (k', v') :: dset k v d'
  end.

Definition dkeys (d : dict) : list string := map fst d.
Definition dvalues (d : dict) : list V := map snd d.

(** Truthiness of a dict: non-empty. *)
Definition dnonempty (d : dict) : bool :=
  match d with [] => false | _ => true end.

End Dict.

Arguments dict : clear implicits.

(* ------------------------------------------------------------------ *)
(** * Iteration order of Python sets *)

(** [set(l)] followed by iteration yields every distinct element of [l]
    exactly once, in an order the language does not fix. *)
Record SetOrder := {
  set_iter : list string -> list string;
  set_iter_NoDup : forall l, NoDup (set_iter l);
  set_iter_In : forall l x, In x (set_iter l) <-> In x l
}.

(** The distinct elements of [l] that are not in [seen], each at its first
    occurrence. *)
Fixpoint first_occurrences (seen l : list string) : list string :=
  match l with
  | [] => []
  | x :: l' =>
      if existsb (String.eqb x) seen then first_occurrences seen l'
      else x :: first_occurrences (x :: seen) l'
  end.

(** Insertion sort by a boolean order, used for [sorted(...)] and
    [sort_values(...)]. *)
Section Sort.
Context {A : Type} (leb : A -> A -> bool).

Fixpoint insert_by (x : A) (l : list A) : list A :=
  match l with
  | [] => [x]
  | y :: l' => if leb x y then x :: l else y :: insert_by x l'
  end.

Definition sort_by (l : list A) : list A := fold_right insert_by [] l.

End Sort.

(* ------------------------------------------------------------------ *)
(** * String operations used on instrument identifiers *)

Module Str.

(** [c.upper()] on an ASCII letter; other bytes are unchanged. *)
Definition upper_char (c : ascii) : ascii :=
  let n := nat_of_ascii c in
  if ((97 <=? n) && (n <=? 122))%nat then ascii_of_nat (n - 32) else c.

(** [s.upper()]. *)
Fixpoint upper (s : string) : string :=
  match s with
  | EmptyString => EmptyString
  | String c r => String (upper_char c) (upper r)
  end.

(** [s.replace(' ', '')]. *)
Fixpoint remove_spaces (s : string) : string :=
  match s with
  | EmptyString => EmptyString
  | String c r =>
      if Ascii.eqb c " " then remove_spaces r else String c (remove_spaces r)
  end.

(** [s.replace('US', '')]: every occurrence, scanning left to right. *)
Fixpoint remove_US (s : string) : string :=
  match s with
  | EmptyString => EmptyString
  | String c r =>
      match r with
      | EmptyString => String c EmptyString
      | String c2 r2 =>
          if Ascii.eqb c "U" && Ascii.eqb c2 "S" then remove_US r2
          else String c (remove_US r)
      end
  end.

(** Whitespace removed by [str.strip()], ASCII range. *)
Definition is_space (c : ascii) : bool :=
  let n := nat_of_ascii c in
  (((9 <=? n) && (n <=? 13)) || ((28 <=? n) && (n <=? 32)))%nat.

Fixpoint lstrip (s : string) : string :=
  match s with
  | EmptyString => EmptyString
  | String c r => if is_space c then lstrip r else s
  end.

Fixpoint rstrip (s : string) : string :=
  match s with
  | EmptyString => EmptyString
  | String c r =>
      match rstrip r with
      | EmptyString => if is_space c then EmptyString else String c EmptyString
      | r' => String c r'
      end
  end.

(** [s.strip()]. *)
Definition strip (s : string) : string := rstrip (lstrip s).

(** Truthiness of a string. *)
Definition nonempty (s : string) : bool :=
  match s with EmptyString => false | _ => true end.

(** [s.startswith(p)]. *)
Definition startswith (s p : string) : bool := String.prefix p s.

End Str.
Import Str.

(* ------------------------------------------------------------------ *)
(** * Identifier reconciliation (name matching against the override dict) *)

Module Reconciler.

(** [name.replace(' ', '').upper()]. *)
Definition clean (name : string) : string := upper (remove_spaces name).

(** [name_clean.replace('US', '').strip()]. *)
Definition no_us (name_clean : string) : string := strip (remove_US name_clean).

(** The matching loop that selects the instruments to inject
    (call.py 3368-3377): body of
    [for mp_stock_name, mp_active_weight in date_active_weights.items()]. *)
Fixpoint match_loop_injection (stock_name_clean : string)
    (items : list (string * Qc)) (current_active_weight : Qc) : Qc :=
  match items with
  | [] => current_active_weight
  | (mp_stock_name, mp_active_weight) :: rest =>
      let mp_stock_name_clean := clean mp_stock_name in
      if String.eqb stock_name_clean mp_stock_name_clean then mp_active_weight
      else
        let stock_name_no_us := no_us stock_name_clean in
        let mp_stock_name_no_us := no_us mp_stock_name_clean in
        if nonempty stock_name_no_us && nonempty mp_stock_name_no_us
           && String.eqb stock_name_no_us mp_stock_name_no_us
        then mp_active_weight
        else match_loop_injection stock_name_clean rest current_active_weight
  end.

(** call.py 3364-3377: the delta the injection step attaches to
    [stock_name]. *)
Definition current_active_weight (stock_name : string)
    (date_active_weights : dict Qc) : Qc :=
  let current := dget_or stock_name 0 date_active_weights in
  if Qceqb current 0 && dnonempty date_active_weights
  then match_loop_injection (clean stock_name) date_active_weights current
  else current.

(** The matching loop of the output rows (call.py 3459-3479 and, repeated,
    3666-3685). *)
Fixpoint match_loop_row (stock_name stock_name_clean : string)
    (items : list (string * Qc)) (active_weight : Qc) : Qc :=
  match items with
  | [] => active_weight
  | (mp_stock_name, mp_active_weight) :: rest =>
      if String.eqb stock_name mp_stock_name then mp_active_weight
      else
        let mp_stock_name_clean := clean mp_stock_name in
        if String.eqb stock_name_clean mp_stock_name_clean then mp_active_weight
        else
          let stock_name_no_us := no_us stock_name_clean in
          let mp_stock_name_no_us := no_us mp_stock_name_clean in
          if nonempty stock_name_no_us && nonempty mp_stock_name_no_us
             && String.eqb stock_name_no_us mp_stock_name_no_us
          then mp_active_weight
          else
            if startswith stock_name_clean mp_stock_name_clean
               || startswith mp_stock_name_clean stock_name_clean
            then mp_active_weight
            else match_loop_row stock_name stock_name_clean rest active_weight
  end.

(** call.py 3454-3479: the delta reported on the output row of
    [stock_name]. *)
Definition row_active_weight (stock_name : string)
    (date_active_weights : dict Qc) : Qc :=
  let active_weight := dget_or stock_name 0 date_active_weights in
  if Qceqb active_weight 0 && dnonempty date_active_weights
  then match_loop_row stock_name (clean stock_name) date_active_weights
         active_weight
  else active_weight.

End Reconciler.
Import Reconciler.

(* ------------------------------------------------------------------ *)
(** * Exact-targeting solver *)

Module Solver.

(** call.py 3407:
    [(target_weight * nav_current - adjusted_weight) / (1 - target_weight)]. *)
Definition additional_amount (target_weight nav_current adjusted_weight : Qc)
    : Qc :=
  (target_weight * nav_current - adjusted_weight) / (1 - target_weight).

(** The share of NAV an instrument holds after [x] is added to it and to the
    NAV: [(adjusted_weight + x) / (nav_current + x)].  A float division by
    zero raises in Python: [None]. *)
Definition post_injection_share (adjusted_weight nav_current x : Qc)
    : option Qc :=
  if Qceqb (nav_current + x) 0 then None
  else Some ((adjusted_weight + x) / (nav_current + x)).

End Solver.
Import Solver.

(* ------------------------------------------------------------------ *)
(** * The daily recurrence of get_strategy_portfolio_weight_comparison *)

(** Entry of [stocks_with_active_weight] (call.py 3382-3386). *)
Record ActiveInfo := {
  adjusted_weight : Qc;
  target_weight : Qc;
  active_weight : Qc
}.

(** State of the injection loop (call.py 3398-3418). *)
Record InjState := {
  nav_current : Qc;
  adjusted_weights_current : dict Qc;
  strategy_weights_acc : dict Qc
}.

(** One output row (the dict appended to [results]); the Korean column names
    of the source are given in comments. *)
Record ResultRow := {
  r_date : Z;                         (* 날짜 *)
  r_stock_name : string;              (* 종목명 *)
  r_PRICE : option Qc;                (* PRICE *)
  r_LOCAL_PRICE : option Qc;          (* LOCAL_PRICE *)
  r_BM_weight : Qc;                   (* BM_비중 *)
  r_active_weight : Qc;               (* active_weight *)
  r_strategy_weight : Qc;             (* 전략_비중 *)
  r_weight_diff : Qc;                 (* 비중_차이 *)
  r_BM_amount : Qc;                   (* BM_금액 *)
  r_MP_amount : Qc;                   (* MP_금액 *)
  r_abs_active_amount : Qc;           (* 절대_Active_금액 *)
  r_abs_active_pct : Qc;              (* 절대_Active_비율 *)
  r_return_vs_base : Qc;              (* 기준일자_대비_수익률 *)
  r_BM_contribution : Qc;             (* BM_기여도 *)
  r_strategy_contribution : Qc;       (* 전략_기여도 *)
  r_excess_contribution : Qc          (* 초과_기여도 *)
}.

(** One entry of [daily_weight_summary]. *)
Record SummaryRow := {
  s_date : Z;                         (* 날짜 *)
  s_BM_weight_sum : Qc;               (* BM_비중_합계 *)
  s_strategy_weight_sum : Qc;         (* 전략_비중_합계 *)
  s_active_weight_sum : Qc;           (* active_weight_합계 *)
  s_weight_sum_diff : Qc;             (* 비중_합계_차이 *)
  s_BM_NAV : Qc;                      (* BM_NAV *)
  s_MP_NAV : Qc;                      (* MP_NAV *)
  s_NAV_diff : Qc                     (* NAV_차이 *)
}.

(** The variables carried from one date to the next (call.py 3244-3248). *)
Record EngineState := {
  prev_bm_weights : dict Qc;
  prev_strategy_weights : dict Qc;
  prev_prices : dict (option Qc);
  prev_bm_nav : option Qc;
  prev_mp_nav : option Qc
}.

(** The three tables the function reads.  Dates are day numbers; a [None]
    weight or price is a NULL/NaN cell. *)
Record Tables := {
  bm_data : list (Z * string * option Qc);           (* dt, stock_name, weight *)
  mp_weight_data : list (Z * string * option Qc);    (* dt, stock_name, active_weight *)
  stock_price : list (Z * string * option Qc * option Qc);
                                          (* dt, ticker, price, local_price *)
  local_price_col : bool                  (* stock_price has a local price column *)
}.

Module Engine.

(** [prices.get(stock_name)]: absent key and stored [None] both give [None]. *)
Definition price_get (stock_name : string) (prices : dict (option Qc))
    : option Qc :=
  match dget stock_name prices with Some p => p | None => None end.

(** The guard [prev_price and current_price and prev_price > 0]. *)
Definition valid_pair (prev_price current_price : option Qc) : bool :=
  truthy prev_price && truthy current_price
  && match prev_price with Some p => Qcltb 0 p | None => false end.

(** [a / b] for optional prices known to be present. *)
Definition price_ratio (current_price prev_price : option Qc) : Qc :=
  match current_price, prev_price with
  | Some c, Some p => c / p
  | _, _ => 0
  end.

(** call.py 3350-3359: the drifted weight of one instrument. *)
Definition drift (prev_strategy_weight : Qc)
    (prev_price current_price : option Qc) : Qc :=
  if valid_pair prev_price current_price then
    let daily_return_ratio := price_ratio current_price prev_price in
    prev_strategy_weight * daily_return_ratio
  else prev_strategy_weight.

(** call.py 3348-3359. *)
Definition adjusted_weights_of (all_stocks : list string)
    (prev_strategy_weights : dict Qc)
    (prev_prices date_prices : dict (option Qc)) : dict Qc :=
  fold_left
    (fun adjusted_weights stock_name =>
       dset stock_name
         (drift (dget_or stock_name 0 prev_strategy_weights)
                (price_get stock_name prev_prices)
                (price_get stock_name date_prices))
         adjusted_weights)
    all_stocks [].

(** call.py 3362-3386. *)
Definition stocks_with_active_weight_of (all_stocks : list string)
    (date_active_weights adjusted_weights : dict Qc) : dict ActiveInfo :=
  fold_left
    (fun stocks_with_active_weight stock_name =>
       let caw := current_active_weight stock_name date_active_weights in
       if Qcltb 0 caw then
         let adjusted_weight := dget_or stock_name 0 adjusted_weights in
         let target_weight := adjusted_weight + caw in
         dset stock_name
           {| adjusted_weight := adjusted_weight;
              target_weight := target_weight;
              active_weight := caw |}
           stocks_with_active_weight
       else stocks_with_active_weight)
    all_stocks [].

(** call.py 3401-3418: one iteration of the injection loop. *)
Definition inject_one (st : InjState) (item : string * ActiveInfo) : InjState :=
  let '(stock_name, info) := item in
  let adjusted_weight := dget_or stock_name 0 (adjusted_weights_current st) in
  let target_weight := target_weight info in
  if Qcltb 0 (1 - target_weight) then
    let additional_amount :=
      additional_amount target_weight (nav_current st) adjusted_weight in
    let new_amount := adjusted_weight + additional_amount in
    {| nav_current := nav_current st + additional_amount;
       adjusted_weights_current :=
         dset stock_name new_amount (adjusted_weights_current st);
       strategy_weights_acc :=
         dset stock_name target_weight (strategy_weights_acc st) |}
  else
    {| nav_current := nav_current st;
       adjusted_weights_current := adjusted_weights_current st;
       strategy_weights_acc :=
         dset stock_name adjusted_weight (strategy_weights_acc st) |}.

Definition inject_all (stocks_with_active_weight : dict ActiveInfo)
    (st : InjState) : InjState :=
  fold_left inject_one stocks_with_active_weight st.

(** call.py 3392-3394. *)
Definition nav_old_of (adjusted_weights : dict Qc) : Qc :=
  let nav_old :=
    if dnonempty adjusted_weights then sum (dvalues adjusted_weights) else 1 in
  if Qcleb nav_old 0 then 1 else nav_old.

(** call.py 3422-3426: dilution of the instruments without active weight. *)
Definition dilute (all_stocks : list string)
    (stocks_with_active_weight : dict ActiveInfo) (adjusted_weights : dict Qc)
    (nav_current : Qc) (strategy_weights : dict Qc) : dict Qc :=
  fold_left
    (fun strategy_weights stock_name =>
       if dmem stock_name stocks_with_active_weight then strategy_weights
       else
         let adjusted_weight := dget_or stock_name 0 adjusted_weights in
         dset stock_name
           (if Qcltb 0 nav_current then adjusted_weight / nav_current
            else adjusted_weight)
           strategy_weights)
    all_stocks strategy_weights.

(** The state the injection loop ends in (call.py 3392-3418). *)
Definition injection_result (stocks_with_active_weight : dict ActiveInfo)
    (adjusted_weights : dict Qc) : InjState :=
  inject_all stocks_with_active_weight
    {| nav_current := nav_old_of adjusted_weights;
       adjusted_weights_current := adjusted_weights;
       strategy_weights_acc := [] |}.

(** call.py 3389-3429: strategy weights of a non-base date. *)
Definition strategy_weights_nonbase (all_stocks : list string)
    (date_active_weights adjusted_weights : dict Qc) : dict Qc :=
  let stocks_with_active_weight :=
    stocks_with_active_weight_of all_stocks date_active_weights
      adjusted_weights in
  if dnonempty stocks_with_active_weight then
    let st := injection_result stocks_with_active_weight adjusted_weights in
    dilute all_stocks stocks_with_active_weight adjusted_weights
      (nav_current st) (strategy_weights_acc st)
  else adjusted_weights.

(** call.py 3312-3319: strategy weights of the base date. *)
Definition strategy_weights_base (all_stocks : list string)
    (date_bm_weights date_active_weights : dict Qc) : dict Qc :=
  fold_left
    (fun strategy_weights stock_name =>
       let bm_weight := dget_or stock_name 0 date_bm_weights in
       let active_weight := dget_or stock_name 0 date_active_weights in
       dset stock_name (bm_weight + active_weight) strategy_weights)
    all_stocks [].

End Engine.

(* ------------------------------------------------------------------ *)
(** * Output rows, daily summary and the loop over dates *)

Module Report.
Import Engine.

(** call.py 3448-3553 (and 3655-3762): the row of one instrument. *)
Definition make_row (is_base_date : bool) (date_obj : Z) (stock_name : string)
    (base_prices date_prices date_local_prices : dict (option Qc))
    (date_bm_weights strategy_weights date_active_weights : dict Qc)
    : ResultRow :=
  let base_price := price_get stock_name base_prices in
  let date_price := price_get stock_name date_prices in
  let date_local_price := price_get stock_name date_local_prices in
  let bm_weight := dget_or stock_name 0 date_bm_weights in
  let strategy_weight := dget_or stock_name 0 strategy_weights in
  let active_weight := row_active_weight stock_name date_active_weights in
  let weight_diff := strategy_weight - bm_weight in
  let stock_return :=
    if valid_pair base_price date_price
    then (price_ratio date_price base_price - 1) * q 100 1 else 0 in
  let bm_contribution := stock_return * bm_weight in
  let strategy_contribution := stock_return * strategy_weight in
  let excess_contribution := strategy_contribution - bm_contribution in
  let final_active_weight := if Qcltb 0 active_weight then active_weight else 0 in
  let bm_nav_base :=
    if dnonempty date_bm_weights then sum (dvalues date_bm_weights) else 1 in
  let bm_nav_base := if Qcleb bm_nav_base 0 then 1 else bm_nav_base in
  let bm_amount := bm_nav_base * bm_weight in
  let mp_amount :=
    if is_base_date then bm_amount + bm_nav_base * final_active_weight
    else
      let active_weight_sum := sum (dvalues date_active_weights) in
      let mp_nav := bm_nav_base + bm_nav_base * active_weight_sum in
      if Qcltb 0 strategy_weight then
        let strategy_weight_sum := sum (dvalues strategy_weights) in
        if Qcltb 0 strategy_weight_sum
           && Qcltb (Qcabs (strategy_weight_sum - mp_nav)) (q 1 100)
        then strategy_weight
        else mp_nav * strategy_weight
      else 0 in
  let absolute_active_amount := mp_amount - bm_amount in
  let absolute_active_pct :=
    if Qcltb 0 bm_nav_base then absolute_active_amount / bm_nav_base else 0 in
  let per100 (x : Qc) := if Qceqb x 0 then 0 else x / q 100 1 in
  {| r_date := date_obj;
     r_stock_name := stock_name;
     r_PRICE := date_price;
     r_LOCAL_PRICE := date_local_price;
     r_BM_weight := bm_weight;
     r_active_weight := final_active_weight;
     r_strategy_weight := strategy_weight;
     r_weight_diff := weight_diff;
     r_BM_amount := bm_amount;
     r_MP_amount := mp_amount;
     r_abs_active_amount := absolute_active_amount;
     r_abs_active_pct := absolute_active_pct;
     r_return_vs_base := per100 stock_return;
     r_BM_contribution := per100 bm_contribution;
     r_strategy_contribution := per100 strategy_contribution;
     r_excess_contribution := per100 excess_contribution |}.

(** call.py 3576-3589: [sum(stock_daily_return * weight)] over the entries of
    a weight dict whose price pair is valid. *)
Definition weighted_daily_return (weights : dict Qc)
    (prev_prices date_prices : dict (option Qc)) : Qc :=
  fold_left
    (fun acc item =>
       let '(stock_name, weight) := item in
       let prev_price := price_get stock_name prev_prices in
       let current_price := price_get stock_name date_prices in
       if valid_pair prev_price current_price
       then acc + (price_ratio current_price prev_price - 1) * weight
       else acc)
    weights 0.

(** [x is not None and x > 0]. *)
Definition positive_nav (x : option Qc) : option Qc :=
  match x with
  | Some v => if Qcltb 0 v then Some v else None
  | None => None
  end.

(** call.py 3556-3625: the summary entry of a date, with the two NAVs.
    [prev_bm_weights] and [prev_strategy_weights] are the dicts as they stand
    when the summary is computed. *)
Definition make_summary (is_base_date : bool) (date_obj : Z)
    (date_bm_weights strategy_weights date_active_weights : dict Qc)
    (prev_bm_weights prev_strategy_weights : dict Qc)
    (prev_prices date_prices : dict (option Qc))
    (prev_bm_nav prev_mp_nav : option Qc) : SummaryRow :=
  let bm_weight_sum := sum (dvalues date_bm_weights) in
  let strategy_weight_sum := sum (dvalues strategy_weights) in
  let active_weight_sum := sum (dvalues date_active_weights) in
  let weight_sum_diff := strategy_weight_sum - bm_weight_sum in
  let '(bm_nav_base, mp_nav) :=
    if is_base_date then
      let bm_nav_base := if Qcltb 0 bm_weight_sum then bm_weight_sum else 1 in
      let mp_nav := bm_nav_base + bm_nav_base * active_weight_sum in
      (bm_nav_base, mp_nav)
    else
      let bm_daily_return :=
        weighted_daily_return prev_bm_weights prev_prices date_prices in
      let mp_daily_return :=
        weighted_daily_return prev_strategy_weights prev_prices date_prices in
      let bm_nav_base :=
        match positive_nav prev_bm_nav with
        | Some nav => nav * (1 + bm_daily_return)
        | None => if Qcltb 0 bm_weight_sum then bm_weight_sum else 1
        end in
      let mp_nav :=
        match positive_nav prev_mp_nav with
        | Some nav => nav * (1 + mp_daily_return)
        | None => bm_nav_base + bm_nav_base * active_weight_sum
        end in
      (bm_nav_base, mp_nav) in
  {| s_date := date_obj;
     s_BM_weight_sum := bm_weight_sum;
     s_strategy_weight_sum := strategy_weight_sum;
     s_active_weight_sum := active_weight_sum;
     s_weight_sum_diff := weight_sum_diff;
     s_BM_NAV := bm_nav_base;
     s_MP_NAV := mp_nav;
     s_NAV_diff := mp_nav - bm_nav_base |}.

(** call.py 3258-3263: BM weights of a date, NaN weights skipped; the rows
    are written into [start] (call.py 3333-3337 reuses a non-empty dict). *)
Definition build_bm_weights (T : Tables) (date_obj : Z) (start : dict Qc)
    : dict Qc :=
  fold_left
    (fun d row =>
       let '(dt, stock_name, weight) := row in
       if (dt =? date_obj)%Z then
         match weight with Some w => dset stock_name w d | None => d end
       else d)
    (bm_data T) start.

(** call.py 3267-3276: active weights of a date, NULL read as 0.0. *)
Definition build_active_weights (T : Tables) (date_obj : Z) : dict Qc :=
  fold_left
    (fun d row =>
       let '(dt, stock_name, active_weight) := row in
       if (dt =? date_obj)%Z then
         dset stock_name (match active_weight with Some w => w | None => 0 end) d
       else d)
    (mp_weight_data T) [].

(** The price query of a date for a list of names, and the two dicts built
    from its rows (call.py 3289-3305). *)
Definition query_prices (T : Tables) (date_obj : Z) (names : list string)
    : dict (option Qc) * dict (option Qc) :=
  fold_left
    (fun acc row =>
       let '(dt, ticker, price, local_price) := row in
       let '(prices, local_prices) := acc in
       if (dt =? date_obj)%Z && existsb (String.eqb ticker) names then
         (dset ticker price prices,
          if local_price_col T then dset ticker local_price local_prices
          else local_prices)
       else acc)
    (stock_price T) ([], []).

End Report.

Module Run.
Import Engine Report.

(** [sorted(column.unique())] on dates. *)
Fixpoint insert_date (d : Z) (l : list Z) : list Z :=
  match l with
  | [] => [d]
  | x :: l' =>
      if (d <? x)%Z then d :: l
      else if (d =? x)%Z then l
      else x :: insert_date d l'
  end.

Definition sorted_unique (l : list Z) : list Z := fold_right insert_date [] l.

Section WithOrder.
Variable ord : SetOrder.
Variable T : Tables.
Variable base_actual_date : Z.
Variable base_prices : dict (option Qc).

(** call.py 3308-3434: the strategy weights of a date and the previous
    weights as they stand afterwards. *)
Definition strategy_weights_of (prev_date : option Z) (st : EngineState)
    (date_obj : Z) (date_bm_weights date_active_weights : dict Qc)
    (date_prices : dict (option Qc)) : dict Qc :=
  if (date_obj =? base_actual_date)%Z then
    strategy_weights_base
      (set_iter ord (dkeys date_bm_weights ++ dkeys date_active_weights))
      date_bm_weights date_active_weights
  else
    let prev_strategy_weights :=
      if dnonempty (prev_strategy_weights st) then prev_strategy_weights st
      else
        match prev_date with
        | Some prev_date_obj =>
            build_bm_weights T prev_date_obj (prev_bm_weights st)
        | None => date_bm_weights
        end in
    let all_stocks :=
      set_iter ord (dkeys prev_strategy_weights ++ dkeys date_bm_weights
                    ++ dkeys date_active_weights) in
    let adjusted_weights :=
      adjusted_weights_of all_stocks prev_strategy_weights
        (prev_prices st) date_prices in
    strategy_weights_nonbase all_stocks date_active_weights adjusted_weights.

(** One iteration of [for i, date in enumerate(dates)] (call.py 3250-3762).
    [None] is a [continue]; otherwise the next state, the rows appended to
    [results] by the two row loops, and the summary entry. *)
Definition process_date (prev_date : option Z) (st : EngineState)
    (date_obj : Z) : option (EngineState * list ResultRow * SummaryRow) :=
  if (date_obj <? base_actual_date)%Z then None
  else
    let date_bm_weights := build_bm_weights T date_obj [] in
    let date_active_weights := build_active_weights T date_obj in
    let all_stocks_for_price :=
      set_iter ord (dkeys date_bm_weights ++ dkeys date_active_weights) in
    match all_stocks_for_price with
    | [] => None
    | _ =>
      let '(date_prices, date_local_prices) :=
        query_prices T date_obj all_stocks_for_price in
      let is_base_date := (date_obj =? base_actual_date)%Z in
      let strategy_weights :=
        strategy_weights_of prev_date st date_obj date_bm_weights
          date_active_weights date_prices in
      let all_stocks_for_result :=
        if is_base_date then
          set_iter ord (dkeys date_bm_weights ++ dkeys date_active_weights)
        else
          set_iter ord (dkeys strategy_weights ++ dkeys date_bm_weights) in
      let rows1 :=
        map (fun stock_name =>
               make_row is_base_date date_obj stock_name base_prices
                 date_prices date_local_prices date_bm_weights
                 strategy_weights date_active_weights)
            all_stocks_for_result in
      let summary :=
        make_summary is_base_date date_obj date_bm_weights strategy_weights
          date_active_weights date_bm_weights strategy_weights
          (prev_prices st) date_prices (prev_bm_nav st) (prev_mp_nav st) in
      let all_stocks := set_iter ord (dkeys strategy_weights) in
      let rows2 :=
        match all_stocks with
        | [] => []
        | _ =>
          let '(date_prices2, date_local_prices2) :=
            query_prices T date_obj all_stocks in
          map (fun stock_name =>
                 make_row is_base_date date_obj stock_name base_prices
                   date_prices2 date_local_prices2 date_bm_weights
                   strategy_weights date_active_weights)
              all_stocks
        end in
      Some ({| prev_bm_weights := date_bm_weights;
               prev_strategy_weights := strategy_weights;
               prev_prices := date_prices;
               prev_bm_nav := Some (s_BM_NAV summary);
               prev_mp_nav := Some (s_MP_NAV summary) |},
            rows1 ++ rows2, summary)
    end.

(** The loop over [dates]; [prev_date] is [dates[i-1]]. *)
Fixpoint run_dates (prev_date : option Z) (dates : list Z) (st : EngineState)
    : list ResultRow * list SummaryRow :=
  match dates with
  | [] => ([], [])
  | date_obj :: rest =>
      match process_date prev_date st date_obj with
      | None => run_dates (Some date_obj) rest st
      | Some (st', rows, summary) =>
          let '(results, daily_weight_summary) :=
            run_dates (Some date_obj) rest st' in
          (rows ++ results, summary :: daily_weight_summary)
      end
  end.
End WithOrder.

(** call.py 3244-3248. *)
Definition initial_state : EngineState :=
  {| prev_bm_weights := []; prev_strategy_weights := [];
     prev_prices := []; prev_bm_nav := None; prev_mp_nav := None |}.

(** call.py 3168-3172: the latest date of [dates] not after the requested
    base date. *)
Definition base_actual_date_of (dates : list Z) (base_date_obj : Z)
    : option Z :=
  fold_left
    (fun best d =>
       if (d <=? base_date_obj)%Z then
         match best with
         | Some b => Some (Z.max b d)
         | None => Some d
         end
       else best)
    dates None.

(** [drop_duplicates(subset=['날짜', '종목명'], keep='last')]. *)
Fixpoint drop_duplicates_last (rows : list ResultRow) : list ResultRow :=
  match rows with
  | [] => []
  | r :: rest =>
      if existsb (fun r' => (r_date r' =? r_date r)%Z
                            && String.eqb (r_stock_name r') (r_stock_name r))
                 rest
      then drop_duplicates_last rest
      else r :: drop_duplicates_last rest
  end.

(** [sort_values(['날짜', '종목명'])]. *)
Definition row_leb (a b : ResultRow) : bool :=
  (r_date a <? r_date b)%Z
  || ((r_date a =? r_date b)%Z && String.leb (r_stock_name a) (r_stock_name b)).

Definition sort_rows (rows : list ResultRow) : list ResultRow :=
  sort_by row_leb rows.

(** The whole function: the returned frame and its [daily_weight_summary]
    attribute.  The column names of [stock_price] are taken as found. *)
Definition get_strategy_portfolio_weight_comparison (ord : SetOrder)
    (T : Tables) (base_date_obj : Z) : list ResultRow * list SummaryRow :=
  let dates := sorted_unique (map (fun r => fst (fst r)) (bm_data T)) in
  match base_actual_date_of dates base_date_obj with
  | None => ([], [])
  | Some base_actual_date =>
      let all_mp_stocks :=
        set_iter ord (map (fun r => snd (fst r)) (mp_weight_data T)) in
      let base_bm_weights := build_bm_weights T base_actual_date [] in
      let all_stock_names :=
        set_iter ord (dkeys base_bm_weights ++ all_mp_stocks) in
      match all_stock_names with
      | [] => ([], [])
      | _ =>
          let base_prices :=
            fst (query_prices T base_actual_date all_stock_names) in
          let '(results, daily_weight_summary) :=
            run_dates ord T base_actual_date base_prices None dates
              initial_state in
          match results with
          | [] => ([], [])
          | _ => (sort_rows (drop_duplicates_last results),
                  daily_weight_summary)
          end
      end
  end.

End Run.

(* ================================================================== *)
(** * get_daily_sector_contributions: chained sector attribution *)

(** A row of [performance_df] as it stands at call.py 1730 (after the prices
    have been read); a [None] cell is NaN. *)
Record PerfRow := {
  p_dt : Z;
  p_gics_name : string;
  p_stock_name : string;
  p_weight : option Qc;
  p_price : option Qc
}.

(** A row of [contribution_df] (call.py 1793-1797). *)
Record MergedRow := {
  m_stock_name : string;
  m_gics_name : string;
  m_prev_weight : Qc;
  m_prev_price : Qc;
  m_current_price : Qc
}.

(** An entry of [daily_contributions]. *)
Record SectorRow := {
  sr_dt : Z;
  sr_gics_name : string;
  sr_daily_contribution : Qc;
  sr_cumulative_contribution : Qc
}.

(** Loop state: [prev_date] and [sector_cumulative_contribution]. *)
Record SectorState := {
  sec_prev_date : option Z;
  sector_cumulative_contribution : dict Qc
}.

Module Sector.

Definition oget (x : option Qc) : Qc :=
  match x with Some v => v | None => 0 end.

(** [price.notna() & (price > 0) & weight.notna()]. *)
Definition valid_row (r : PerfRow) : bool :=
  match p_price r, p_weight r with
  | Some p, Some _ => Qcltb 0 p
  | _, _ => false
  end.

(** The filtered rows of one date (call.py 1757-1758). *)
Definition date_data (performance_df : list PerfRow) (date : Z)
    : list PerfRow :=
  filter (fun r => (p_dt r =? date)%Z && valid_row r) performance_df.

(** [column.unique()]: distinct values in order of appearance. *)
Definition unique (l : list string) : list string := first_occurrences [] l.

(** Inner merge on [stock_name] (call.py 1786-1797). *)
Definition merge_on_stock_name (prev_date_data current_date_data : list PerfRow)
    : list MergedRow :=
  flat_map
    (fun p =>
       map (fun c =>
              {| m_stock_name := p_stock_name p;
                 m_gics_name := p_gics_name p;
                 m_prev_weight := oget (p_weight p);
                 m_prev_price := oget (p_price p);
                 m_current_price := oget (p_price c) |})
           (filter (fun c => String.eqb (p_stock_name p) (p_stock_name c))
                   current_date_data))
    prev_date_data.

(** call.py 1801: the daily return of an instrument, in percent. *)
Definition ret (m : MergedRow) : Qc :=
  ((m_current_price m - m_prev_price m) / m_prev_price m) * q 100 1.

(** call.py 1804. *)
Definition ret_contribution (m : MergedRow) : Qc := ret m * m_prev_weight m.

(** The sum of [ret_contribution] over the rows of one sector. *)
Definition sector_sum (contribution_df : list MergedRow) (gics_name : string)
    : Qc :=
  sum (map ret_contribution
         (filter (fun m => String.eqb (m_gics_name m) gics_name)
                 contribution_df)).

(** [groupby('gics_name')['ret_contribution'].sum().to_dict()]: one entry per
    sector, keys in sorted order (call.py 1807). *)
Definition sector_contributions_of (contribution_df : list MergedRow)
    : dict Qc :=
  map (fun g => (g, sector_sum contribution_df g))
      (sort_by String.leb (unique (map m_gics_name contribution_df))).

(** call.py 1810-1823: accumulation and emission for the sectors of a
    date. *)
Fixpoint emit_sector_rows (date : Z) (items : list (string * Qc))
    (cum : dict Qc) : list SectorRow * dict Qc :=
  match items with
  | [] => ([], cum)
  | (gics_name, sector_contribution_value) :: rest =>
      let cum0 := if dmem gics_name cum then cum else dset gics_name 0 cum in
      let daily_contribution := sector_contribution_value in
      let cum1 :=
        dset gics_name (dget_or gics_name 0 cum0 + daily_contribution) cum0 in
      let '(rows, cum') := emit_sector_rows date rest cum1 in
      ({| sr_dt := date;
          sr_gics_name := gics_name;
          sr_daily_contribution := daily_contribution;
          sr_cumulative_contribution := dget_or gics_name 0 cum1 |} :: rows,
       cum')
  end.

(** Sets the accumulator of each listed sector to 0.0. *)
Definition reset_sectors (sectors : list string) (cum : dict Qc) : dict Qc :=
  fold_left (fun c g => dset g 0 c) sectors cum.

(** One iteration of the loop over dates for a date within the window
    (call.py 1744-1825): the next state and the rows appended. *)
Definition sector_step (performance_df : list PerfRow) (start_date_obj : Z)
    (st : SectorState) (date : Z) : SectorState * list SectorRow :=
  let cum := sector_cumulative_contribution st in
  let current_date_data := date_data performance_df date in
  if (date =? start_date_obj)%Z then
    match current_date_data with
    | [] => (st, [])
    | _ =>
        ({| sec_prev_date := Some date;
            sector_cumulative_contribution :=
              reset_sectors (unique (map p_gics_name current_date_data)) cum |},
         [])
    end
  else
    match current_date_data with
    | [] => ({| sec_prev_date := Some date;
                sector_cumulative_contribution := cum |}, [])
    | _ =>
      match sec_prev_date st with
      | None =>
          let sectors := unique (map p_gics_name current_date_data) in
          ({| sec_prev_date := Some date;
              sector_cumulative_contribution := reset_sectors sectors cum |},
           map (fun g => {| sr_dt := date; sr_gics_name := g;
                            sr_daily_contribution := 0;
                            sr_cumulative_contribution := 0 |}) sectors)
      | Some prev_date =>
          match date_data performance_df prev_date with
          | [] => ({| sec_prev_date := Some date;
                      sector_cumulative_contribution := cum |}, [])
          | prev_date_data =>
              let contribution_df :=
                merge_on_stock_name prev_date_data current_date_data in
              let '(rows, cum') :=
                emit_sector_rows date (sector_contributions_of contribution_df)
                  cum in
              ({| sec_prev_date := Some date;
                  sector_cumulative_contribution := cum' |}, rows)
          end
      end
    end.

(** The loop over the sorted dates, with its [continue] before the window
    and its [break] after it (call.py 1738-1742). *)
Fixpoint sector_loop (performance_df : list PerfRow)
    (start_date_obj final_date_obj : Z) (dates : list Z) (st : SectorState)
    : list SectorRow * SectorState :=
  match dates with
  | [] => ([], st)
  | date :: rest =>
      if (date <? start_date_obj)%Z then
        sector_loop performance_df start_date_obj final_date_obj rest st
      else if (final_date_obj <? date)%Z then ([], st)
      else
        let '(st', rows) := sector_step performance_df start_date_obj st date in
        let '(more, st_end) :=
          sector_loop performance_df start_date_obj final_date_obj rest st' in
        (rows ++ more, st_end)
  end.

(** [sort_values(['dt', 'gics_name', 'stock_name'])] (call.py 1730). *)
Definition perf_leb (a b : PerfRow) : bool :=
  (p_dt a <? p_dt b)%Z
  || ((p_dt a =? p_dt b)%Z
      && (String.ltb (p_gics_name a) (p_gics_name b)
          || (String.eqb (p_gics_name a) (p_gics_name b)
              && String.leb (p_stock_name a) (p_stock_name b)))).

(** [sort_values(['dt', 'gics_name'])] (call.py 1831). *)
Definition sector_row_leb (a b : SectorRow) : bool :=
  (sr_dt a <? sr_dt b)%Z
  || ((sr_dt a =? sr_dt b)%Z && String.leb (sr_gics_name a) (sr_gics_name b)).

(** The list [daily_contributions] when the loop ends, with the final
    accumulators (call.py 1730-1826). *)
Definition daily_contributions_of (performance_df : list PerfRow)
    (start_date_obj final_date_obj : Z) : list SectorRow * SectorState :=
  let performance_df := sort_by perf_leb performance_df in
  let dates := Run.sorted_unique (map p_dt performance_df) in
  sector_loop performance_df start_date_obj final_date_obj dates
    {| sec_prev_date := None; sector_cumulative_contribution := [] |}.

(** The returned frame (call.py 1827-1831). *)
Definition get_daily_sector_contributions (performance_df : list PerfRow)
    (start_date_obj final_date_obj : Z) : list SectorRow :=
  sort_by sector_row_leb
    (fst (daily_contributions_of performance_df start_date_obj final_date_obj)).

End Sector.

(* ================================================================== *)
(** * rsi.py: the relative strength index of a price series *)

Module Rsi.

(** rsi.py 11-16: a missing close ([None] or NaN) takes the value appended
    last to [vals], [None] when nothing was appended yet.  [last] is
    [vals[-1]]. *)
Fixpoint forward_fill (last : option Qc) (closes : list (option Qc))
    : list (option Qc) :=
  match closes with
  | [] => []
  | v :: rest =>
      let v := match v with Some _ => v | None => last end in
      v :: forward_fill v rest
  end.

Definition is_None (v : option Qc) : bool :=
  match v with None => true | Some _ => false end.

(** The float held by an entry known not to be [None]. *)
Definition the (v : option Qc) : Qc :=
  match v with Some x => x | None => 0 end.

(** rsi.py 19: [[vals[i] - vals[i - 1] for i in range(1, n)]]. *)
Fixpoint price_changes_of (vals : list Qc) : list Qc :=
  match vals with
  | [] => []
  | a :: rest =>
      match rest with
      | [] => []
      | b :: _ => (b - a) :: price_changes_of rest
      end
  end.

(** rsi.py 20-21. *)
Definition up_of (c : Qc) : Qc := if Qcltb 0 c then c else 0.
Definition down_of (c : Qc) : Qc := if Qcltb c 0 then Qcabs c else 0.

(** rsi.py 27: the index for a pair of averages; [None] is the
    ZeroDivisionError of a float division. *)
Definition rsi_value (avg_gain avg_loss : Qc) : option Qc :=
  if Qceqb avg_loss 0 then Some (q 100 1)
  else if Qceqb (1 + avg_gain / avg_loss) 0 then None
  else Some (q 100 1 - q 100 1 / (1 + avg_gain / avg_loss)).

(** rsi.py 24-27: the loop [for i in range(period, n)], over the pairs
    [(up[i - 1], down[i - 1])]; it yields [result[period:]]. *)
Fixpoint rsi_loop (period avg_gain avg_loss : Qc) (moves : list (Qc * Qc))
    : option (list (option Qc)) :=
  match moves with
  | [] => Some []
  | (u, d) :: rest =>
      let avg_gain := (avg_gain * (period - 1) + u) / period in
      let avg_loss := (avg_loss * (period - 1) + d) / period in
      match rsi_value avg_gain avg_loss with
      | None => None
      | Some r =>
          match rsi_loop period avg_gain avg_loss rest with
          | None => None
          | Some rs => Some (Some r :: rs)
          end
      end
  end.

(** rsi.py 5-28, for a period that is not negative.  The outer [None] is an
    exception (the division by [period] when it is 0). *)
Definition _rsi_from_prices (closes : list (option Qc)) (period : nat)
    : option (list (option Qc)) :=
  let n := List.length closes in
  let result := repeat None n in
  if (n <? period + 1)%nat then Some result
  else
    let vals := forward_fill None closes in
    if existsb is_None vals then Some result
    else
      let price_changes := price_changes_of (map the vals) in
      let up := map up_of price_changes in
      let down := map down_of price_changes in
      match period with
      | O => None
      | S period_minus_1 =>
          let p := q (Z.of_nat period) 1 in
          let avg_gain := sum (firstn period up) / p in
          let avg_loss := sum (firstn period down) / p in
          match rsi_loop p avg_gain avg_loss
                  (skipn period_minus_1 (combine up down)) with
          | None => None
          | Some tail => Some (repeat None period ++ tail)
          end
      end.

End Rsi.

(* ================================================================== *)
(** * utils.py: business days *)

(** A key of a Python dict that may be a string or an integer. *)
Inductive PyKey :=
| KStr (s : string)
| KInt (i : Z).

Module Utils.
Local Open Scope Z_scope.

(** Dates are proleptic Gregorian ordinals ([date.toordinal()]): day 1 is
    Monday 0001-01-01, the smallest date.  [date.weekday()]: Monday is 0. *)
Definition weekday (date : Z) : Z := (date + 6) mod 7.

(** [date - timedelta(days=n)]; [None] is the OverflowError raised below the
    smallest date. *)
Definition minus_days (date n : Z) : option Z :=
  if (date - n <? 1)%Z then None else Some (date - n).

(** utils.py 121-125: the [while] loop.  Each iteration moves
    [current_date] one day down and stops with an error below day 1, so
    [fuel] at least the ordinal of [current_date] is never used up. *)
Fixpoint business_day_loop (fuel : nat)
    (current_date business_days_count days_back : Z) : option Z :=
  if (business_days_count <? days_back)%Z then
    match fuel with
    | O => None
    | S fuel' =>
        match minus_days current_date 1 with
        | None => None
        | Some current_date =>
            let business_days_count :=
              if (weekday current_date <? 5)%Z then (business_days_count + 1)%Z
              else business_days_count in
            business_day_loop fuel' current_date business_days_count days_back
        end
    end
  else Some current_date.

(** utils.py 106-127. *)
Definition get_business_day (date days_back : Z) : option Z :=
  business_day_loop (Z.to_nat date) date 0 days_back.

Definition key_eqb (a b : PyKey) : bool :=
  match a, b with
  | KStr s, KStr t => String.eqb s t
  | KInt i, KInt j => (i =? j)%Z
  | _, _ => false
  end.

(** [row[k]] on a dict; [None] is the KeyError. *)
Fixpoint getitem (k : PyKey) (row : list (PyKey * Z)) : option Z :=
  match row with
  | [] => None
  | (k', v) :: rest => if key_eqb k k' then Some v else getitem k rest
  end.

(** A row of [execute_custom_query]: [dict(row)] of a RealDictCursor row,
    keyed by the column names of the SELECT (call.py 178-180). *)
Definition query_row (columns : list (string * Z)) : list (PyKey * Z) :=
  map (fun c => (KStr (fst c), snd c)) columns.

(** utils.py 93: [[row[0] for row in data if row[0] < date]]; [None] when a
    lookup raises. *)
Fixpoint business_dates_of (data : list (list (PyKey * Z))) (date : Z)
    : option (list Z) :=
  match data with
  | [] => Some []
  | row :: rest =>
      match getitem (KInt 0) row with
      | None => None
      | Some dt =>
          if dt <? date then
            match business_dates_of rest date with
            | Some l => Some (dt :: l)
            | None => None
            end
          else business_dates_of rest date
      end
  end.

(** What a connection answers to the query of utils.py 77-87 for a window
    [start_date .. end_date]: the rows of the SELECT, each with its columns,
    or [None] when [execute_custom_query] raises. *)
Definition Connection : Type := Z -> Z -> option (list (list (string * Z))).

(** call.py 47-60: the decorator [with_connection].  Without a [connection]
    argument the wrapper opens one before it calls the function, outside any
    handler of the function: [connect] is what [get_db_connection] gives,
    [None] when it raises.  Closing the connection is taken not to raise. *)
Definition with_connection {A : Type} (connect : option Connection)
    (func : Connection -> option A) (connection : option Connection)
    : option A :=
  match connection with
  | Some conn => func conn
  | None =>
      match connect with
      | Some conn => func conn
      | None => None
      end
  end.

(** utils.py 55-103, the function under the decorator.  Every exception
    inside the [try] leads to [get_business_day]. *)
Definition get_business_day_by_country_undecorated (date days_back : Z)
    (connection : Connection) : option Z :=
  if (days_back <=? 0)%Z then Some date
  else
    match minus_days date (days_back * 3) with
    | None => None
    | Some start_date =>
        let end_date := date in
        match connection start_date end_date with
        | None => get_business_day date days_back
        | Some [] => get_business_day date days_back
        | Some rows =>
            match business_dates_of (map query_row rows) date with
            | None => get_business_day date days_back
            | Some business_dates =>
                if (Z.of_nat (List.length business_dates) <? days_back)%Z
                then get_business_day date days_back
                else
                  match nth_error business_dates
                          (Z.to_nat (days_back - 1)) with
                  | Some d => Some d
                  | None => get_business_day date days_back
                  end
            end
        end
    end.

(** utils.py 54-103: [get_business_day_by_country] as callers see it. *)
Definition get_business_day_by_country (connect : option Connection)
    (date days_back : Z) (connection : option Connection) : option Z :=
  with_connection connect
    (get_business_day_by_country_undecorated date days_back) connection.

(** The number of weekdays among the [n] days from [date] on. *)
Fixpoint weekdays_from (date : Z) (n : nat) : Z :=
  match n with
  | O => 0
  | S n' =>
      ((if (weekday date <? 5)%Z then 1 else 0) + weekdays_from (date + 1) n')%Z
  end.

(** The slack the loop has before it meets the next weekday: from a Monday
    it takes three steps to reach Friday, from a Sunday two, from any other
    day one. *)
Definition weekend_slack (date : Z) : Z :=
  if weekday date =? 0 then 0 else if weekday date =? 6 then 1 else 2.

End Utils.

(* ================================================================== *)
(** * calculate_strategy_portfolio_returns (call.py 2821-3114) *)

(** A row of the returned frame. *)
Record ReturnRow := {
  rr_dt : Z;
  rr_strategy_cumulative_return : Qc;
  rr_strategy_value : Qc
}.

(** What the loop carries from one date to the next: [prev_bm_weights] and
    the variable [strategy_weights], which keeps the dict of the previous
    iteration ([None] while it is unbound). *)
Record ReturnState := {
  ret_prev_bm_weights : dict Qc;
  ret_strategy_weights : option (dict Qc)
}.

(** The outcome of one iteration: an exception, a [continue], or the next
    state with the row appended. *)
Inductive Outcome :=
| Raised
| Skipped
| Appended (st : ReturnState) (row : ReturnRow).

Module Returns.
Import Engine Report Run.

Section WithOrder.
Variable ord : SetOrder.
Variable T : Tables.
Variable base_actual_date : Z.
Variable base_prices : dict (option Qc).
Variable stock_names_list : list string.

(** call.py 3000-3028: the weights of a date other than the base date.
    With no previous BM weights the rows of the previous date are written
    into the dict [strategy_weights] already holds; using the variable while
    it is unbound raises ([None]). *)
Definition strategy_weights_after_base (prev_date : option Z)
    (st : ReturnState) (date_bm_weights : dict Qc) : option (dict Qc) :=
  let assigned :=
    if dnonempty (ret_prev_bm_weights st) then Some (ret_prev_bm_weights st)
    else
      match prev_date with
      | Some prev_date_obj =>
          match ret_strategy_weights st with
          | Some strategy_weights =>
              Some (build_bm_weights T prev_date_obj strategy_weights)
          | None => None
          end
      | None => Some date_bm_weights
      end in
  match assigned with
  | None => None
  | Some strategy_weights =>
      Some (fold_left
              (fun strategy_weights stock_name =>
                 if dmem stock_name strategy_weights then strategy_weights
                 else dset stock_name (dget_or stock_name 0 date_bm_weights)
                        strategy_weights)
              (dkeys date_bm_weights) strategy_weights)
  end.

(** call.py 3075-3092: [strategy_value] summed over [all_stocks]. *)
Definition strategy_value_of (all_stocks : list string)
    (date_prices : dict (option Qc)) (strategy_weights : dict Qc) : Qc :=
  fold_left
    (fun strategy_value stock_name =>
       let base_price := price_get stock_name base_prices in
       let date_price := price_get stock_name date_prices in
       let strategy_weight := dget_or stock_name 0 strategy_weights in
       if valid_pair base_price date_price then
         let stock_return :=
           (price_ratio date_price base_price - 1) * q 100 1 in
         let contribution := stock_return * strategy_weight in
         strategy_value + contribution
       else strategy_value)
    all_stocks 0.

(** One iteration of [for i, date in enumerate(dates)] (call.py
    2958-3102). *)
Definition returns_step (prev_date : option Z) (st : ReturnState)
    (date_obj : Z) : Outcome :=
  if (date_obj <? base_actual_date)%Z then Skipped
  else
    let date_bm_weights := build_bm_weights T date_obj [] in
    let date_active_weights := build_active_weights T date_obj in
    let assigned :=
      if (date_obj =? base_actual_date)%Z then
        Some (strategy_weights_base
                (set_iter ord (dkeys date_bm_weights
                               ++ dkeys date_active_weights))
                date_bm_weights date_active_weights)
      else strategy_weights_after_base prev_date st date_bm_weights in
    match assigned with
    | None => Raised
    | Some strategy_weights =>
        let all_stocks := set_iter ord (dkeys strategy_weights) in
        let names :=
          match all_stocks with
          | [] => stock_names_list
          | _ => all_stocks
          end in
        let date_prices := fst (query_prices T date_obj names) in
        let strategy_value :=
          strategy_value_of all_stocks date_prices strategy_weights in
        let strategy_value :=
          if (date_obj =? base_actual_date)%Z then 0 else strategy_value in
        Appended
          {| ret_prev_bm_weights := date_bm_weights;
             ret_strategy_weights := Some strategy_weights |}
          {| rr_dt := date_obj;
             rr_strategy_cumulative_return := strategy_value;
             rr_strategy_value := strategy_value |}
    end.

(** The loop over [dates]; [prev_date] is [dates[i - 1]].  [None] when an
    iteration raises. *)
Fixpoint returns_loop (prev_date : option Z) (dates : list Z)
    (st : ReturnState) : option (list ReturnRow) :=
  match dates with
  | [] => Some []
  | date_obj :: rest =>
      match returns_step prev_date st date_obj with
      | Raised => None
      | Skipped => returns_loop (Some date_obj) rest st
      | Appended st' row =>
          match returns_loop (Some date_obj) rest st' with
          | Some results => Some (row :: results)
          | None => None
          end
      end
  end.

End WithOrder.

(** [sort_values('dt')]. *)
Definition return_row_leb (a b : ReturnRow) : bool := (rr_dt a <=? rr_dt b)%Z.

(** The whole function: the returned frame, or [None] when it raises.  The
    column names of [stock_price] are taken as found; an empty [bm_data] has
    no date, hence no base date. *)
Definition calculate_strategy_portfolio_returns (ord : SetOrder) (T : Tables)
    (base_date_obj : Z) : option (list ReturnRow) :=
  let dates := sorted_unique (map (fun r => fst (fst r)) (bm_data T)) in
  match base_actual_date_of dates base_date_obj with
  | None => Some []
  | Some base_actual_date =>
      let base_bm_weights := build_bm_weights T base_actual_date [] in
      let all_mp_stocks :=
        set_iter ord (map (fun r => snd (fst r)) (mp_weight_data T)) in
      let all_stock_names :=
        set_iter ord (dkeys base_bm_weights ++ all_mp_stocks) in
      match all_stock_names with
      | [] => Some []
      | _ =>
          let base_prices :=
            fst (query_prices T base_actual_date all_stock_names) in
          match returns_loop ord T base_actual_date base_prices
                  all_stock_names None dates
                  {| ret_prev_bm_weights := [];
                     ret_strategy_weights := None |} with
          | Some results => Some (sort_by return_row_leb results)
          | None => None
          end
      end
  end.

End Returns.

(* ------------------------------------------------------------------ *)
(** * The reconciliation algorithm as the specification words it *)

(** The reconciliation algorithm in the words of the specification
    (section 4.1), for comparison with the matchers of the code. *)
Module SpecReconciler.

Fixpoint remove_whitespace (s : string) : string :=
  match s with
  | EmptyString => EmptyString
  | String c r =>
      if is_space c then remove_whitespace r else String c (remove_whitespace r)
  end.

(** Case-insensitive, whitespace-stripped form. *)
Definition normalize (id : string) : string := upper (remove_whitespace id).

(** Removes a trailing "US" or "KS" token. *)
Fixpoint strip_suffix_token (s : string) : string :=
  match s with
  | EmptyString => EmptyString
  | String c r =>
      if String.eqb r "US" || String.eqb r "KS" then String c EmptyString
      else String c (strip_suffix_token r)
  end.

Definition step1 (override_id candidate_id : string) : bool :=
  String.eqb override_id candidate_id.

Definition step2 (override_id candidate_id : string) : bool :=
  String.eqb (normalize override_id) (normalize candidate_id).

Definition step3 (override_id candidate_id : string) : bool :=
  String.eqb (strip_suffix_token (normalize override_id))
             (strip_suffix_token (normalize candidate_id)).

Definition step4 (override_id candidate_id : string) : bool :=
  String.prefix (normalize override_id) (normalize candidate_id)
  || String.prefix (normalize candidate_id) (normalize override_id).

(** [resolve(override_id, candidate_ids)]: the first step that matches a
    candidate wins. *)
Definition resolve (override_id : string) (candidate_ids : list string)
    : option string :=
  match find (step1 override_id) candidate_ids with
  | Some c => Some c
  | None =>
    match find (step2 override_id) candidate_ids with
    | Some c => Some c
    | None =>
      match find (step3 override_id) candidate_ids with
      | Some c => Some c
      | None => find (step4 override_id) candidate_ids
      end
    end
  end.

(** The delta a holding receives: that of the first override resolved to
    it, 0 when there is none. *)
Definition delta_of (holding_id : string) (candidate_ids : list string)
    (overrides : dict Qc) : Qc :=
  match find (fun item =>
                match resolve (fst item) candidate_ids with
                | Some c => String.eqb c holding_id
                | None => false
                end) overrides with
  | Some (_, delta) => delta
  | None => 0
  end.

End SpecReconciler.

(* ------------------------------------------------------------------ *)
(** * Notions used to state the properties *)

Import Engine Report Run Sector.

(** The override of an entry is applied when [(1 - target_weight) > 0]. *)
Definition accepted (info : ActiveInfo) : bool :=
  Qcltb 0 (1 - target_weight info).

(** The entry built for an instrument with a positive resolved delta. *)
Definition info_of (daw adj : dict Qc) (s : string) : ActiveInfo :=
  {| adjusted_weight := dget_or s 0 adj;
     target_weight := dget_or s 0 adj + current_active_weight s daw;
     active_weight := current_active_weight s daw |}.


(** The strategy weights a non-base date starts from (call.py 3326-3341):
    those carried in the state or, when there are none, the benchmark
    weights of the previous date of the list (of the date itself when it is
    the first). *)
Definition carried_weights (T : Tables) (prev_date : option Z)
    (st : EngineState) (date_bm_weights : dict Qc) : dict Qc :=
  if dnonempty (prev_strategy_weights st) then prev_strategy_weights st
  else
    match prev_date with
    | Some prev_date_obj =>
        build_bm_weights T prev_date_obj (prev_bm_weights st)
    | None => date_bm_weights
    end.

(** Looks up the row of an instrument on a date. *)
Definition find_row (rows : list ResultRow) (date_obj : Z) (name : string)
    : option ResultRow :=
  find (fun r => (r_date r =? date_obj)%Z && String.eqb (r_stock_name r) name)
       rows.

(** The tests of the code's matching loops, per override entry. *)
Definition injection_rule (stock_name mp_stock_name : string) : bool :=
  String.eqb (clean stock_name) (clean mp_stock_name)
  || (nonempty (no_us (clean stock_name))
      && nonempty (no_us (clean mp_stock_name))
      && String.eqb (no_us (clean stock_name)) (no_us (clean mp_stock_name))).

Definition prefix_rule (stock_name mp_stock_name : string) : bool :=
  startswith (clean stock_name) (clean mp_stock_name)
  || startswith (clean mp_stock_name) (clean stock_name).

Definition row_rule (stock_name mp_stock_name : string) : bool :=
  String.eqb stock_name mp_stock_name
  || injection_rule stock_name mp_stock_name
  || prefix_rule stock_name mp_stock_name.

(** The delta of the first entry, in insertion order, that passes [rule]. *)
Definition first_match (rule : string -> string -> bool) (stock_name : string)
    (date_active_weights : dict Qc) (dflt : Qc) : Qc :=
  match find (fun item => rule stock_name (fst item)) date_active_weights with
  | Some (_, mp_active_weight) => mp_active_weight
  | None => dflt
  end.

(** The sum of the daily contributions of one sector over a list of
    emitted rows. *)
Definition total (gics_name : string) (rows : list SectorRow) : Qc :=
  sum (map sr_daily_contribution
         (filter (fun r => String.eqb (sr_gics_name r) gics_name) rows)).

(** Every row's cumulative value is the running sum of its sector's daily
    contributions, counted from the rows [pre] emitted before. *)
Definition RunningFrom (pre rows : list SectorRow) : Prop :=
  forall p r post, rows = p ++ r :: post ->
    sr_cumulative_contribution r = total (sr_gics_name r) (pre ++ p ++ [r]).

(** The sum of the daily contributions of one sector over the rows dated
    [date] or earlier. *)
Definition total_to (gics_name : string) (date : Z) (rows : list SectorRow)
    : Qc :=
  sum (map sr_daily_contribution
         (filter (fun r => String.eqb (sr_gics_name r) gics_name
                           && (sr_dt r <=? date)%Z)
                 rows)).

(** The accumulators hold the totals of the rows emitted so far. *)
Definition Accumulated (cum : dict Qc) (pre : list SectorRow) : Prop :=
  forall g, dget_or g 0 cum = total g pre.

(** ** Notions for the output of get_strategy_portfolio_weight_comparison *)

(** [r] is a row built by [make_row] for an instrument on a date not before
    the base date, from the benchmark weights and overrides of that date. *)
Definition made_row (T : Tables) (base_actual_date : Z)
    (base_prices : dict (option Qc)) (r : ResultRow) : Prop :=
  exists date_obj stock_name date_prices date_local_prices strategy_weights,
    (base_actual_date <= date_obj)%Z
    /\ r = make_row (date_obj =? base_actual_date)%Z date_obj stock_name
             base_prices date_prices date_local_prices
             (build_bm_weights T date_obj []) strategy_weights
             (build_active_weights T date_obj).

(** The dates of [bm_data], as the function enumerates them. *)
Definition bm_dates (T : Tables) : list Z :=
  sorted_unique (map (fun r => fst (fst r)) (bm_data T)).

Definition row_key (r : ResultRow) : Z * string := (r_date r, r_stock_name r).

(** The price [stock_price] holds for an instrument on a date: that of the
    last row with this date and ticker, in the order the table is read. *)
Definition stored_price (T : Tables) (date_obj : Z) (stock_name : string)
    : option Qc :=
  fold_left
    (fun found row =>
       let '(dt, ticker, price, _) := row in
       if (dt =? date_obj)%Z && String.eqb ticker stock_name then price
       else found)
    (stock_price T) None.

(* ================================================================== *)
(** * Basic facts on numbers, dictionaries and set enumeration *)

Lemma Qceqb_eq (x y : Qc) : Qceqb x y = true <-> x = y.
Proof.
  unfold Qceqb. rewrite Qeq_bool_iff. split.
  - apply Qc_is_canon.
  - intros ->. reflexivity.
Qed.

Lemma Qceqb_neq (x y : Qc) : Qceqb x y = false <-> x <> y.
Proof.
  rewrite <- Qceqb_eq. destruct (Qceqb x y); split; congruence.
Qed.

Lemma Qcltb_lt (x y : Qc) : Qcltb x y = true <-> x < y.
Proof.
  unfold Qcltb, Qclt, Qlt, Qccompare, Qcompare, Z.lt.
  destruct (_ ?= _)%Z; split; intro H; congruence.
Qed.

Lemma Qcltb_ge (x y : Qc) : Qcltb x y = false <-> y <= x.
Proof.
  split; intro H.
  - apply Qcnot_lt_le. intro L. apply Qcltb_lt in L. congruence.
  - destruct (Qcltb x y) eqn:E; [|reflexivity].
    apply Qcltb_lt in E. exfalso. exact (Qcle_not_lt _ _ H E).
Qed.

Lemma sum_from (xs : list Qc) (a : Qc) : fold_left Qcplus xs a = a + sum xs.
Proof.
  unfold sum. revert a. induction xs as [|x xs IH]; intro a; simpl.
  - ring.
  - rewrite IH, (IH (0 + x)). ring.
Qed.

Lemma sum_cons (x : Qc) (xs : list Qc) : sum (x :: xs) = x + sum xs.
Proof. unfold sum at 1. simpl. rewrite sum_from. ring. Qed.

Lemma sum_app (xs ys : list Qc) : sum (xs ++ ys) = sum xs + sum ys.
Proof.
  induction xs as [|x xs IH]; simpl.
  - unfold sum at 2. simpl. ring.
  - rewrite !sum_cons, IH. ring.
Qed.

Section DictFacts.
Context {V : Type}.

Lemma dget_dset_eq k (v : V) d : dget k (dset k v d) = Some v.
Proof.
  induction d as [|[k' v'] d IH]; simpl.
  - now rewrite String.eqb_refl.
  - destruct (String.eqb k k') eqn:E; simpl; rewrite E; auto.
Qed.

Lemma dget_dset_neq k k' (v : V) d : k <> k' -> dget k (dset k' v d) = dget k d.
Proof.
  intro N. induction d as [|[k2 v2] d IH]; simpl.
  - apply String.eqb_neq in N. now rewrite N.
  - destruct (String.eqb k' k2) eqn:E; simpl.
    + apply String.eqb_eq in E. subst k2.
      apply String.eqb_neq in N. now rewrite N.
    + destruct (String.eqb k k2); auto.
Qed.

Lemma dget_or_dset_eq k (v : V) dflt d : dget_or k dflt (dset k v d) = v.
Proof. unfold dget_or. now rewrite dget_dset_eq. Qed.

Lemma dget_or_dset_neq k k' (v : V) dflt d :
  k <> k' -> dget_or k dflt (dset k' v d) = dget_or k dflt d.
Proof. intro N. unfold dget_or. now rewrite dget_dset_neq. Qed.

Lemma dmem_In k (d : dict V) : dmem k d = true <-> In k (dkeys d).
Proof.
  unfold dmem. induction d as [|[k' v'] d IH]; simpl.
  - split; [discriminate | tauto].
  - destruct (String.eqb k k') eqn:E.
    + apply String.eqb_eq in E. subst. split; auto.
    + apply String.eqb_neq in E. rewrite IH. split; auto.
      intros [H|H]; congruence.
Qed.

End DictFacts.

Lemma existsb_eqb_In x l : existsb (String.eqb x) l = true <-> In x l.
Proof.
  rewrite existsb_exists. split.
  - intros [y [Hy E]]. apply String.eqb_eq in E. now subst.
  - intro H. exists x. split; auto. apply String.eqb_refl.
Qed.

Lemma first_occurrences_In seen l x :
  In x (first_occurrences seen l) <-> In x l /\ ~ In x seen.
Proof.
  revert seen. induction l as [|y l IH]; intro seen; simpl.
  - tauto.
  - destruct (existsb (String.eqb y) seen) eqn:E.
    + apply existsb_eqb_In in E. rewrite IH. split.
      * intros [H1 H2]. auto.
      * intros [[H|H] H2]; [subst; contradiction | auto].
    + assert (N : ~ In y seen).
      { intro H. apply existsb_eqb_In in H. congruence. }
      simpl. rewrite IH. simpl. split.
      * intros [H|[H1 H2]]; [subst; auto | tauto].
      * intros [[H|H] H2]; [auto|].
        destruct (string_dec y x); [auto | right; tauto].
Qed.

Lemma first_occurrences_NoDup seen l : NoDup (first_occurrences seen l).
Proof.
  revert seen. induction l as [|y l IH]; intro seen; simpl.
  - constructor.
  - destruct (existsb (String.eqb y) seen); [apply IH|].
    constructor; [|apply IH].
    rewrite first_occurrences_In. simpl. tauto.
Qed.

Lemma insert_by_perm {A} (leb : A -> A -> bool) x l :
  Permutation (insert_by leb x l) (x :: l).
Proof.
  induction l as [|y l IH]; simpl.
  - reflexivity.
  - destruct (leb x y); [reflexivity|].
    rewrite IH. apply perm_swap.
Qed.

Lemma sort_by_perm {A} (leb : A -> A -> bool) l :
  Permutation (sort_by leb l) l.
Proof.
  induction l as [|x l IH]; simpl.
  - reflexivity.
  - rewrite insert_by_perm. now constructor.
Qed.

(* ================================================================== *)
(** * Two set enumerations and the concrete inputs of the examples *)

(** The order in which a set would be enumerated were it sorted by name,
    ascending or descending. *)
Definition ascending_order : SetOrder.
Proof.
  refine {| set_iter := fun l => sort_by String.leb (first_occurrences [] l) |}.
  - intro l. eapply Permutation_NoDup.
    + symmetry. apply sort_by_perm.
    + apply first_occurrences_NoDup.
  - intros l x. split; intro H.
    + eapply Permutation_in in H; [|apply sort_by_perm].
      apply first_occurrences_In in H. tauto.
    + eapply Permutation_in; [symmetry; apply sort_by_perm|].
      apply first_occurrences_In. simpl. tauto.
Defined.

Definition descending_order : SetOrder.
Proof.
  refine {| set_iter := fun l =>
              sort_by (fun a b => String.leb b a) (first_occurrences [] l) |}.
  - intro l. eapply Permutation_NoDup.
    + symmetry. apply sort_by_perm.
    + apply first_occurrences_NoDup.
  - intros l x. split; intro H.
    + eapply Permutation_in in H; [|apply sort_by_perm].
      apply first_occurrences_In in H. tauto.
    + eapply Permutation_in; [symmetry; apply sort_by_perm|].
      apply first_occurrences_In. simpl. tauto.
Defined.

(** The two base-date weight dicts of Scenario B. *)
Definition scenario_B_bm : dict Qc := [("X", q 10 100); ("Y", q 90 100)].
Definition scenario_B_active : dict Qc := [("X", q 1 100)].

(** Two dates with constant prices and constant benchmark weights
    {X: 0.10, Y: 0.90}; X carries a +0.01 override on both dates. *)
Definition T_repeated_override : Tables :=
  {| bm_data :=
       [(1%Z, "X", Some (q 10 100)); (1%Z, "Y", Some (q 90 100));
        (2%Z, "X", Some (q 10 100)); (2%Z, "Y", Some (q 90 100))];
     mp_weight_data :=
       [(1%Z, "X", Some (q 1 100)); (2%Z, "X", Some (q 1 100))];
     stock_price :=
       [(1%Z, "X", Some (q 100 1), None); (1%Z, "Y", Some (q 50 1), None);
        (2%Z, "X", Some (q 100 1), None); (2%Z, "Y", Some (q 50 1), None)];
     local_price_col := false |}.

(** Two dates with constant benchmark weights {X: 0.10, Y: 0.90}; X goes
    from 100 to 110 and carries a +0.01 override on the second date. *)
Definition T_drifting_override : Tables :=
  {| bm_data :=
       [(1%Z, "X", Some (q 10 100)); (1%Z, "Y", Some (q 90 100));
        (2%Z, "X", Some (q 10 100)); (2%Z, "Y", Some (q 90 100))];
     mp_weight_data := [(2%Z, "X", Some (q 1 100))];
     stock_price :=
       [(1%Z, "X", Some (q 100 1), None); (1%Z, "Y", Some (q 50 1), None);
        (2%Z, "X", Some (q 110 1), None); (2%Z, "Y", Some (q 50 1), None)];
     local_price_col := false |}.


Definition T_accepted : Tables :=
  {| bm_data :=
       [(1%Z, "X", Some (q 1 4)); (1%Z, "Y", Some (q 3 4));
        (2%Z, "X", Some (q 3 4)); (2%Z, "Y", Some (q 1 4))];
     mp_weight_data := [(2%Z, "X", Some (q 1 2))];
     stock_price :=
       [(1%Z, "X", Some (q 100 1), None); (1%Z, "Y", Some (q 50 1), None);
        (2%Z, "X", Some (q 100 1), None); (2%Z, "Y", Some (q 50 1), None)];
     local_price_col := false |}.

Definition prices_100_50 : dict (option Qc) :=
  [("X", Some (q 100 1)); ("Y", Some (q 50 1))].



(** Constant prices and benchmark weights {X: 0.2, Y: 0.3, Z: 0.5}; on the
    second date X and Y both carry a +0.1 override. *)
Definition T_two_overrides : Tables :=
  {| bm_data :=
       [(1%Z, "X", Some (q 2 10)); (1%Z, "Y", Some (q 3 10));
        (1%Z, "Z", Some (q 5 10));
        (2%Z, "X", Some (q 2 10)); (2%Z, "Y", Some (q 3 10));
        (2%Z, "Z", Some (q 5 10))];
     mp_weight_data :=
       [(2%Z, "X", Some (q 1 10)); (2%Z, "Y", Some (q 1 10))];
     stock_price :=
       [(1%Z, "X", Some (q 100 1), None); (1%Z, "Y", Some (q 50 1), None);
        (1%Z, "Z", Some (q 20 1), None);
        (2%Z, "X", Some (q 100 1), None); (2%Z, "Y", Some (q 50 1), None);
        (2%Z, "Z", Some (q 20 1), None)];
     local_price_col := false |}.

(** A benchmark of two holdings with constant prices and weights; on the
    second date an override of +0.01 is filed under the name "005930" and
    the holding "005930 KS" carries an override row with delta 0. *)
Definition T_prefix_only : Tables :=
  {| bm_data :=
       [(1%Z, "005930 KS", Some (q 2 10)); (1%Z, "000660 KS", Some (q 8 10));
        (2%Z, "005930 KS", Some (q 2 10)); (2%Z, "000660 KS", Some (q 8 10))];
     mp_weight_data :=
       [(2%Z, "005930", Some (q 1 100)); (2%Z, "005930 KS", Some 0)];
     stock_price :=
       [(1%Z, "005930 KS", Some (q 100 1), None);
        (1%Z, "000660 KS", Some (q 50 1), None);
        (2%Z, "005930 KS", Some (q 100 1), None);
        (2%Z, "000660 KS", Some (q 50 1), None)];
     local_price_col := false |}.

(** The ascending enumeration produced another way: the sorted list is
    reversed twice. *)
Definition ascending_order_reversed_twice : SetOrder.
Proof.
  refine {| set_iter := fun l => rev (rev (set_iter ascending_order l)) |}.
  - intro l. rewrite rev_involutive. apply set_iter_NoDup.
  - intros l x. rewrite rev_involutive. apply set_iter_In.
Defined.


(** Constant prices and benchmark weights {META US: 0.10, OTHER: 0.90}; on
    both dates an override of +0.01 is filed under the name "META". *)
Definition T_base_alias : Tables :=
  {| bm_data :=
       [(1%Z, "META US", Some (q 10 100)); (1%Z, "OTHER", Some (q 90 100));
        (2%Z, "META US", Some (q 10 100)); (2%Z, "OTHER", Some (q 90 100))];
     mp_weight_data :=
       [(1%Z, "META", Some (q 1 100)); (2%Z, "META", Some (q 1 100))];
     stock_price :=
       [(1%Z, "META US", Some (q 100 1), None);
        (1%Z, "OTHER", Some (q 50 1), None);
        (2%Z, "META US", Some (q 100 1), None);
        (2%Z, "OTHER", Some (q 50 1), None)];
     local_price_col := false |}.

(** Two sectors over three dates: A (Tech) rises 10% twice, B (Fin) is flat
    and then loses 10%. *)
Definition sector_example : list PerfRow :=
  [ {| p_dt := 1; p_gics_name := "Tech"; p_stock_name := "A";
       p_weight := Some (q 5 10); p_price := Some (q 100 1) |};
    {| p_dt := 1; p_gics_name := "Fin"; p_stock_name := "B";
       p_weight := Some (q 5 10); p_price := Some (q 50 1) |};
    {| p_dt := 2; p_gics_name := "Tech"; p_stock_name := "A";
       p_weight := Some (q 6 10); p_price := Some (q 110 1) |};
    {| p_dt := 2; p_gics_name := "Fin"; p_stock_name := "B";
       p_weight := Some (q 4 10); p_price := Some (q 50 1) |};
    {| p_dt := 3; p_gics_name := "Tech"; p_stock_name := "A";
       p_weight := Some (q 6 10); p_price := Some (q 121 1) |};
    {| p_dt := 3; p_gics_name := "Fin"; p_stock_name := "B";
       p_weight := Some (q 4 10); p_price := Some (q 45 1) |} ].

(* ================================================================== *)
(** * Properties of the daily recurrence *)

Lemma dget_not_in_keys {V} (s : string) (d : dict V) :
  ~ In s (dkeys d) -> dget s d = None.
Proof.
  intro N. destruct (dget s d) eqn:E; [|reflexivity].
  exfalso. apply N. apply dmem_In. unfold dmem. now rewrite E.
Qed.

Lemma dget_Some_In {V} (s : string) (v : V) (d : dict V) :
  dget s d = Some v -> In (s, v) d.
Proof.
  induction d as [|[k w] d IH]; simpl; [discriminate|].
  destruct (String.eqb s k) eqn:E; intro H.
  - apply String.eqb_eq in E. inversion H; subst. now left.
  - right. auto.
Qed.

Lemma dset_fresh {V} (k : string) (v : V) (d : dict V) :
  ~ In k (dkeys d) -> dset k v d = d ++ [(k, v)].
Proof.
  induction d as [|[k' v'] d IH]; simpl; intro N; [reflexivity|].
  destruct (String.eqb k k') eqn:E.
  - apply String.eqb_eq in E. subst. tauto.
  - f_equal. apply IH. tauto.
Qed.

(** A loop that conditionally assigns [d[k] = g k] for the keys of a list. *)
Section CondFold.
Context {V : Type} (f : dict V -> string -> dict V).
Context (p : string -> bool) (g : string -> V).
Hypothesis f_step : forall d k, f d k = if p k then dset k (g k) d else d.

Lemma dget_fold_cond (s : string) (l : list string) (d0 : dict V) :
  dget s (fold_left f l d0)
  = if existsb (String.eqb s) l && p s then Some (g s) else dget s d0.
Proof.
  revert d0. induction l as [|k l IH]; intro d0; simpl; [reflexivity|].
  rewrite IH, f_step.
  destruct (String.eqb s k) eqn:E; simpl.
  - apply String.eqb_eq in E. subst k.
    destruct (p s); simpl.
    + rewrite dget_dset_eq. now destruct (existsb _ l).
    + now rewrite andb_false_r.
  - apply String.eqb_neq in E.
    destruct (p k); [rewrite dget_dset_neq by exact E|]; reflexivity.
Qed.

Lemma dkeys_fold_cond (l : list string) (d0 : dict V) :
  NoDup l -> (forall k, In k l -> ~ In k (dkeys d0)) ->
  dkeys (fold_left f l d0) = dkeys d0 ++ filter p l.
Proof.
  revert d0. induction l as [|k l IH]; intros d0 ND Hd; simpl.
  - now rewrite app_nil_r.
  - inversion ND as [|? ? Hk ND']; subst.
    rewrite f_step. destruct (p k) eqn:Pk.
    + rewrite IH; auto.
      * rewrite dset_fresh by (apply Hd; now left).
        unfold dkeys. rewrite map_app, <- app_assoc. reflexivity.
      * intros k' Hk'. rewrite dset_fresh by (apply Hd; now left).
        unfold dkeys. rewrite map_app, in_app_iff. simpl.
        intros [H|[H|[]]].
        -- revert H. apply Hd. now right.
        -- subst. contradiction.
    + apply IH; auto. intros k' Hk'. apply Hd. now right.
Qed.
End CondFold.

Lemma existsb_eqb_true s l : In s l -> existsb (String.eqb s) l = true.
Proof. apply existsb_eqb_In. Qed.

(** The drifted weights: one entry per instrument of [all_stocks]. *)
Lemma adjusted_weights_get all_stocks psw pp dp s :
  dget s (adjusted_weights_of all_stocks psw pp dp)
  = if existsb (String.eqb s) all_stocks
    then Some (drift (dget_or s 0 psw) (price_get s pp) (price_get s dp))
    else None.
Proof.
  unfold adjusted_weights_of.
  rewrite (dget_fold_cond _ (fun _ => true)
             (fun k => drift (dget_or k 0 psw) (price_get k pp) (price_get k dp)))
    by reflexivity.
  now rewrite andb_true_r.
Qed.

Lemma swa_step daw adj (d : dict ActiveInfo) (k : string) :
  (let caw := current_active_weight k daw in
   if Qcltb 0 caw then
     let adjusted_weight := dget_or k 0 adj in
     let target_weight := adjusted_weight + caw in
     dset k {| adjusted_weight := adjusted_weight;
               target_weight := target_weight;
               active_weight := caw |} d
   else d)
  = if Qcltb 0 (current_active_weight k daw) then dset k (info_of daw adj k) d
    else d.
Proof. reflexivity. Qed.

Lemma swa_get all_stocks daw adj s :
  dget s (stocks_with_active_weight_of all_stocks daw adj)
  = if existsb (String.eqb s) all_stocks
       && Qcltb 0 (current_active_weight s daw)
    then Some (info_of daw adj s) else None.
Proof.
  unfold stocks_with_active_weight_of.
  now rewrite (dget_fold_cond _ _ _ (swa_step daw adj)).
Qed.

Lemma swa_keys all_stocks daw adj :
  NoDup all_stocks ->
  dkeys (stocks_with_active_weight_of all_stocks daw adj)
  = filter (fun s => Qcltb 0 (current_active_weight s daw)) all_stocks.
Proof.
  intro ND. unfold stocks_with_active_weight_of.
  rewrite (dkeys_fold_cond _ _ _ (swa_step daw adj)); auto.
Qed.

Lemma swa_keys_NoDup all_stocks daw adj :
  NoDup all_stocks ->
  NoDup (dkeys (stocks_with_active_weight_of all_stocks daw adj)).
Proof.
  intro ND. rewrite swa_keys by exact ND. now apply NoDup_filter.
Qed.

(** ** The injection loop *)

Lemma inject_one_other st k info s :
  s <> k ->
  dget s (strategy_weights_acc (inject_one st (k, info)))
  = dget s (strategy_weights_acc st)
  /\ dget s (adjusted_weights_current (inject_one st (k, info)))
     = dget s (adjusted_weights_current st).
Proof.
  intro N. unfold inject_one.
  destruct (Qcltb 0 (1 - target_weight info)); simpl;
    rewrite ?dget_dset_neq by exact N; auto.
Qed.

Lemma inject_one_self st k info :
  dget k (strategy_weights_acc (inject_one st (k, info)))
  = Some (if accepted info then target_weight info
          else dget_or k 0 (adjusted_weights_current st)).
Proof.
  unfold inject_one, accepted.
  destruct (Qcltb 0 (1 - target_weight info)); simpl;
    now rewrite dget_dset_eq.
Qed.

Lemma inject_all_other items st s :
  ~ In s (dkeys items) ->
  dget s (strategy_weights_acc (inject_all items st))
  = dget s (strategy_weights_acc st)
  /\ dget s (adjusted_weights_current (inject_all items st))
     = dget s (adjusted_weights_current st).
Proof.
  unfold inject_all. revert st.
  induction items as [|[k info] items IH]; intros st N; cbn [fold_left];
    [auto|].
  simpl in N.
  destruct (IH (inject_one st (k, info))) as [H1 H2]; [tauto|].
  destruct (inject_one_other st k info s) as [H3 H4]; [intuition congruence|].
  split; congruence.
Qed.

Lemma inject_all_entry items st s info :
  NoDup (dkeys items) -> In (s, info) items ->
  dget s (strategy_weights_acc (inject_all items st))
  = Some (if accepted info then target_weight info
          else dget_or s 0 (adjusted_weights_current st)).
Proof.
  unfold inject_all. revert st.
  induction items as [|[k i] items IH]; intros st ND H; cbn [fold_left];
    [contradiction|].
  simpl in ND. inversion ND as [|? ? Hk ND']; subst.
  destruct H as [H|H].
  - inversion H; subst.
    destruct (inject_all_other items (inject_one st (s, info)) s Hk) as [H1 _].
    unfold inject_all in H1. rewrite H1. apply inject_one_self.
  - assert (N : s <> k).
    { intro; subst. apply Hk. change k with (fst (k, info)). now apply in_map. }
    rewrite (IH _ ND' H).
    destruct (inject_one_other st k i s N) as [_ H2].
    unfold dget_or. now rewrite H2.
Qed.


(** An applied entry adds the solver's amount to the NAV. *)
Lemma inject_one_accepted st k info :
  accepted info = true ->
  nav_current (inject_one st (k, info))
  = nav_current st
    + additional_amount (target_weight info) (nav_current st)
        (dget_or k 0 (adjusted_weights_current st)).
Proof.
  unfold accepted, inject_one. intros ->. reflexivity.
Qed.

(** ** Dilution *)

Lemma dilute_get all_stocks (swa : dict ActiveInfo) adj nav sw0 s :
  dget s (dilute all_stocks swa adj nav sw0)
  = if existsb (String.eqb s) all_stocks && negb (dmem s swa)
    then Some (if Qcltb 0 nav then dget_or s 0 adj / nav else dget_or s 0 adj)
    else dget s sw0.
Proof.
  unfold dilute.
  apply (dget_fold_cond _ (fun k => negb (dmem k swa))
           (fun k => if Qcltb 0 nav then dget_or k 0 adj / nav
                     else dget_or k 0 adj)).
  intros d k. now destruct (dmem k swa).
Qed.

(** ** The emitted weights of a non-base date, case by case *)

Section NonBase.
Variables (all_stocks : list string) (daw adj : dict Qc).
Hypothesis all_stocks_NoDup : NoDup all_stocks.

Let swa := stocks_with_active_weight_of all_stocks daw adj.
Let sw := strategy_weights_nonbase all_stocks daw adj.
Let nav_final := nav_current (injection_result swa adj).

Lemma nonbase_no_active :
  dnonempty swa = false -> sw = adj.
Proof.
  subst sw swa. unfold strategy_weights_nonbase. now intros ->.
Qed.

Lemma nonbase_overridden s info :
  dget s swa = Some info ->
  dget s sw = Some (if accepted info then target_weight info
                    else dget_or s 0 adj).
Proof.
  intro H. subst sw. unfold strategy_weights_nonbase. fold swa.
  assert (NE : dnonempty swa = true).
  { destruct swa; [discriminate | reflexivity]. }
  rewrite NE, dilute_get.
  assert (M : dmem s swa = true) by (unfold dmem; now rewrite H).
  rewrite M, andb_false_r.
  unfold injection_result.
  rewrite (inject_all_entry swa _ s info).
  - reflexivity.
  - apply swa_keys_NoDup, all_stocks_NoDup.
  - now apply dget_Some_In.
Qed.

Lemma nonbase_not_overridden s :
  dnonempty swa = true -> In s all_stocks -> dget s swa = None ->
  dget s sw = Some (if Qcltb 0 nav_final then dget_or s 0 adj / nav_final
                    else dget_or s 0 adj).
Proof.
  intros NE Hin H. subst sw nav_final. unfold strategy_weights_nonbase.
  fold swa. rewrite NE, dilute_get.
  assert (M : dmem s swa = false) by (unfold dmem; now rewrite H).
  now rewrite M, existsb_eqb_true.
Qed.
End NonBase.

Lemma accepted_lt (info : ActiveInfo) :
  accepted info = true <-> target_weight info < 1.
Proof.
  unfold accepted. rewrite Qcltb_lt. symmetry. apply Qclt_minus_iff.
Qed.

Lemma accepted_ge (info : ActiveInfo) :
  accepted info = false <-> 1 <= target_weight info.
Proof.
  split; intro H.
  - apply Qcnot_lt_le. intro L. apply accepted_lt in L. congruence.
  - destruct (accepted info) eqn:E; [|reflexivity].
    apply accepted_lt in E. exfalso. exact (Qcle_not_lt _ _ H E).
Qed.

(** Equality of concrete structures holding rationals: component by
    component, rationals compared by value. *)
Ltac qc_eq :=
  lazymatch goal with
  | |- @eq Qc _ _ => apply Qc_is_canon; vm_compute; reflexivity
  | |- _ => first [ reflexivity | progress f_equal; qc_eq ]
  end.

(** ** The drift of one instrument, case by case *)

Lemma Qcltb_pos_nonzero (p : Qc) : Qcltb 0 p = true -> Qceqb p 0 = false.
Proof.
  intro H. apply Qceqb_neq. intros ->. discriminate H.
Qed.

Lemma drift_cases (w : Qc) (prev_price current_price : option Qc) :
  drift w prev_price current_price
  = match prev_price, current_price with
    | Some p, Some c =>
        if Qcltb 0 p && negb (Qceqb c 0) then w * (c / p) else w
    | _, _ => w
    end.
Proof.
  unfold drift, valid_pair, price_ratio, truthy.
  destruct prev_price as [p|], current_price as [c|]; cbn [andb];
    try reflexivity.
  - destruct (Qcltb 0 p) eqn:L.
    + rewrite (Qcltb_pos_nonzero p L). cbn [negb andb].
      rewrite andb_true_r. reflexivity.
    + rewrite andb_false_r. reflexivity.
  - now rewrite andb_false_r.
Qed.

(** ** The step of a non-base date *)

(** What [process_date] hands on and emits on a non-base date: the injection
    runs on the weights carried into the date, drifted between the prices
    the state holds and the prices queried for the date. *)
Lemma process_date_nonbase ord T base bp prev st d st' rows sm :
  process_date ord T base bp prev st d = Some (st', rows, sm) ->
  d <> base ->
  let bm := build_bm_weights T d [] in
  let daw := build_active_weights T d in
  let date_prices :=
    fst (query_prices T d (set_iter ord (dkeys bm ++ dkeys daw))) in
  let carried := carried_weights T prev st bm in
  let all_stocks := set_iter ord (dkeys carried ++ dkeys bm ++ dkeys daw) in
  let adj :=
    adjusted_weights_of all_stocks carried (prev_prices st) date_prices in
  prev_strategy_weights st' = strategy_weights_nonbase all_stocks daw adj
  /\ prev_prices st' = date_prices
  /\ (forall r, In r rows ->
        r_date r = d
        /\ r_strategy_weight r
           = dget_or (r_stock_name r) 0 (prev_strategy_weights st')).
Proof.
  intros P Hne bm daw date_prices carried all_stocks adj.
  subst adj all_stocks carried date_prices. revert P.
  unfold process_date. fold bm. fold daw.
  destruct (d <? base)%Z; [discriminate|].
  destruct (set_iter ord (dkeys bm ++ dkeys daw)) as [|x xs];
    [discriminate|].
  destruct (query_prices T d (x :: xs)) as [dp dlp]. cbn [fst].
  unfold strategy_weights_of, carried_weights.
  apply Z.eqb_neq in Hne. rewrite Hne.
  intro H. inversion H; subst st' rows sm; clear H.
  cbn [prev_strategy_weights prev_prices].
  split; [reflexivity|]. split; [reflexivity|].
  intros r Hin. apply in_app_or in Hin. destruct Hin as [Hin|Hin].
  - apply in_map_iff in Hin. destruct Hin as [s [<- _]]. split; reflexivity.
  - destruct (set_iter ord (dkeys _)) as [|y ys]; [contradiction|].
    destruct (query_prices T d (y :: ys)) as [dp2 dlp2].
    apply in_map_iff in Hin. destruct Hin as [s [<- _]]. split; reflexivity.
Qed.

(* ================================================================== *)
(** * C1: the exact-targeting solver *)

(** C1, as stated, fails at the boundary where the instrument holds the
    whole NAV: with target 1/2, NAV 1 and drifted weight 1 (all hypotheses of
    the claim hold) the injection is -1, the NAV after injection is 0 and the
    post-injection share is undefined, hence not the target. *)
Lemma solver_share_undefined_when_weight_is_nav :
  0 < q 1 2 /\ q 1 2 < 1 /\ 0 < 1 /\ 0 <= 1
  /\ additional_amount (q 1 2) 1 1 = - (1)
  /\ post_injection_share 1 1 (additional_amount (q 1 2) 1 1) = None
  /\ post_injection_share 1 1 (additional_amount (q 1 2) 1 1)
     <> Some (q 1 2).
Proof.
  repeat split; try reflexivity; try discriminate.
  apply Qc_is_canon. reflexivity.
Qed.

(** C1 (amended): for target in (0,1), positive NAV, drifted weight >= 0 and
    drifted weight different from the NAV, the injection
    x = (target * nav - adjusted) / (1 - target) makes the post-injection share
    (adjusted + x) / (nav + x) equal to the target. *)
Theorem exact_targeting_postcondition (target nav adj : Qc) :
  0 < target -> target < 1 -> 0 < nav -> 0 <= adj -> adj <> nav ->
  post_injection_share adj nav (additional_amount target nav adj)
  = Some target.
Proof.
  intros _ Ht _ _ Hne.
  assert (D : 1 - target <> 0).
  { intro H. apply (Qclt_not_eq _ _ Ht).
    transitivity (1 - (1 - target)); [ring | rewrite H; ring]. }
  assert (E : (nav + additional_amount target nav adj) * (1 - target)
              = nav - adj).
  { unfold additional_amount. field. exact D. }
  assert (N : nav + additional_amount target nav adj <> 0).
  { intro H. rewrite H in E. apply Hne.
    transitivity (nav - (nav - adj)); [ring | rewrite <- E; ring]. }
  unfold post_injection_share.
  assert (E2 : adj + additional_amount target nav adj
               = target * (nav + additional_amount target nav adj)).
  { unfold additional_amount. field. exact D. }
  rewrite (proj2 (Qceqb_neq _ _) N). f_equal.
  rewrite E2. revert N. generalize (nav + additional_amount target nav adj).
  intros y N. field. exact N.
Qed.

Lemma exact_targeting_postcondition_witness :
  post_injection_share (q 1 10) 1 (additional_amount (q 1 2) 1 (q 1 10))
  = Some (q 1 2).
Proof.
  apply exact_targeting_postcondition.
  - reflexivity.
  - reflexivity.
  - reflexivity.
  - discriminate.
  - apply Qceqb_neq. reflexivity.
Defined.

(* ================================================================== *)
(** * C5: initialisation at the base date *)

Lemma strategy_weights_base_get all_stocks bm daw s :
  dget s (strategy_weights_base all_stocks bm daw)
  = if existsb (String.eqb s) all_stocks
    then Some (dget_or s 0 bm + dget_or s 0 daw) else None.
Proof.
  unfold strategy_weights_base.
  rewrite (dget_fold_cond _ (fun _ => true)
             (fun k => dget_or k 0 bm + dget_or k 0 daw)) by reflexivity.
  now rewrite andb_true_r.
Qed.

Lemma dget_or_not_in_keys {V} (s : string) (dflt : V) (d : dict V) :
  ~ In s (dkeys d) -> dget_or s dflt d = dflt.
Proof. intro N. unfold dget_or. now rewrite dget_not_in_keys. Qed.

Lemma strategy_weights_of_base_get ord T base prev_date st bm daw dp s :
  dget_or s 0 (strategy_weights_of ord T base prev_date st base bm daw dp)
  = dget_or s 0 bm + dget_or s 0 daw.
Proof.
  unfold strategy_weights_of.
  rewrite Z.eqb_refl. unfold dget_or at 1.
  rewrite strategy_weights_base_get.
  destruct (existsb _ _) eqn:E; [reflexivity|].
  assert (N : ~ In s (dkeys bm ++ dkeys daw)).
  { intro H. apply (set_iter_In ord) in H.
    apply existsb_eqb_In in H. congruence. }
  rewrite in_app_iff in N.
  rewrite !dget_or_not_in_keys by tauto. ring.
Qed.

Lemma make_summary_base_nav d bm sw daw pbm psw pp dp pbn pmn :
  s_MP_NAV (make_summary true d bm sw daw pbm psw pp dp pbn pmn)
  = s_BM_NAV (make_summary true d bm sw daw pbm psw pp dp pbn pmn)
    * (1 + sum (dvalues daw)).
Proof. unfold make_summary. simpl. ring. Qed.

(** What the base date does with the override entries, each taken under the
    name it is filed under: the base date is processed whenever it has a
    benchmark weight or an override; the strategy weight of every name is
    then its benchmark weight plus the entry of that very name (in the state
    handed on and on every emitted row) and the strategy NAV is the
    benchmark NAV times (1 + sum of the entries).  In Scenario B (base
    weights {X: 0.10, Y: 0.90}, +0.01 on X) the strategy weight of X is 0.11
    and the strategy NAV is the benchmark NAV times 1.01. *)
Theorem base_date_initialisation (ord : SetOrder) (T : Tables)
    (base_actual_date : Z) (base_prices : dict (option Qc))
    (prev_date : option Z) (st : EngineState) :
  let bm := build_bm_weights T base_actual_date [] in
  let daw := build_active_weights T base_actual_date in
  (dkeys bm ++ dkeys daw <> [] ->
   exists out,
     process_date ord T base_actual_date base_prices prev_date st
       base_actual_date = Some out)
  /\ (forall st' rows summary,
        process_date ord T base_actual_date base_prices prev_date st
          base_actual_date = Some (st', rows, summary) ->
        (forall s, dget_or s 0 (prev_strategy_weights st')
                   = dget_or s 0 bm + dget_or s 0 daw)
        /\ (forall r, In r rows ->
              r_strategy_weight r
              = r_BM_weight r + dget_or (r_stock_name r) 0 daw)
        /\ s_MP_NAV summary = s_BM_NAV summary * (1 + sum (dvalues daw)))
  /\ (forall st' rows summary,
        process_date ord T_repeated_override 1%Z base_prices prev_date st 1%Z
        = Some (st', rows, summary) ->
        dget_or "X" 0 (prev_strategy_weights st') = q 11 100
        /\ s_MP_NAV summary = s_BM_NAV summary * q 101 100).
Proof.
  intros bm daw.
  assert (General : forall T0 base st' rows summary,
    process_date ord T0 base base_prices prev_date st base
    = Some (st', rows, summary) ->
    (forall s, dget_or s 0 (prev_strategy_weights st')
               = dget_or s 0 (build_bm_weights T0 base [])
                 + dget_or s 0 (build_active_weights T0 base))
    /\ (forall r, In r rows ->
          r_strategy_weight r
          = r_BM_weight r
            + dget_or (r_stock_name r) 0 (build_active_weights T0 base))
    /\ s_MP_NAV summary
       = s_BM_NAV summary * (1 + sum (dvalues (build_active_weights T0 base)))).
  { intros T0 base st' rows summary. unfold process_date.
    rewrite Z.ltb_irrefl, Z.eqb_refl.
    destruct (set_iter ord _) as [|x xs]; [discriminate|].
    destruct (query_prices T0 base (x :: xs)) as [dp dlp].
    intro H. inversion H; subst; clear H. cbn [prev_strategy_weights].
    split; [|split].
    - intro s. apply strategy_weights_of_base_get.
    - intros r Hin. destruct Hin as [<- | Hin];
        [apply strategy_weights_of_base_get|].
      apply in_app_or in Hin. destruct Hin as [Hin|Hin].
      + apply in_map_iff in Hin. destruct Hin as [s [<- _]].
        cbn [make_row r_strategy_weight r_BM_weight r_stock_name].
        apply strategy_weights_of_base_get.
      + destruct (set_iter ord (dkeys _)) as [|y ys]; [contradiction|].
        destruct (query_prices T0 base (y :: ys)) as [dp2 dlp2].
        apply in_map_iff in Hin. destruct Hin as [s [<- _]].
        cbn [make_row r_strategy_weight r_BM_weight r_stock_name].
        apply strategy_weights_of_base_get.
    - apply make_summary_base_nav. }
  split; [|split].
  - intro NE. unfold process_date. rewrite Z.ltb_irrefl.
    fold bm. fold daw.
    destruct (set_iter ord (dkeys bm ++ dkeys daw)) as [|x xs] eqn:E.
    + exfalso. destruct (dkeys bm ++ dkeys daw) as [|k ks] eqn:K;
        [congruence|].
      assert (Hin : In k (set_iter ord (k :: ks)))
        by (apply set_iter_In; now left).
      rewrite E in Hin. contradiction.
    + destruct (query_prices T base_actual_date (x :: xs)) as [dp dlp].
      eexists. reflexivity.
  - intros st' rows summary H. exact (General T base_actual_date _ _ _ H).
  - intros st' rows summary H.
    destruct (General T_repeated_override 1%Z _ _ _ H) as [G1 [_ G3]].
    split.
    + rewrite G1. apply Qc_is_canon. reflexivity.
    + rewrite G3. f_equal; apply Qc_is_canon; reflexivity.
Qed.

Lemma base_date_initialisation_witness :
  exists st' rows summary,
    process_date ascending_order T_repeated_override 1%Z
      [("X", Some (q 100 1)); ("Y", Some (q 50 1))] None initial_state 1%Z
    = Some (st', rows, summary)
    /\ dget_or "X" 0 (prev_strategy_weights st') = q 11 100
    /\ s_MP_NAV summary = s_BM_NAV summary * q 101 100.
Proof.
  pose proof (base_date_initialisation ascending_order T_repeated_override 1%Z
                [("X", Some (q 100 1)); ("Y", Some (q 50 1))] None
                initial_state) as H.
  cbv zeta in H. destruct H as [H1 [_ H3]].
  destruct H1 as [[[st' rows] summary] E]; [discriminate|].
  exists st', rows, summary. split; [exact E|]. exact (H3 _ _ _ E).
Defined.

(** C5: the base date does not reconcile names.  With the benchmark holding
    "META US" at 0.10 and an override of +0.01 filed under "META", the
    reconciler resolves the delta 0.01 for "META US" and the row of the base
    date reports it as the active weight, yet the strategy weight of
    "META US" on the base date is 0.10, not 0.10 + 0.01: the override is
    booked on a separate instrument "META".  On the next date, with the
    same override, the injection does attach it and "META US" is emitted at
    0.11. *)
Theorem base_date_override_not_reconciled :
  let out :=
    fst (get_strategy_portfolio_weight_comparison ascending_order
           T_base_alias 1%Z) in
  let columns (r : ResultRow) :=
    (r_BM_weight r, r_active_weight r, r_strategy_weight r) in
  current_active_weight "META US" (build_active_weights T_base_alias 1%Z)
  = q 1 100
  /\ option_map columns (find_row out 1%Z "META US")
     = Some (q 10 100, q 1 100, q 10 100)
  /\ q 10 100 <> q 10 100 + q 1 100
  /\ option_map columns (find_row out 1%Z "META")
     = Some (0, q 1 100, q 1 100)
  /\ option_map columns (find_row out 2%Z "META US")
     = Some (q 10 100, q 1 100, q 10 100 + q 1 100).
Proof.
  repeat split; try (vm_compute; qc_eq).
  apply Qceqb_neq. reflexivity.
Qed.

(* ================================================================== *)
(** * C6: organic drift *)

(** The drift loop, for the price dicts it is given: an instrument with a
    positive price in both gets the drifted weight
    prior weight * (current price / previous price); an instrument whose price
    is missing in either (absent or NULL; also a zero price, or a previous
    price that is not positive) keeps its prior strategy weight. *)
Theorem organic_drift (all_stocks : list string) (psw : dict Qc)
    (pp dp : dict (option Qc)) (s : string) :
  In s all_stocks ->
  (forall p c, price_get s pp = Some p -> price_get s dp = Some c ->
               0 < p -> 0 < c ->
     dget_or s 0 (adjusted_weights_of all_stocks psw pp dp)
     = dget_or s 0 psw * (c / p))
  /\ (price_get s pp = None \/ price_get s dp = None ->
      dget_or s 0 (adjusted_weights_of all_stocks psw pp dp)
      = dget_or s 0 psw)
  /\ (price_get s pp = Some 0 \/ price_get s dp = Some 0
      \/ (exists p, price_get s pp = Some p /\ p <= 0) ->
      dget_or s 0 (adjusted_weights_of all_stocks psw pp dp)
      = dget_or s 0 psw).
Proof.
  intro Hin.
  assert (G : dget_or s 0 (adjusted_weights_of all_stocks psw pp dp)
              = drift (dget_or s 0 psw) (price_get s pp) (price_get s dp)).
  { unfold dget_or at 1.
    now rewrite adjusted_weights_get, existsb_eqb_true. }
  rewrite G. unfold drift, valid_pair, truthy, price_ratio.
  split; [|split].
  - intros p c -> -> Hp Hc.
    rewrite (proj2 (Qceqb_neq p 0)), (proj2 (Qceqb_neq c 0)),
      (proj2 (Qcltb_lt 0 p) Hp); simpl; auto.
    + intro H. subst c. exact (Qclt_not_eq _ _ Hc eq_refl).
    + intro H. subst p. exact (Qclt_not_eq _ _ Hp eq_refl).
  - intros [-> | ->]; [reflexivity|].
    now rewrite andb_false_r.
  - intros [-> | [-> | [p [-> Hp]]]].
    + reflexivity.
    + now rewrite andb_false_r.
    + rewrite (proj2 (Qcltb_ge 0 p) Hp). now rewrite andb_false_r.
Qed.

Lemma organic_drift_witness :
  dget_or "X" 0
    (adjusted_weights_of ["X"; "Z"] [("X", q 11 100); ("Z", q 5 100)]
       [("X", Some (q 100 1)); ("Z", None)]
       [("X", Some (q 110 1)); ("Z", Some (q 7 1))])
  = q 11 100 * (q 110 1 / q 100 1)
  /\ dget_or "Z" 0
       (adjusted_weights_of ["X"; "Z"] [("X", q 11 100); ("Z", q 5 100)]
          [("X", Some (q 100 1)); ("Z", None)]
          [("X", Some (q 110 1)); ("Z", Some (q 7 1))])
     = q 5 100.
Proof.
  split.
  - apply (proj1 (organic_drift ["X"; "Z"] [("X", q 11 100); ("Z", q 5 100)]
                    [("X", Some (q 100 1)); ("Z", None)]
                    [("X", Some (q 110 1)); ("Z", Some (q 7 1))] "X"
                    (or_introl eq_refl)));
      reflexivity.
  - apply (proj1 (proj2
             (organic_drift ["X"; "Z"] [("X", q 11 100); ("Z", q 5 100)]
                [("X", Some (q 100 1)); ("Z", None)]
                [("X", Some (q 110 1)); ("Z", Some (q 7 1))] "Z"
                (or_intror (or_introl eq_refl))))).
    left. reflexivity.
Defined.


(* ================================================================== *)
(** * C2: the injection target *)

(** C2, as stated, fails: on the second date X enters the injection with the
    weight 0.11 it got at the base date, so the engine's target for X is
    0.11 + 0.01 = 0.12, whereas today's benchmark weight plus the delta is
    0.10 + 0.01 = 0.11; the emitted row shows 0.12. *)
Lemma target_differs_from_benchmark_plus_delta :
  let stocks := ["X"; "Y"] in
  let bm_today : dict Qc := [("X", q 10 100); ("Y", q 90 100)] in
  let active_today : dict Qc := [("X", q 1 100)] in
  let prices := [("X", Some (q 100 1)); ("Y", Some (q 50 1))] in
  let psw := strategy_weights_base stocks scenario_B_bm scenario_B_active in
  let adj := adjusted_weights_of stocks psw prices prices in
  (exists info,
      dget "X" (stocks_with_active_weight_of stocks active_today adj)
      = Some info
      /\ target_weight info = q 12 100
      /\ target_weight info
         <> dget_or "X" 0 bm_today + dget_or "X" 0 active_today)
  /\ option_map (fun r => (r_BM_weight r, r_active_weight r,
                           r_strategy_weight r))
       (find_row (fst (get_strategy_portfolio_weight_comparison
                         ascending_order T_repeated_override 1%Z))
                 2%Z "X")
     = Some (q 10 100, q 1 100, q 12 100).
Proof.
  split.
  - eexists. split; [reflexivity|]. split.
    + apply Qc_is_canon. reflexivity.
    + apply Qceqb_neq. reflexivity.
  - vm_compute. qc_eq.
Qed.

(** C2 (amended): on a non-base date the engine gives every instrument with
    a strictly positive resolved delta the target "drifted weight plus
    delta".  The drifted weight is the weight carried into the date,
    multiplied by current price / previous price when the price the state
    holds from the date processed before is positive and the price queried
    for the date is present and not zero, and left as it is otherwise.  The
    injection of the date runs with this target: the instrument is handed on
    and emitted at the target when the target is below 1, and at its drifted
    weight otherwise. *)
Theorem injection_target_is_drifted_weight_plus_delta (ord : SetOrder)
    (T : Tables) (base_actual_date : Z) (base_prices : dict (option Qc))
    (prev_date : option Z) (st st' : EngineState) (date_obj : Z)
    (rows : list ResultRow) (summary : SummaryRow) (s : string) :
  process_date ord T base_actual_date base_prices prev_date st date_obj
  = Some (st', rows, summary) ->
  date_obj <> base_actual_date ->
  let bm := build_bm_weights T date_obj [] in
  let daw := build_active_weights T date_obj in
  let date_prices :=
    fst (query_prices T date_obj (set_iter ord (dkeys bm ++ dkeys daw))) in
  let carried := carried_weights T prev_date st bm in
  let all_stocks := set_iter ord (dkeys carried ++ dkeys bm ++ dkeys daw) in
  let adjusted :=
    match price_get s (prev_prices st), price_get s date_prices with
    | Some prev_price, Some current_price =>
        if Qcltb 0 prev_price && negb (Qceqb current_price 0)
        then dget_or s 0 carried * (current_price / prev_price)
        else dget_or s 0 carried
    | _, _ => dget_or s 0 carried
    end in
  let target := adjusted + current_active_weight s daw in
  In s all_stocks -> 0 < current_active_weight s daw ->
  (exists info,
      dget s (stocks_with_active_weight_of all_stocks daw
                (adjusted_weights_of all_stocks carried (prev_prices st)
                   date_prices)) = Some info
      /\ adjusted_weight info = adjusted
      /\ target_weight info = target)
  /\ prev_strategy_weights st'
     = strategy_weights_nonbase all_stocks daw
         (adjusted_weights_of all_stocks carried (prev_prices st) date_prices)
  /\ dget s (prev_strategy_weights st')
     = Some (if Qcltb 0 (1 - target) then target else adjusted)
  /\ (forall r, In r rows -> r_stock_name r = s ->
        r_strategy_weight r
        = if Qcltb 0 (1 - target) then target else adjusted).
Proof.
  intros P Hne bm daw date_prices carried all_stocks adjusted target Hin Hpos.
  destruct (process_date_nonbase _ _ _ _ _ _ _ _ _ _ P Hne) as [Sw [_ Rw]].
  fold bm daw date_prices carried all_stocks in Sw.
  set (adj := adjusted_weights_of all_stocks carried (prev_prices st)
                date_prices) in *.
  assert (A : dget_or s 0 adj = adjusted).
  { subst adj adjusted. unfold dget_or at 1.
    rewrite adjusted_weights_get, (existsb_eqb_true _ _ Hin).
    apply drift_cases. }
  assert (G : dget s (stocks_with_active_weight_of all_stocks daw adj)
              = Some (info_of daw adj s)).
  { rewrite swa_get, (existsb_eqb_true _ _ Hin).
    now rewrite (proj2 (Qcltb_lt _ _) Hpos). }
  assert (W : dget s (prev_strategy_weights st')
              = Some (if Qcltb 0 (1 - target) then target else adjusted)).
  { rewrite Sw.
    rewrite (nonbase_overridden all_stocks daw adj
               (set_iter_NoDup ord _) s _ G).
    unfold accepted, info_of. cbn [target_weight]. rewrite A.
    reflexivity. }
  split; [|split; [exact Sw|split; [exact W|]]].
  - exists (info_of daw adj s). split; [exact G|].
    unfold info_of. cbn [adjusted_weight target_weight]. rewrite A.
    split; reflexivity.
  - intros r Hr Hs. destruct (Rw r Hr) as [_ ->]. rewrite Hs.
    unfold dget_or. now rewrite W.
Qed.

Lemma injection_target_is_drifted_weight_plus_delta_witness :
  exists st1 rows1 summary1 st2 rows2 summary2,
    process_date ascending_order T_drifting_override 1%Z prices_100_50 None
      initial_state 1%Z = Some (st1, rows1, summary1)
    /\ process_date ascending_order T_drifting_override 1%Z prices_100_50
         (Some 1%Z) st1 2%Z = Some (st2, rows2, summary2)
    /\ dget "X" (prev_strategy_weights st1) = Some (q 10 100)
    /\ dget "X" (prev_strategy_weights st2)
       = Some (q 10 100 * (q 110 1 / q 100 1) + q 1 100).
Proof.
  destruct (process_date ascending_order T_drifting_override 1%Z
              prices_100_50 None initial_state 1%Z)
    as [[[st1 rows1] summary1]|] eqn:P1; [|vm_compute in P1; discriminate].
  assert (E1 : st1
               = {| prev_bm_weights := scenario_B_bm;
                    prev_strategy_weights :=
                      [("X", q 10 100 + 0); ("Y", q 90 100 + 0)];
                    prev_prices := prices_100_50;
                    prev_bm_nav := Some (q 10 100 + q 90 100);
                    prev_mp_nav := Some (q 10 100 + q 90 100) |}).
  { vm_compute in P1. inversion P1. qc_eq. }
  destruct (process_date ascending_order T_drifting_override 1%Z
              prices_100_50 (Some 1%Z) st1 2%Z)
    as [[[st2 rows2] summary2]|] eqn:P2;
    [|rewrite E1 in P2; vm_compute in P2; discriminate].
  exists st1, rows1, summary1, st2, rows2, summary2.
  split; [reflexivity|]. split; [exact P2|]. split.
  - rewrite E1. vm_compute. qc_eq.
  - refine (eq_trans
              (proj1 (proj2 (proj2
                 (injection_target_is_drifted_weight_plus_delta
                    ascending_order T_drifting_override 1%Z prices_100_50
                    (Some 1%Z) st1 st2 2%Z rows2 summary2 "X" P2 _ _ _))))
              _).
    + discriminate.
    + rewrite E1. vm_compute. auto.
    + vm_compute. reflexivity.
    + rewrite E1. vm_compute. qc_eq.
Defined.

(* ================================================================== *)
(** * C7: emitted weights after the injections *)

(** C7, as stated, fails for an instrument whose override is rejected.
    X (drifted 0.99, delta +0.02) has target 1.01 and is rejected; Y (drifted
    0.005, delta +0.005) is injected to its target 0.01, so the date has an
    applied override and the final NAV is 199/198; the emitted weight of X is
    0.99: neither its target nor its drifted weight divided by the final
    NAV. *)
Lemma rejected_override_neither_target_nor_diluted :
  let stocks := ["X"; "Y"; "Z"] in
  let daw : dict Qc := [("X", q 2 100); ("Y", q 5 1000)] in
  let adj : dict Qc := [("X", q 99 100); ("Y", q 5 1000); ("Z", q 5 1000)] in
  let swa := stocks_with_active_weight_of stocks daw adj in
  let sw := strategy_weights_nonbase stocks daw adj in
  let nav_final := nav_current (injection_result swa adj) in
  option_map target_weight (dget "X" swa) = Some (q 101 100)
  /\ option_map target_weight (dget "Y" swa) = Some (q 1 100)
  /\ dget "Y" sw = Some (q 1 100)
  /\ nav_final = q 199 198
  /\ dget "X" sw = Some (q 99 100)
  /\ q 99 100 <> q 101 100
  /\ q 99 100 <> dget_or "X" 0 adj / nav_final.
Proof.
  repeat split; try (vm_compute; qc_eq); apply Qceqb_neq; reflexivity.
Qed.

(** The guard [nav_current > 0] of the dilution matters once a strategy
    weight is negative (a base-date override below minus the benchmark
    weight): here the final NAV is -1/8 and Z keeps -0.1. *)
Lemma dilution_skipped_when_final_nav_not_positive :
  let stocks := ["X"; "Z"; "W"] in
  let daw : dict Qc := [("X", q 1 10)] in
  let adj : dict Qc := [("X", q 5 10); ("Z", q (-1) 10); ("W", q 5 100)] in
  let swa := stocks_with_active_weight_of stocks daw adj in
  let sw := strategy_weights_nonbase stocks daw adj in
  let nav_final := nav_current (injection_result swa adj) in
  nav_final = q (-1) 8
  /\ dget "Z" sw = Some (q (-1) 10)
  /\ q (-1) 10 <> dget_or "Z" 0 adj / nav_final.
Proof.
  repeat split; try (vm_compute; qc_eq); apply Qceqb_neq; reflexivity.
Qed.

(** C7 (amended): on a non-base date where some instrument has a positive
    resolved delta, every instrument without one is emitted with its drifted
    weight divided by the final NAV (when that NAV is positive), every
    instrument whose override is applied (target below 1) is emitted with
    exactly its target, and an instrument whose override is rejected (target
    at least 1) keeps its drifted weight; on a date without any positive
    resolved delta the emitted weights are the drifted weights. *)
Theorem emitted_weights_after_injection (ord : SetOrder) (l : list string)
    (daw adj : dict Qc) :
  let all_stocks := set_iter ord l in
  let swa := stocks_with_active_weight_of all_stocks daw adj in
  let sw := strategy_weights_nonbase all_stocks daw adj in
  let nav_final := nav_current (injection_result swa adj) in
  (dnonempty swa = true ->
     (forall s, In s all_stocks -> dget s swa = None -> 0 < nav_final ->
        dget s sw = Some (dget_or s 0 adj / nav_final))
     /\ (forall s info, dget s swa = Some info -> target_weight info < 1 ->
           dget s sw = Some (target_weight info))
     /\ (forall s info, dget s swa = Some info -> 1 <= target_weight info ->
           dget s sw = Some (dget_or s 0 adj)))
  /\ (dnonempty swa = false -> sw = adj).
Proof.
  intros all_stocks swa sw nav_final.
  assert (ND : NoDup all_stocks) by apply set_iter_NoDup.
  split.
  - intro NE. split; [|split].
    + intros s Hin Hnone Hnav.
      subst sw. rewrite (nonbase_not_overridden _ _ _ s NE Hin Hnone).
      fold swa. fold nav_final.
      now rewrite (proj2 (Qcltb_lt 0 nav_final) Hnav).
    + intros s info Hget Hlt.
      subst sw. rewrite (nonbase_overridden _ _ _ ND s info Hget).
      now rewrite (proj2 (accepted_lt info) Hlt).
    + intros s info Hget Hge.
      subst sw. rewrite (nonbase_overridden _ _ _ ND s info Hget).
      now rewrite (proj2 (accepted_ge info) Hge).
  - apply nonbase_no_active.
Qed.

Lemma emitted_weights_after_injection_witness :
  dget "Z" (strategy_weights_nonbase (set_iter ascending_order ["X"; "Z"])
              [("X", q 1 10)] [("X", q 2 10); ("Z", q 8 10)])
  = Some (dget_or "Z" 0 [("X", q 2 10); ("Z", q 8 10)]
          / nav_current
              (injection_result
                 (stocks_with_active_weight_of
                    (set_iter ascending_order ["X"; "Z"]) [("X", q 1 10)]
                    [("X", q 2 10); ("Z", q 8 10)])
                 [("X", q 2 10); ("Z", q 8 10)]))
  /\ dget "X" (strategy_weights_nonbase (set_iter ascending_order ["X"; "Z"])
                 [("X", q 1 10)] [("X", q 2 10); ("Z", q 8 10)])
     = Some (q 2 10 + q 1 10).
Proof.
  pose proof (emitted_weights_after_injection ascending_order ["X"; "Z"]
                [("X", q 1 10)] [("X", q 2 10); ("Z", q 8 10)]) as H.
  cbv zeta in H. destruct H as [H _].
  destruct (H eq_refl) as [H1 [H2 _]]. split.
  - apply H1; [simpl; auto | reflexivity | reflexivity].
  - apply (H2 "X" {| adjusted_weight := q 2 10;
                     target_weight := q 2 10 + q 1 10;
                     active_weight := q 1 10 |}).
    + vm_compute. qc_eq.
    + reflexivity.
Defined.

(* ================================================================== *)
(** * C3: an override whose target is at least 1 *)




(* ================================================================== *)
(** * C4: order of the injections *)

(** C4, as stated, fails: the injections follow the iteration order of the
    instrument set, which is not sorted.  When the set enumerates Y before X
    the injection runs Y first, and the outcome differs from the ascending
    one: Z is diluted to 21/58 instead of 21/59, so two runs over the same
    input that enumerate the set differently emit different series. *)
Lemma injection_order_is_set_order_and_changes_output :
  let adj : dict Qc := [("X", q 2 10); ("Y", q 3 10); ("Z", q 5 10)] in
  let daw : dict Qc := [("X", q 1 10); ("Y", q 1 10)] in
  let l := ["X"; "Y"; "Z"] in
  dkeys (stocks_with_active_weight_of (set_iter descending_order l) daw adj)
  = ["Y"; "X"]
  /\ option_map r_strategy_weight
       (find_row (fst (get_strategy_portfolio_weight_comparison
                         ascending_order T_two_overrides 1%Z)) 2%Z "Z")
     = Some (q 21 59)
  /\ option_map r_strategy_weight
       (find_row (fst (get_strategy_portfolio_weight_comparison
                         descending_order T_two_overrides 1%Z)) 2%Z "Z")
     = Some (q 21 58)
  /\ get_strategy_portfolio_weight_comparison ascending_order
       T_two_overrides 1%Z
     <> get_strategy_portfolio_weight_comparison descending_order
          T_two_overrides 1%Z.
Proof.
  assert (A : option_map r_strategy_weight
       (find_row (fst (get_strategy_portfolio_weight_comparison
                         ascending_order T_two_overrides 1%Z)) 2%Z "Z")
     = Some (q 21 59)) by (vm_compute; qc_eq).
  assert (D : option_map r_strategy_weight
       (find_row (fst (get_strategy_portfolio_weight_comparison
                         descending_order T_two_overrides 1%Z)) 2%Z "Z")
     = Some (q 21 58)) by (vm_compute; qc_eq).
  repeat split; try assumption; try reflexivity.
  intro H. rewrite H, D in A. inversion A.
Qed.

(** The engine depends on the set order only through the enumerations. *)
Section SameEnumeration.
Variables o1 o2 : SetOrder.
Hypothesis same : forall l, set_iter o1 l = set_iter o2 l.

Lemma process_date_same T base bp prev_date st d :
  process_date o1 T base bp prev_date st d
  = process_date o2 T base bp prev_date st d.
Proof.
  unfold process_date, strategy_weights_of. rewrite !same.
  destruct (d <? base)%Z; [reflexivity|].
  destruct (set_iter o2 _) as [|x xs]; [reflexivity|].
  destruct (query_prices T d (x :: xs)) as [dp dlp].
  now rewrite !same.
Qed.

Lemma run_dates_same T base bp prev_date dates st :
  run_dates o1 T base bp prev_date dates st
  = run_dates o2 T base bp prev_date dates st.
Proof.
  revert prev_date st.
  induction dates as [|d dates IH]; intros prev_date st; simpl; [reflexivity|].
  rewrite process_date_same.
  destruct (process_date o2 T base bp prev_date st d) as [[[st' rows] sm]|];
    now rewrite IH.
Qed.

Lemma comparison_same T base_date_obj :
  get_strategy_portfolio_weight_comparison o1 T base_date_obj
  = get_strategy_portfolio_weight_comparison o2 T base_date_obj.
Proof.
  unfold get_strategy_portfolio_weight_comparison.
  destruct (base_actual_date_of _ _); [|reflexivity].
  rewrite !same.
  destruct (set_iter o2 _); [reflexivity|].
  now rewrite run_dates_same.
Qed.
End SameEnumeration.

(** C4 (amended): the instruments with a positive resolved delta are
    injected one after the other in the order in which the instrument set of
    the date is enumerated (the code does not sort it); each injection solves
    against the NAV left by the injections before it; and two runs over the
    same input whose sets are enumerated identically produce identical
    output. *)
Theorem injections_sequential_in_set_order (ord : SetOrder) (l : list string)
    (daw adj : dict Qc) :
  let all_stocks := set_iter ord l in
  let swa := stocks_with_active_weight_of all_stocks daw adj in
  let init := {| nav_current := nav_old_of adj;
                 adjusted_weights_current := adj;
                 strategy_weights_acc := [] |} in
  dkeys swa
  = filter (fun s => Qcltb 0 (current_active_weight s daw)) all_stocks
  /\ (forall pre s info post, swa = pre ++ (s, info) :: post ->
        let st_pre := inject_all pre init in
        injection_result swa adj
        = inject_all post (inject_one st_pre (s, info))
        /\ (target_weight info < 1 ->
            nav_current (inject_one st_pre (s, info))
            = nav_current st_pre
              + additional_amount (target_weight info) (nav_current st_pre)
                  (dget_or s 0 adj)))
  /\ (forall (ord' : SetOrder) (T : Tables) (base_date_obj : Z),
        (forall l', set_iter ord l' = set_iter ord' l') ->
        get_strategy_portfolio_weight_comparison ord T base_date_obj
        = get_strategy_portfolio_weight_comparison ord' T base_date_obj).
Proof.
  intros all_stocks swa init.
  assert (ND : NoDup all_stocks) by apply set_iter_NoDup.
  split; [|split].
  - now apply swa_keys.
  - intros pre s info post E st_pre. split.
    + unfold injection_result. fold init. rewrite E.
      unfold inject_all. now rewrite fold_left_app.
    + intro Hlt. rewrite inject_one_accepted by now apply accepted_lt.
      do 2 f_equal.
      assert (N : ~ In s (dkeys pre)).
      { pose proof (swa_keys_NoDup all_stocks daw adj ND) as K.
        fold swa in K. rewrite E in K. unfold dkeys in K.
        rewrite map_app in K. simpl in K.
        apply NoDup_remove_2 in K. rewrite in_app_iff in K. tauto. }
      destruct (inject_all_other pre init s N) as [_ H].
      unfold dget_or. subst st_pre. now rewrite H.
  - intros ord' T b H. now apply comparison_same.
Qed.

Lemma injections_sequential_in_set_order_witness :
  let adj : dict Qc := [("X", q 2 10); ("Y", q 3 10); ("Z", q 5 10)] in
  let daw : dict Qc := [("X", q 1 10); ("Y", q 1 10)] in
  let init := {| nav_current := nav_old_of adj;
                 adjusted_weights_current := adj;
                 strategy_weights_acc := [] |} in
  let info_X := {| adjusted_weight := q 2 10;
                   target_weight := q 2 10 + q 1 10;
                   active_weight := q 1 10 |} in
  let info_Y := {| adjusted_weight := q 3 10;
                   target_weight := q 3 10 + q 1 10;
                   active_weight := q 1 10 |} in
  let st_pre := inject_all [("X", info_X)] init in
  nav_current init = 1
  /\ nav_current st_pre = q 8 7
  /\ injection_result
       (stocks_with_active_weight_of
          (set_iter ascending_order ["X"; "Y"; "Z"]) daw adj) adj
     = inject_all [] (inject_one st_pre ("Y", info_Y))
  /\ nav_current (inject_one st_pre ("Y", info_Y))
     = nav_current st_pre
       + additional_amount (target_weight info_Y) (nav_current st_pre)
           (dget_or "Y" 0 adj)
  /\ get_strategy_portfolio_weight_comparison ascending_order
       T_two_overrides 1%Z
     = get_strategy_portfolio_weight_comparison
         ascending_order_reversed_twice T_two_overrides 1%Z.
Proof.
  intros adj daw init info_X info_Y st_pre.
  pose proof (injections_sequential_in_set_order ascending_order
                ["X"; "Y"; "Z"] daw adj) as H.
  cbv zeta in H. destruct H as [_ [H2 H3]].
  assert (E : stocks_with_active_weight_of
                (set_iter ascending_order ["X"; "Y"; "Z"]) daw adj
              = [("X", info_X)] ++ ("Y", info_Y) :: [])
    by (vm_compute; qc_eq).
  destruct (H2 [("X", info_X)] "Y" info_Y [] E) as [K1 K2].
  split; [vm_compute; qc_eq|]. split; [vm_compute; qc_eq|].
  split; [exact K1|]. split.
  - apply K2. reflexivity.
  - apply H3. intro l'. symmetry. apply rev_involutive.
Defined.

(* ================================================================== *)
(** * C9: identifier reconciliation *)

Lemma match_loop_row_first_match stock_name items cur :
  match_loop_row stock_name (clean stock_name) items cur
  = first_match row_rule stock_name items cur.
Proof.
  unfold first_match.
  induction items as [|[mp v] items IH]; simpl; [reflexivity|].
  unfold row_rule, injection_rule, prefix_rule.
  destruct (String.eqb stock_name mp); simpl; [reflexivity|].
  destruct (String.eqb (clean stock_name) (clean mp)); simpl; [reflexivity|].
  destruct (nonempty (no_us (clean stock_name))
            && nonempty (no_us (clean mp))
            && String.eqb (no_us (clean stock_name)) (no_us (clean mp)));
    simpl; [reflexivity|].
  destruct (startswith (clean stock_name) (clean mp)
            || startswith (clean mp) (clean stock_name)); simpl;
    [reflexivity | exact IH].
Qed.

Lemma match_loop_injection_first_match stock_name items cur :
  match_loop_injection (clean stock_name) items cur
  = first_match injection_rule stock_name items cur.
Proof.
  unfold first_match.
  induction items as [|[mp v] items IH]; simpl; [reflexivity|].
  unfold injection_rule.
  destruct (String.eqb (clean stock_name) (clean mp)); simpl; [reflexivity|].
  destruct (nonempty (no_us (clean stock_name))
            && nonempty (no_us (clean mp))
            && String.eqb (no_us (clean stock_name)) (no_us (clean mp)));
    simpl; [reflexivity | exact IH].
Qed.

Lemma first_match_ext rule1 rule2 stock_name items cur :
  (forall mp v, In (mp, v) items -> rule1 stock_name mp = rule2 stock_name mp) ->
  first_match rule1 stock_name items cur = first_match rule2 stock_name items cur.
Proof.
  unfold first_match.
  induction items as [|[mp v] items IH]; simpl; intro H; [reflexivity|].
  rewrite (H mp v) by now left.
  destruct (rule2 stock_name mp); [reflexivity|].
  apply IH. intros mp' v' Hin. apply (H mp' v'). now right.
Qed.

Lemma first_match_none rule stock_name items cur :
  (forall mp v, In (mp, v) items -> rule stock_name mp = false) ->
  first_match rule stock_name items cur = cur.
Proof.
  unfold first_match.
  induction items as [|[mp v] items IH]; simpl; intro H; [reflexivity|].
  rewrite (H mp v) by now left.
  apply IH. intros mp' v' Hin. apply (H mp' v'). now right.
Qed.

Lemma row_rule_of_injection_rule stock_name mp :
  injection_rule stock_name mp = true -> row_rule stock_name mp = true.
Proof.
  unfold row_rule. intros ->. now rewrite orb_true_r.
Qed.

Lemma injection_rule_of_equal stock_name :
  injection_rule stock_name stock_name = true.
Proof. unfold injection_rule. now rewrite String.eqb_refl. Qed.

(** C9, as stated, fails on its third step: the code deletes every
    occurrence of "US" (and knows no other suffix), it does not strip a
    trailing token.  For the holding "USB US" and an override on "B US" none of
    the four steps of the specification matches (stripping the trailing token
    leaves USB and B), so the override should be absent for the holding; the
    code reduces both names to "B" and attaches the delta, in the injection
    step and on the output row alike. *)
Lemma us_removed_everywhere_not_as_suffix :
  SpecReconciler.resolve "B US" ["USB US"] = None
  /\ SpecReconciler.delta_of "USB US" ["USB US"] [("B US", q 1 100)] = 0
  /\ no_us (clean "USB US") = "B"
  /\ no_us (clean "B US") = "B"
  /\ current_active_weight "USB US" [("B US", q 1 100)] = q 1 100
  /\ row_active_weight "USB US" [("B US", q 1 100)] = q 1 100
  /\ current_active_weight "USB US" [("B US", q 1 100)]
     <> SpecReconciler.delta_of "USB US" ["USB US"] [("B US", q 1 100)].
Proof.
  repeat split; try reflexivity.
  apply Qceqb_neq. reflexivity.
Qed.

(** C9 (amended): the delta of a holding is the override stored under
    exactly its name when that delta is not zero; otherwise the override
    entries are scanned in insertion order and the first entry that matches
    gives the delta, an entry matching when the names are equal, or equal
    after removing spaces and upper-casing, or equal and non-empty after
    additionally deleting every "US", or - for the active weight reported on
    the output row - when one cleaned name is a prefix of the other.  The
    injection step resolves the same delta whenever no entry matches by
    prefix alone, and when no entry matches at all the delta is 0. *)
Theorem reconciliation_first_match_wins (stock_name : string)
    (date_active_weights : dict Qc) :
  (dget_or stock_name 0 date_active_weights <> 0 ->
     row_active_weight stock_name date_active_weights
     = dget_or stock_name 0 date_active_weights
     /\ current_active_weight stock_name date_active_weights
        = dget_or stock_name 0 date_active_weights)
  /\ (dget_or stock_name 0 date_active_weights = 0 ->
        row_active_weight stock_name date_active_weights
        = first_match row_rule stock_name date_active_weights 0)
  /\ ((forall mp v, In (mp, v) date_active_weights ->
         prefix_rule stock_name mp = true ->
         injection_rule stock_name mp = true) ->
        current_active_weight stock_name date_active_weights
        = row_active_weight stock_name date_active_weights)
  /\ ((forall mp v, In (mp, v) date_active_weights ->
         row_rule stock_name mp = false) ->
        row_active_weight stock_name date_active_weights = 0
        /\ current_active_weight stock_name date_active_weights = 0).
Proof.
  assert (R : Qceqb (dget_or stock_name 0 date_active_weights) 0 = true ->
              row_active_weight stock_name date_active_weights
              = first_match row_rule stock_name date_active_weights 0).
  { intro E. unfold row_active_weight. rewrite E. simpl.
    apply Qceqb_eq in E.
    destruct date_active_weights as [|x d]; [reflexivity|].
    cbn [dnonempty]. now rewrite match_loop_row_first_match, E. }
  assert (I : Qceqb (dget_or stock_name 0 date_active_weights) 0 = true ->
              current_active_weight stock_name date_active_weights
              = first_match injection_rule stock_name date_active_weights 0).
  { intro E. unfold current_active_weight. rewrite E. simpl.
    apply Qceqb_eq in E.
    destruct date_active_weights as [|x d]; [reflexivity|].
    cbn [dnonempty]. now rewrite match_loop_injection_first_match, E. }
  split; [|split; [|split]].
  - intro N. apply Qceqb_neq in N.
    unfold row_active_weight, current_active_weight. now rewrite N.
  - intro E. apply R. now apply Qceqb_eq.
  - intro H.
    destruct (Qceqb (dget_or stock_name 0 date_active_weights) 0) eqn:E.
    + rewrite R, I by reflexivity.
      apply first_match_ext. intros mp v Hin.
      unfold row_rule.
      destruct (injection_rule stock_name mp) eqn:J.
      * now rewrite orb_true_r.
      * destruct (prefix_rule stock_name mp) eqn:P.
        -- rewrite (H mp v Hin P) in J. discriminate.
        -- destruct (String.eqb stock_name mp) eqn:X; [|reflexivity].
           apply String.eqb_eq in X. subst mp.
           now rewrite injection_rule_of_equal in J.
    + unfold row_active_weight, current_active_weight. now rewrite E.
  - intro H.
    assert (Z0 : dget_or stock_name 0 date_active_weights = 0).
    { unfold dget_or.
      destruct (dget stock_name date_active_weights) as [v|] eqn:G;
        [|reflexivity].
      apply dget_Some_In in G. specialize (H _ _ G).
      unfold row_rule in H. now rewrite String.eqb_refl in H. }
    assert (E : Qceqb (dget_or stock_name 0 date_active_weights) 0 = true)
      by now apply Qceqb_eq.
    rewrite R, I by exact E. split.
    + now apply first_match_none.
    + apply first_match_none. intros mp v Hin.
      destruct (injection_rule stock_name mp) eqn:J; [|reflexivity].
      apply row_rule_of_injection_rule in J. now rewrite (H mp v Hin) in J.
Qed.

Lemma reconciliation_first_match_wins_witness :
  current_active_weight "NVDA US" [("META", q 2 100); ("NVDA", q 1 100)]
  = row_active_weight "NVDA US" [("META", q 2 100); ("NVDA", q 1 100)]
  /\ row_active_weight "AAPL US" [("META", q 2 100); ("NVDA", q 1 100)] = 0.
Proof.
  split.
  - refine (proj1 (proj2 (proj2
             (reconciliation_first_match_wins "NVDA US"
                [("META", q 2 100); ("NVDA", q 1 100)]))) _).
    intros mp v [H|[H|[]]] P; inversion H; subst; clear H.
    + discriminate P.
    + reflexivity.
  - refine (proj1 (proj2 (proj2 (proj2
             (reconciliation_first_match_wins "AAPL US"
                [("META", q 2 100); ("NVDA", q 1 100)]))) _)).
    intros mp v [H|[H|[]]]; inversion H; reflexivity.
Defined.

(* ================================================================== *)
(** * C10: the gate on the resolved delta *)

(** C10 at a failing input: the holding "005930 KS" has an override of
    delta 0 and matches the override "005930" by prefix only.  The injection
    step, which has no prefix test, resolves a delta of 0 for it: it is not
    injected and is diluted like any instrument without override
    (0.2 / (100/99) = 0.198).  The row loop, which has the prefix test, stops
    at the entry "005930" and reports the active_weight of the holding as
    0.01 instead of 0.0. *)
Lemma active_weight_reported_without_injection :
  let daw : dict Qc := [("005930", q 1 100); ("005930 KS", 0)] in
  let stocks := ["005930 KS"; "000660 KS"; "005930"] in
  let adj : dict Qc :=
    [("005930 KS", q 2 10); ("000660 KS", q 8 10); ("005930", 0)] in
  current_active_weight "005930 KS" daw = 0
  /\ row_active_weight "005930 KS" daw = q 1 100
  /\ dget "005930 KS" (stocks_with_active_weight_of stocks daw adj) = None
  /\ nav_current
       (injection_result (stocks_with_active_weight_of stocks daw adj) adj)
     = q 100 99
  /\ option_map (fun r => (r_strategy_weight r, r_active_weight r))
       (find_row (fst (get_strategy_portfolio_weight_comparison
                         ascending_order T_prefix_only 1%Z))
                 2%Z "005930 KS")
     = Some (q 198 1000, q 1 100).
Proof.
  repeat split; try reflexivity; vm_compute; qc_eq.
Qed.

(** The two gates taken separately do what C10 says: an instrument enters
    the injection exactly when the delta resolved by the injection step is
    strictly positive, and a row reports 0.0 exactly when the delta resolved
    by the row loop is not strictly positive. *)
Lemma gates_on_resolved_delta (ord : SetOrder) (l : list string)
    (daw adj : dict Qc) (s : string) :
  (dmem s (stocks_with_active_weight_of (set_iter ord l) daw adj) = true
   <-> In s (set_iter ord l) /\ 0 < current_active_weight s daw)
  /\ forall is_base d bp dp dlp bm sw,
       r_active_weight (make_row is_base d s bp dp dlp bm sw daw)
       = if Qcltb 0 (row_active_weight s daw) then row_active_weight s daw
         else 0.
Proof.
  split; [|reflexivity].
  unfold dmem. rewrite swa_get.
  destruct (existsb (String.eqb s) (set_iter ord l)) eqn:E; simpl.
  - apply existsb_eqb_In in E.
    destruct (Qcltb 0 (current_active_weight s daw)) eqn:P.
    + apply Qcltb_lt in P. tauto.
    + split; [discriminate|]. intros [_ H]. apply Qcltb_lt in H. congruence.
  - split; [discriminate|]. intros [H _]. apply existsb_eqb_In in H. congruence.
Qed.

(* ================================================================== *)
(** * Properties of the chained sector attribution *)

Lemma insert_date_bound y d l :
  (y < d)%Z -> Forall (Z.lt y) l -> Forall (Z.lt y) (insert_date d l).
Proof.
  intros Hd. induction l as [|x l IH]; simpl; intro F.
  - constructor; auto.
  - inversion F; subst.
    destruct (d <? x)%Z; [constructor; auto|].
    destruct (d =? x)%Z; [assumption|].
    constructor; auto.
Qed.

Lemma insert_date_sorted d l :
  StronglySorted Z.lt l -> StronglySorted Z.lt (insert_date d l).
Proof.
  induction l as [|x l IH]; simpl; intro S.
  - repeat constructor.
  - apply StronglySorted_inv in S. destruct S as [S F].
    destruct (d <? x)%Z eqn:L.
    + apply Z.ltb_lt in L. constructor.
      * now constructor.
      * constructor; [assumption|].
        eapply Forall_impl; [|exact F]. intros a Ha. simpl in Ha. lia.
    + destruct (d =? x)%Z eqn:E.
      * now constructor.
      * apply Z.ltb_ge in L. apply Z.eqb_neq in E.
        constructor; [auto|]. apply insert_date_bound; [lia | assumption].
Qed.

Lemma sorted_unique_sorted l : StronglySorted Z.lt (sorted_unique l).
Proof.
  induction l as [|d l IH]; simpl.
  - constructor.
  - now apply insert_date_sorted.
Qed.

Lemma total_nil g : total g [] = 0.
Proof. reflexivity. Qed.

Lemma total_app g a b : total g (a ++ b) = total g a + total g b.
Proof. unfold total. now rewrite filter_app, map_app, sum_app. Qed.

Lemma total_one g r :
  total g [r]
  = if String.eqb (sr_gics_name r) g then sr_daily_contribution r else 0.
Proof.
  unfold total. simpl. destruct (String.eqb _ g); [|reflexivity].
  simpl. rewrite sum_cons. unfold sum. simpl. ring.
Qed.

Lemma RunningFrom_nil pre : RunningFrom pre [].
Proof. intros p r post H. destruct p; discriminate. Qed.

Lemma RunningFrom_app pre rows1 rows2 :
  RunningFrom pre rows1 -> RunningFrom (pre ++ rows1) rows2 ->
  RunningFrom pre (rows1 ++ rows2).
Proof.
  intros H1 H2 p r post E.
  apply app_eq_app in E. destruct E as [l [[E1 E2] | [E1 E2]]].
  - destruct l as [|r' l].
    + simpl in E2. rewrite app_nil_r in E1. subst p.
      rewrite (H2 [] r post (eq_sym E2)). now rewrite <- app_assoc.
    + simpl in E2. inversion E2; subst r'. apply (H1 p r l E1).
  - subst p. rewrite (H2 l r post E2). now rewrite <- !app_assoc.
Qed.

Lemma RunningFrom_one pre r :
  sr_cumulative_contribution r = total (sr_gics_name r) (pre ++ [r]) ->
  RunningFrom pre [r].
Proof.
  intros H p r' post E.
  destruct p as [|x p]; simpl in E.
  - inversion E; subst. exact H.
  - inversion E. destruct p; discriminate.
Qed.

Lemma emit_sector_rows_fields date items cum r :
  In r (fst (emit_sector_rows date items cum)) ->
  sr_dt r = date
  /\ In (sr_gics_name r, sr_daily_contribution r) items.
Proof.
  revert cum. induction items as [|[g v] items IH]; intro cum; simpl.
  - contradiction.
  - destruct (emit_sector_rows date items _) as [rows cum'] eqn:E.
    simpl. intros [H|H].
    + subst r. simpl. auto.
    + match type of E with
      | emit_sector_rows _ _ ?c = _ => pose proof (IH c) as K
      end.
      rewrite E in K. destruct (K H). auto.
Qed.

Lemma emit_sector_rows_keys date items cum :
  map sr_gics_name (fst (emit_sector_rows date items cum)) = map fst items.
Proof.
  revert cum. induction items as [|[g v] items IH]; intro cum; simpl.
  - reflexivity.
  - destruct (emit_sector_rows date items _) as [rows cum'] eqn:E.
    simpl. f_equal.
    match type of E with
    | emit_sector_rows _ _ ?c = _ => pose proof (IH c) as K
    end.
    now rewrite E in K.
Qed.

Lemma emit_sector_rows_running date items cum pre :
  Accumulated cum pre ->
  RunningFrom pre (fst (emit_sector_rows date items cum))
  /\ Accumulated (snd (emit_sector_rows date items cum))
       (pre ++ fst (emit_sector_rows date items cum)).
Proof.
  revert cum pre.
  induction items as [|[g v] items IH]; intros cum pre A; simpl.
  - split; [apply RunningFrom_nil | now rewrite app_nil_r].
  - set (cum0 := if dmem g cum then cum else dset g 0 cum).
    set (cum1 := dset g (dget_or g 0 cum0 + v) cum0).
    set (r := {| sr_dt := date; sr_gics_name := g;
                 sr_daily_contribution := v;
                 sr_cumulative_contribution := dget_or g 0 cum1 |}).
    assert (G0 : forall g', dget_or g' 0 cum0 = dget_or g' 0 cum).
    { intro g'. subst cum0. unfold dmem.
      destruct (dget g cum) eqn:E; [reflexivity|].
      destruct (string_dec g' g) as [->|N].
      - rewrite dget_or_dset_eq. unfold dget_or. now rewrite E.
      - now rewrite dget_or_dset_neq. }
    assert (A1 : Accumulated cum1 (pre ++ [r])).
    { intro g'. rewrite total_app, total_one. simpl. subst cum1.
      destruct (string_dec g' g) as [->|N].
      - rewrite dget_or_dset_eq, String.eqb_refl, G0. now rewrite A.
      - rewrite dget_or_dset_neq by exact N. rewrite G0, A.
        assert (E : String.eqb g g' = false)
          by (apply String.eqb_neq; congruence).
        rewrite E. ring. }
    destruct (IH cum1 (pre ++ [r]) A1) as [R2 A2].
    destruct (emit_sector_rows date items cum1) as [rows cum'] eqn:E.
    simpl in *. split.
    + change (r :: rows) with ([r] ++ rows).
      apply RunningFrom_app; [|exact R2].
      apply RunningFrom_one. simpl. apply A1.
    + now rewrite <- app_assoc in A2.
Qed.

Lemma reset_sectors_zero sectors cum :
  (forall g, dget_or g 0 cum = 0) ->
  forall g, dget_or g 0 (reset_sectors sectors cum) = 0.
Proof.
  intros Z0 g. unfold reset_sectors, dget_or.
  rewrite (dget_fold_cond _ (fun _ => true) (fun _ => 0)) by reflexivity.
  destruct (existsb _ sectors); simpl; [reflexivity | apply Z0].
Qed.

Lemma total_zero_rows g date sectors :
  total g (map (fun s => {| sr_dt := date; sr_gics_name := s;
                            sr_daily_contribution := 0;
                            sr_cumulative_contribution := 0 |}) sectors) = 0.
Proof.
  induction sectors as [|s sectors IH]; [reflexivity|].
  simpl map. change (?x :: ?l) with ([x] ++ l).
  rewrite total_app, IH, total_one. simpl. now destruct (String.eqb s g).
Qed.

Lemma RunningFrom_zero_rows date sectors :
  RunningFrom [] (map (fun s => {| sr_dt := date; sr_gics_name := s;
                                   sr_daily_contribution := 0;
                                   sr_cumulative_contribution := 0 |})
                      sectors).
Proof.
  intros p r post E. simpl.
  assert (In r (map (fun s => {| sr_dt := date; sr_gics_name := s;
                                 sr_daily_contribution := 0;
                                 sr_cumulative_contribution := 0 |}) sectors)).
  { rewrite E. apply in_or_app. right. now left. }
  apply in_map_iff in H. destruct H as [s [<- _]]. simpl.
  apply map_eq_app in E. destruct E as [l1 [l2 [_ [E1 E2]]]].
  destruct l2 as [|s2 l2]; [discriminate|]. simpl in E2. inversion E2.
  rewrite total_app. rewrite <- E1, total_zero_rows, total_one. simpl.
  destruct (String.eqb s s); ring.
Qed.

Lemma sector_step_running df start st date pre :
  Accumulated (sector_cumulative_contribution st) pre ->
  (pre = [] \/ (sec_prev_date st <> None /\ (start < date)%Z)) ->
  (start <= date)%Z ->
  RunningFrom pre (snd (sector_step df start st date))
  /\ Accumulated
       (sector_cumulative_contribution (fst (sector_step df start st date)))
       (pre ++ snd (sector_step df start st date))
  /\ (pre ++ snd (sector_step df start st date) = []
      \/ (sec_prev_date (fst (sector_step df start st date)) <> None
          /\ (start < date)%Z)).
Proof.
  intros A C Hle. unfold sector_step.
  destruct (date =? start)%Z eqn:E.
  - apply Z.eqb_eq in E. subst date.
    assert (P : pre = []) by (destruct C as [P|[_ L]]; [exact P | lia]).
    subst pre.
    destruct (date_data df start) as [|x xs];
      cbn [fst snd app sector_cumulative_contribution sec_prev_date].
    + repeat split; auto using RunningFrom_nil.
    + repeat split; auto using RunningFrom_nil.
      intro g. rewrite total_nil. apply reset_sectors_zero.
      intro g'. now rewrite A.
  - apply Z.eqb_neq in E. assert (L : (start < date)%Z) by lia.
    assert (Skip :
      RunningFrom pre []
      /\ Accumulated (sector_cumulative_contribution st) (pre ++ [])
      /\ (pre ++ [] = [] \/ (Some date <> None /\ (start < date)%Z))).
    { rewrite app_nil_r. repeat split; auto using RunningFrom_nil.
      right. split; [discriminate | exact L]. }
    destruct (date_data df date) as [|x xs] eqn:D; [exact Skip|].
    destruct (sec_prev_date st) as [prev_date|] eqn:Pd.
    + destruct (date_data df prev_date) as [|y ys] eqn:Dp; [exact Skip|].
      destruct (emit_sector_rows_running date
                  (sector_contributions_of
                     (merge_on_stock_name (y :: ys) (x :: xs)))
                  (sector_cumulative_contribution st) pre A) as [R A'].
      destruct (emit_sector_rows date _ _) as [rows cum'].
      simpl in *. repeat split; auto.
      right. split; [discriminate | exact L].
    + assert (P : pre = []) by (destruct C as [P|[N _]]; [exact P | congruence]).
      subst pre.
      cbn [fst snd app sector_cumulative_contribution sec_prev_date].
      repeat split.
      * apply RunningFrom_zero_rows.
      * intro g. rewrite total_zero_rows. apply reset_sectors_zero.
        intro g'. now rewrite A.
      * right. split; [discriminate | exact L].
Qed.

Lemma sector_loop_running df start final dates :
  StronglySorted Z.lt dates ->
  forall st pre,
  Accumulated (sector_cumulative_contribution st) pre ->
  (pre = [] \/ (sec_prev_date st <> None /\ Forall (Z.lt start) dates)) ->
  RunningFrom pre (fst (sector_loop df start final dates st))
  /\ Accumulated
       (sector_cumulative_contribution
          (snd (sector_loop df start final dates st)))
       (pre ++ fst (sector_loop df start final dates st)).
Proof.
  induction 1 as [|date rest S IH F]; intros st pre A C; simpl.
  - rewrite app_nil_r. split; [apply RunningFrom_nil | exact A].
  - destruct (date <? start)%Z eqn:L.
    + apply IH; [exact A|].
      destruct C as [P|[N Fa]]; [now left|].
      right. split; [exact N|]. now inversion Fa.
    + apply Z.ltb_ge in L.
      destruct (final <? date)%Z.
      * simpl. rewrite app_nil_r. split; [apply RunningFrom_nil | exact A].
      * assert (C1 : pre = [] \/ (sec_prev_date st <> None /\ (start < date)%Z)).
        { destruct C as [P|[N Fa]]; [now left|].
          right. split; [exact N|]. now inversion Fa. }
        destruct (sector_step_running df start st date pre A C1 L)
          as [R1 [A1 C2]].
        destruct (sector_step df start st date) as [st' rows]. simpl in *.
        assert (C3 : pre ++ rows = []
                     \/ (sec_prev_date st' <> None /\ Forall (Z.lt start) rest)).
        { destruct C2 as [P|[N Ls]]; [now left|].
          right. split; [exact N|].
          eapply Forall_impl; [|exact F]. intros a Ha. simpl in Ha. lia. }
        destruct (IH st' (pre ++ rows) A1 C3) as [R2 A2].
        destruct (sector_loop df start final rest st') as [more st_end].
        simpl in *. split.
        -- now apply RunningFrom_app.
        -- now rewrite app_assoc.
Qed.

(** ** Dates and keys of the emitted rows *)

Lemma sum_perm (l l' : list Qc) : Permutation l l' -> sum l = sum l'.
Proof.
  induction 1 as [|x l l' P IH|x y l|l l' l'' P1 IH1 P2 IH2].
  - reflexivity.
  - now rewrite !sum_cons, IH.
  - rewrite !sum_cons. ring.
  - congruence.
Qed.

Lemma NoDup_app_disjoint {A} (l1 l2 : list A) :
  NoDup l1 -> NoDup l2 -> (forall x, In x l1 -> ~ In x l2) ->
  NoDup (l1 ++ l2).
Proof.
  induction l1 as [|x l1 IH]; intros N1 N2 D; [exact N2|].
  inversion N1 as [|? ? Hx N1']; subst. simpl. constructor.
  - rewrite in_app_iff. intros [H|H]; [contradiction|].
    exact (D x (or_introl eq_refl) H).
  - apply IH; auto. intros y Hy. apply D. now right.
Qed.

Lemma emit_sector_rows_daily date items cum :
  map sr_daily_contribution (fst (emit_sector_rows date items cum))
  = map snd items.
Proof.
  revert cum. induction items as [|[g v] items IH]; intro cum; simpl.
  - reflexivity.
  - destruct (emit_sector_rows date items _) as [rows cum'] eqn:E.
    simpl. f_equal.
    match type of E with
    | emit_sector_rows _ _ ?c = _ => pose proof (IH c) as K
    end.
    now rewrite E in K.
Qed.

Lemma sector_step_rows df start st date :
  (forall r, In r (snd (sector_step df start st date)) ->
     sr_dt r = date /\ date <> start)
  /\ NoDup (map sr_gics_name (snd (sector_step df start st date))).
Proof.
  unfold sector_step.
  destruct (date =? start)%Z eqn:E.
  { destruct (date_data df date); cbn [snd]; split;
      try (intros r []); constructor. }
  apply Z.eqb_neq in E.
  destruct (date_data df date) as [|c cs] eqn:C;
    [cbn [snd]; split; [intros r []|constructor]|].
  destruct (sec_prev_date st) as [prev|].
  - destruct (date_data df prev) as [|p ps] eqn:P;
      [cbn [snd]; split; [intros r []|constructor]|].
    destruct (emit_sector_rows date _ _) as [rows cum'] eqn:R.
    cbn [snd].
    match type of R with
    | emit_sector_rows _ ?items ?c = _ =>
        pose proof (emit_sector_rows_fields date items c) as F;
        pose proof (emit_sector_rows_keys date items c) as K
    end.
    rewrite R in F, K. cbn [fst] in F, K. split.
    + intros r Hr. split; [apply (F r Hr)|exact E].
    + rewrite K. unfold sector_contributions_of. rewrite map_map.
      cbn [fst]. rewrite map_id.
      eapply Permutation_NoDup; [symmetry; apply sort_by_perm|].
      apply first_occurrences_NoDup.
  - cbn [snd]. split.
    + intros r Hr. apply in_map_iff in Hr. destruct Hr as [g [<- _]].
      split; [reflexivity|exact E].
    + rewrite map_map. cbn [sr_gics_name]. rewrite map_id.
      apply first_occurrences_NoDup.
Qed.

Lemma sector_loop_rows df start final dates :
  StronglySorted Z.lt dates ->
  forall st,
  (forall r, In r (fst (sector_loop df start final dates st)) ->
     In (sr_dt r) dates /\ (start < sr_dt r <= final)%Z)
  /\ NoDup (map (fun r => (sr_dt r, sr_gics_name r))
              (fst (sector_loop df start final dates st))).
Proof.
  induction 1 as [|d dates S IH F]; intro st; cbn [sector_loop].
  - cbn [fst]. split; [intros r []|constructor].
  - destruct (d <? start)%Z eqn:L1.
    { destruct (IH st) as [A B]. split; [|exact B].
      intros r Hr. destruct (A r Hr). split; [now right|assumption]. }
    destruct (final <? d)%Z eqn:L2;
      [cbn [fst]; split; [intros r []|constructor]|].
    apply Z.ltb_ge in L1, L2.
    destruct (sector_step_rows df start st d) as [A1 B1].
    destruct (sector_step df start st d) as [st' rows].
    cbn [snd] in A1, B1.
    destruct (IH st') as [A2 B2].
    destruct (sector_loop df start final dates st') as [more st_end].
    cbn [fst] in *. split.
    + intros r Hr. apply in_app_or in Hr. destruct Hr as [Hr|Hr].
      * destruct (A1 r Hr) as [-> N]. split; [now left|lia].
      * destruct (A2 r Hr). split; [now right|assumption].
    + rewrite map_app. apply NoDup_app_disjoint.
      * assert (G : forall l : list SectorRow,
                   (forall r, In r l -> sr_dt r = d) ->
                   NoDup (map sr_gics_name l) ->
                   NoDup (map (fun r => (sr_dt r, sr_gics_name r)) l)).
        { induction l as [|x l IHl]; intros Hd Hn; [constructor|].
          simpl in *. inversion Hn as [|? ? Hx Hn']; subst. constructor.
          - intro H. apply Hx. apply in_map_iff in H.
            destruct H as [y [Ey Hy]]. inversion Ey.
            apply in_map_iff. now exists y.
          - apply IHl; auto. }
        apply G; [intros r Hr; apply (A1 r Hr)|exact B1].
      * exact B2.
      * intros [dt g] H1 H2. apply in_map_iff in H1, H2.
        destruct H1 as [r1 [E1 H1]]. destruct H2 as [r2 [E2 H2]].
        inversion E1; subst. inversion E2 as [[Ed Eg]].
        destruct (A1 r1 H1) as [D1 _]. destruct (A2 r2 H2) as [D2 _].
        rewrite Forall_forall in F. specialize (F _ D2). lia.
Qed.

(** ** The rows of a date chained to the date before it *)

Lemma emit_sector_rows_items date items cum :
  map (fun r => (sr_gics_name r, sr_daily_contribution r))
      (fst (emit_sector_rows date items cum))
  = items.
Proof.
  revert cum. induction items as [|[g v] items IH]; intro cum; simpl.
  - reflexivity.
  - destruct (emit_sector_rows date items _) as [rows cum'] eqn:E.
    simpl. f_equal.
    match type of E with
    | emit_sector_rows _ _ ?c = _ => pose proof (IH c) as K
    end.
    now rewrite E in K.
Qed.

Lemma sector_loop_app df start final l1 l2 st :
  (forall x, In x l1 -> (x <= final)%Z) ->
  sector_loop df start final (l1 ++ l2) st
  = (fst (sector_loop df start final l1 st)
     ++ fst (sector_loop df start final l2
               (snd (sector_loop df start final l1 st))),
     snd (sector_loop df start final l2
            (snd (sector_loop df start final l1 st)))).
Proof.
  revert st. induction l1 as [|x l1 IH]; intros st H.
  - cbn [app sector_loop fst snd].
    now destruct (sector_loop df start final l2 st).
  - cbn [app sector_loop].
    destruct (x <? start)%Z; [apply IH; intros y Hy; apply H; now right|].
    destruct (final <? x)%Z eqn:L.
    { apply Z.ltb_lt in L. specialize (H x (or_introl eq_refl)). lia. }
    destruct (sector_step df start st x) as [st' rows].
    rewrite IH by (intros y Hy; apply H; now right).
    destruct (sector_loop df start final l1 st') as [more st1].
    cbn [fst snd]. now rewrite app_assoc.
Qed.

Lemma filter_none {A} (f : A -> bool) (l : list A) :
  (forall x, In x l -> f x = false) -> filter f l = [].
Proof.
  induction l as [|x l IH]; intro H; [reflexivity|].
  simpl. rewrite (H x (or_introl eq_refl)). apply IH.
  intros y Hy. apply H. now right.
Qed.

Lemma filter_all {A} (p : A -> bool) (l : list A) :
  (forall x, In x l -> p x = true) -> filter p l = l.
Proof.
  induction l as [|x l IH]; intro H; [reflexivity|].
  simpl. rewrite (H x (or_introl eq_refl)). f_equal.
  apply IH. intros y Hy. apply H. now right.
Qed.

(** In the loop, the state that reaches a date holds the date just before it
    in the list, and the rows emitted for the date are those of the merge
    of the two dates. *)
Lemma sector_loop_adjacent df start final before p d after st :
  StronglySorted Z.lt (before ++ p :: d :: after) ->
  (start <= p)%Z -> (d <= final)%Z ->
  date_data df p <> [] -> date_data df d <> [] ->
  exists cum,
    filter (fun r => (sr_dt r =? d)%Z)
      (fst (sector_loop df start final (before ++ p :: d :: after) st))
    = fst (emit_sector_rows d
             (sector_contributions_of
                (merge_on_stock_name (date_data df p) (date_data df d)))
             cum).
Proof.
  intros S Hp Hd Dp Dd.
  assert (Sb : StronglySorted Z.lt before /\ StronglySorted Z.lt (p :: d :: after)
               /\ forall x, In x before -> (x < p)%Z).
  { clear -S. induction before as [|b before IH]; simpl in S.
    - split; [constructor|]. split; [exact S|]. intros x [].
    - apply StronglySorted_inv in S. destruct S as [S F].
      destruct (IH S) as [S1 [S2 L]]. split; [|split; [exact S2|]].
      + constructor; [exact S1|].
        apply Forall_forall. intros x Hx. rewrite Forall_forall in F.
        apply F. apply in_or_app. now left.
      + intros x [<-|Hx]; [|now apply L].
        rewrite Forall_forall in F. apply F. apply in_or_app. right.
        now left. }
  destruct Sb as [S1 [S2 Lb]].
  apply StronglySorted_inv in S2. destruct S2 as [S2 F2].
  apply StronglySorted_inv in S2. destruct S2 as [S3 F3].
  assert (Lpd : (p < d)%Z) by (inversion F2; assumption).
  rewrite sector_loop_app by (intros x Hx; specialize (Lb x Hx); lia).
  cbn [fst]. set (st0 := snd (sector_loop df start final before st)).
  destruct (sector_loop_rows df start final before S1 st) as [Rb _].
  rewrite filter_app.
  rewrite (filter_none _ (fst (sector_loop df start final before st))).
  2:{ intros r Hr. destruct (Rb r Hr) as [Hin _]. specialize (Lb _ Hin).
      apply Z.eqb_neq. lia. }
  cbn [app sector_loop].
  destruct (p <? start)%Z eqn:L1; [apply Z.ltb_lt in L1; lia|].
  destruct (final <? p)%Z eqn:L2; [apply Z.ltb_lt in L2; lia|].
  destruct (sector_step_rows df start st0 p) as [Rp _].
  assert (Pp : sec_prev_date (fst (sector_step df start st0 p)) = Some p).
  { unfold sector_step. destruct (p =? start)%Z.
    - destruct (date_data df p); [congruence|reflexivity].
    - destruct (date_data df p); [reflexivity|].
      destruct (sec_prev_date st0); [|reflexivity].
      destruct (date_data df z); [reflexivity|].
      now destruct (emit_sector_rows p _ _). }
  destruct (sector_step df start st0 p) as [stp rows_p].
  cbn [fst snd] in Rp, Pp.
  destruct (d <? start)%Z eqn:L3; [apply Z.ltb_lt in L3; lia|].
  destruct (final <? d)%Z eqn:L4; [apply Z.ltb_lt in L4; lia|].
  destruct (sector_step_rows df start stp d) as [Rd _].
  assert (Ed : snd (sector_step df start stp d)
               = fst (emit_sector_rows d
                        (sector_contributions_of
                           (merge_on_stock_name (date_data df p)
                              (date_data df d)))
                        (sector_cumulative_contribution stp))).
  { unfold sector_step. rewrite Pp.
    destruct (d =? start)%Z eqn:E; [apply Z.eqb_eq in E; lia|].
    destruct (date_data df d) as [|c cs]; [congruence|].
    destruct (date_data df p) as [|y ys]; [congruence|].
    now destruct (emit_sector_rows d _ _). }
  destruct (sector_step df start stp d) as [std rows_d].
  cbn [fst snd] in Rd, Ed.
  destruct (sector_loop_rows df start final after S3 std) as [Ra _].
  destruct (sector_loop df start final after std) as [more st_end].
  cbn [fst] in *.
  exists (sector_cumulative_contribution stp).
  rewrite !filter_app.
  rewrite (filter_none _ rows_p), (filter_all _ rows_d), (filter_none _ more).
  - rewrite app_nil_r. exact Ed.
  - intros r Hr. destruct (Ra r Hr) as [Hin _].
    rewrite Forall_forall in F3. specialize (F3 _ Hin).
    apply Z.eqb_neq. lia.
  - intros r Hr. destruct (Rd r Hr) as [-> _]. apply Z.eqb_refl.
  - intros r Hr. destruct (Rp r Hr) as [-> _]. apply Z.eqb_neq. lia.
Qed.

(** ** The emitted rows in date order *)

Lemma filter_perm {A} (f : A -> bool) (l l' : list A) :
  Permutation l l' -> Permutation (filter f l) (filter f l').
Proof.
  induction 1 as [|x l l' P IH|x y l|l l' l'' P1 IH1 P2 IH2]; simpl.
  - constructor.
  - destruct (f x); [now constructor|exact IH].
  - destruct (f x), (f y); try reflexivity. apply perm_swap.
  - now transitivity (filter f l').
Qed.

Lemma total_perm g l l' : Permutation l l' -> total g l = total g l'.
Proof.
  intro P. unfold total. apply sum_perm, Permutation_map, filter_perm, P.
Qed.

Lemma total_to_perm g d l l' :
  Permutation l l' -> total_to g d l = total_to g d l'.
Proof.
  intro P. unfold total_to. apply sum_perm, Permutation_map, filter_perm, P.
Qed.

Lemma StronglySorted_app {A} (R : A -> A -> Prop) l1 l2 :
  StronglySorted R l1 -> StronglySorted R l2 ->
  (forall a b, In a l1 -> In b l2 -> R a b) ->
  StronglySorted R (l1 ++ l2).
Proof.
  induction 1 as [|x l1 S IH F]; intros S2 H; [exact S2|].
  simpl. constructor.
  - apply IH; [exact S2|]. intros a b Ha Hb. apply H; [now right|exact Hb].
  - apply Forall_app. split; [exact F|].
    apply Forall_forall. intros b Hb. apply H; [now left|exact Hb].
Qed.

Lemma StronglySorted_split {A} (R : A -> A -> Prop) p r post :
  StronglySorted R (p ++ r :: post) ->
  (forall a, In a p -> R a r) /\ (forall b, In b post -> R r b).
Proof.
  induction p as [|x p IH]; simpl; intro S.
  - apply StronglySorted_inv in S. destruct S as [_ F].
    rewrite Forall_forall in F. split; [intros a []|exact F].
  - apply StronglySorted_inv in S. destruct S as [S F].
    destruct (IH S) as [H1 H2]. split; [|exact H2].
    intros a [<-|Ha]; [|now apply H1].
    rewrite Forall_forall in F. apply F. apply in_or_app. right. now left.
Qed.

(** The loop appends the rows date after date. *)
Lemma sector_loop_ascending df start final dates :
  StronglySorted Z.lt dates ->
  forall st,
  StronglySorted (fun a b => (sr_dt a <= sr_dt b)%Z)
    (fst (sector_loop df start final dates st)).
Proof.
  induction 1 as [|d dates S IH F]; intro st; cbn [sector_loop].
  - constructor.
  - destruct (d <? start)%Z; [apply IH|].
    destruct (final <? d)%Z; [constructor|].
    destruct (sector_step_rows df start st d) as [A1 _].
    destruct (sector_step df start st d) as [st' rows]. cbn [snd] in A1.
    pose proof (IH st') as S2.
    destruct (sector_loop_rows df start final dates S st') as [A2 _].
    destruct (sector_loop df start final dates st') as [more st_end].
    cbn [fst] in *.
    apply StronglySorted_app.
    + clear -A1. induction rows as [|x rows IHr]; constructor.
      * apply IHr. intros r Hr. apply A1. now right.
      * apply Forall_forall. intros y Hy.
        destruct (A1 x (or_introl eq_refl)) as [-> _].
        destruct (A1 y (or_intror Hy)) as [-> _]. lia.
    + exact S2.
    + intros a b Ha Hb. destruct (A1 a Ha) as [-> _].
      destruct (A2 b Hb) as [Hin _].
      rewrite Forall_forall in F. specialize (F _ Hin). lia.
Qed.

(** In a list of rows in date order with one row per date and sector, the
    rows of a sector up to a row are the rows of the sector dated no later
    than it. *)
Lemma running_sum_by_date rows :
  StronglySorted (fun a b => (sr_dt a <= sr_dt b)%Z) rows ->
  NoDup (map (fun r => (sr_dt r, sr_gics_name r)) rows) ->
  forall p r post, rows = p ++ r :: post ->
  total_to (sr_gics_name r) (sr_dt r) rows = total (sr_gics_name r) (p ++ [r]).
Proof.
  intros S N p r post ->.
  destruct (StronglySorted_split _ _ _ _ S) as [Hp Hpost].
  unfold total_to, total. f_equal. f_equal.
  rewrite !filter_app. f_equal.
  - apply filter_ext_in. intros a Ha. specialize (Hp a Ha).
    apply Z.leb_le in Hp. rewrite Hp. apply andb_true_r.
  - cbn [filter]. rewrite String.eqb_refl, Z.leb_refl. cbn [andb].
    f_equal. apply filter_none. intros b Hb.
    destruct (String.eqb (sr_gics_name b) (sr_gics_name r)) eqn:E;
      [|reflexivity].
    cbn [andb]. apply Z.leb_gt. specialize (Hpost b Hb).
    assert (D : sr_dt b <> sr_dt r).
    { intro D. apply String.eqb_eq in E.
      rewrite map_app in N. cbn [map] in N. apply NoDup_remove_2 in N.
      apply N. apply in_or_app. right. apply in_map_iff.
      exists b. split; [congruence|exact Hb]. }
    lia.
Qed.

(* ================================================================== *)
(** * C8: chained sector attribution *)

(** C8, as stated, fails: the code multiplies the daily return by 100.  From
    date 1 to date 2 the only Tech instrument goes from 100 to 110 with
    weight 0.5 on date 1: the frame reports 5 for Tech on date 2, whereas
    daily return times previous weight is 0.1 * 0.5 = 0.05. *)
Lemma daily_sector_contribution_is_in_percent :
  let out := get_daily_sector_contributions sector_example 1%Z 3%Z in
  let contribution_df :=
    merge_on_stock_name (date_data sector_example 1%Z)
      (date_data sector_example 2%Z) in
  option_map sr_daily_contribution
    (find (fun r => (sr_dt r =? 2)%Z && String.eqb (sr_gics_name r) "Tech")
          out)
  = Some (q 5 1)
  /\ sum (map (fun m => (m_current_price m / m_prev_price m - 1)
                        * m_prev_weight m)
              (filter (fun m => String.eqb (m_gics_name m) "Tech")
                      contribution_df))
     = q 1 20
  /\ q 5 1 <> q 1 20.
Proof.
  repeat split; try (vm_compute; qc_eq).
  apply Qceqb_neq. reflexivity.
Qed.

(** C8 (amended): take a date t of the frame, not after the final date, and
    the date t-1 that precedes it among the dates of the frame, not before
    the start date, both with valid rows.  The rows the function returns for
    t are one row per sector that has an instrument with a valid row on both
    dates (such a sector does get its row), and the daily contribution of
    the row is the sum, over those instruments of the sector, of the daily
    return in percent, (price(t) - price(t-1)) / price(t-1) * 100, times the
    weight on t-1.
    Every returned row is dated after the start date and not after the final
    date, so the series starts from zero on the first date of the window;
    the cumulative contribution of every returned row is the sum of the
    daily contributions of its sector over the returned rows dated no later
    than it; the accumulators the loop ends with are the sums of all daily
    contributions returned, and so is the cumulative contribution of a row
    that no row of its sector follows in date. *)
Theorem chained_sector_attribution (performance_df : list PerfRow)
    (start_date_obj final_date_obj : Z) :
  let df := sort_by perf_leb performance_df in
  let dates := sorted_unique (map p_dt df) in
  let out :=
    get_daily_sector_contributions performance_df start_date_obj
      final_date_obj in
  let st_end :=
    snd (daily_contributions_of performance_df start_date_obj
           final_date_obj) in
  (forall before prev_date date after,
     dates = before ++ prev_date :: date :: after ->
     (start_date_obj <= prev_date)%Z -> (date <= final_date_obj)%Z ->
     date_data df prev_date <> [] -> date_data df date <> [] ->
     let contribution_df :=
       merge_on_stock_name (date_data df prev_date) (date_data df date) in
     Permutation
       (map (fun r => (sr_gics_name r, sr_daily_contribution r))
          (filter (fun r => (sr_dt r =? date)%Z) out))
       (map (fun g =>
               (g, sum (map (fun m =>
                               ((m_current_price m - m_prev_price m)
                                / m_prev_price m * q 100 1)
                               * m_prev_weight m)
                          (filter (fun m => String.eqb (m_gics_name m) g)
                                  contribution_df))))
          (sort_by String.leb (unique (map m_gics_name contribution_df))))
     /\ (forall m, In m contribution_df ->
           exists r, In r out /\ sr_dt r = date
                     /\ sr_gics_name r = m_gics_name m))
  /\ (forall r, In r out ->
        (start_date_obj < sr_dt r <= final_date_obj)%Z
        /\ sr_cumulative_contribution r
           = total_to (sr_gics_name r) (sr_dt r) out
        /\ ((forall r', In r' out -> sr_gics_name r' = sr_gics_name r ->
               (sr_dt r' <= sr_dt r)%Z) ->
            sr_cumulative_contribution r = total (sr_gics_name r) out))
  /\ (forall g,
        dget_or g 0 (sector_cumulative_contribution st_end) = total g out).
Proof.
  cbv zeta. unfold get_daily_sector_contributions, daily_contributions_of.
  set (df := sort_by perf_leb performance_df).
  set (dates := sorted_unique (map p_dt df)).
  set (st0 := {| sec_prev_date := None;
                 sector_cumulative_contribution := [] |}).
  pose proof (sorted_unique_sorted (map p_dt df)) as S. fold dates in S.
  set (rows := fst (sector_loop df start_date_obj final_date_obj dates st0)).
  assert (P : Permutation (sort_by sector_row_leb rows) rows)
    by apply sort_by_perm.
  destruct (sector_loop_rows df start_date_obj final_date_obj dates S st0)
    as [W N]. fold rows in W, N.
  pose proof (sector_loop_ascending df start_date_obj final_date_obj dates S
                st0) as Asc. fold rows in Asc.
  destruct (sector_loop_running df start_date_obj final_date_obj dates S
              st0 []) as [R A]; [intro g; reflexivity|now left|].
  fold rows in R, A. cbn [app] in A.
  assert (Cum : forall r, In r (sort_by sector_row_leb rows) ->
            sr_cumulative_contribution r
            = total_to (sr_gics_name r) (sr_dt r)
                (sort_by sector_row_leb rows)).
  { intros r Hr. apply (Permutation_in _ P) in Hr.
    destruct (in_split _ _ Hr) as [p [post E]].
    rewrite (total_to_perm _ _ _ _ P).
    rewrite (running_sum_by_date rows Asc N p r post E).
    exact (R p r post E). }
  split; [|split].
  - intros before prev_date date after E Hp Hd Dp Dd.
    set (contribution_df :=
           merge_on_stock_name (date_data df prev_date) (date_data df date)).
    assert (Q : Permutation
                  (map (fun r => (sr_gics_name r, sr_daily_contribution r))
                     (filter (fun r => (sr_dt r =? date)%Z)
                        (sort_by sector_row_leb rows)))
                  (sector_contributions_of contribution_df)).
    { rewrite (filter_perm _ _ _ P).
      destruct (sector_loop_adjacent df start_date_obj final_date_obj before
                  prev_date date after st0) as [cum F]; auto.
      { rewrite <- E. exact S. }
      unfold rows. rewrite E, F, emit_sector_rows_items.
      apply Permutation_refl. }
    split; [exact Q|].
    intros m Hm.
    assert (I : In (m_gics_name m, sector_sum contribution_df (m_gics_name m))
                  (sector_contributions_of contribution_df)).
    { unfold sector_contributions_of. apply in_map_iff.
      exists (m_gics_name m). split; [reflexivity|].
      apply (Permutation_in _ (Permutation_sym (sort_by_perm _ _))).
      apply first_occurrences_In. split; [|tauto]. now apply in_map. }
    apply (Permutation_in _ (Permutation_sym Q)) in I.
    apply in_map_iff in I. destruct I as [r [Er Hr]].
    apply filter_In in Hr. destruct Hr as [Hr Hdt].
    exists r. split; [exact Hr|]. split; [now apply Z.eqb_eq|].
    now inversion Er.
  - intros r Hr. split; [|split].
    + apply (Permutation_in _ P) in Hr. apply (W r Hr).
    + apply Cum, Hr.
    + intro Last. rewrite (Cum r Hr). unfold total_to, total.
      f_equal. f_equal. apply filter_ext_in. intros a Ha.
      destruct (String.eqb (sr_gics_name a) (sr_gics_name r)) eqn:E;
        [|reflexivity].
      apply String.eqb_eq in E. cbn [andb]. apply Z.leb_le.
      now apply Last.
  - intro g. rewrite (total_perm _ _ _ P). apply A.
Qed.

Lemma chained_sector_attribution_witness :
  let out := get_daily_sector_contributions sector_example 1%Z 3%Z in
  let daily (l : list SectorRow) :=
    map (fun r => (sr_gics_name r, sr_daily_contribution r)) l in
  Permutation (daily (filter (fun r => (sr_dt r =? 2)%Z) out))
    [("Fin", 0); ("Tech", q 5 1)]
  /\ Permutation (daily (filter (fun r => (sr_dt r =? 3)%Z) out))
       [("Fin", q (-4) 1); ("Tech", q 6 1)]
  /\ (forall r, In r out ->
        sr_cumulative_contribution r
        = total_to (sr_gics_name r) (sr_dt r) out)
  /\ option_map sr_cumulative_contribution
       (find (fun r => (sr_dt r =? 3)%Z && String.eqb (sr_gics_name r) "Tech")
             out)
     = Some (q 5 1 + q 6 1).
Proof.
  pose proof (chained_sector_attribution sector_example 1%Z 3%Z) as H.
  cbv zeta in H. destruct H as [H1 [H2 _]]. cbv zeta.
  split; [|split; [|split]].
  - refine (Permutation_trans (proj1 (H1 [] 1%Z 2%Z [3%Z] _ _ _ _ _)) _).
    + reflexivity.
    + lia.
    + lia.
    + vm_compute. discriminate.
    + vm_compute. discriminate.
    + match goal with
      | |- Permutation ?a ?b => replace a with b; [reflexivity|]
      end.
      vm_compute. qc_eq.
  - refine (Permutation_trans (proj1 (H1 [1%Z] 2%Z 3%Z [] _ _ _ _ _)) _).
    + reflexivity.
    + lia.
    + lia.
    + vm_compute. discriminate.
    + vm_compute. discriminate.
    + match goal with
      | |- Permutation ?a ?b => replace a with b; [reflexivity|]
      end.
      vm_compute. qc_eq.
  - intros r Hr. apply (H2 r Hr).
  - vm_compute. qc_eq.
Defined.

(* ================================================================== *)
(** * Further properties of get_strategy_portfolio_weight_comparison *)

(** ** Where the rows and summary entries of the output come from *)

Lemma make_summary_date b d bm sw daw pbm psw pp dp pbn pmn :
  s_date (make_summary b d bm sw daw pbm psw pp dp pbn pmn) = d.
Proof.
  unfold make_summary. destruct b; [reflexivity|].
  destruct (positive_nav pbn), (positive_nav pmn); reflexivity.
Qed.

Lemma process_date_origin ord T base bp prev st d st' rows sm :
  process_date ord T base bp prev st d = Some (st', rows, sm) ->
  (base <= d)%Z /\ s_date sm = d
  /\ forall r, In r rows -> made_row T base bp r /\ r_date r = d.
Proof.
  unfold process_date.
  destruct (d <? base)%Z eqn:L; [discriminate|]. apply Z.ltb_ge in L.
  destruct (set_iter ord _) as [|x xs]; [discriminate|].
  destruct (query_prices T d (x :: xs)) as [dp dlp].
  set (sw := strategy_weights_of ord T base prev st d _ _ dp).
  intro H. inversion H; subst st' rows sm; clear H.
  split; [exact L|]. split; [apply make_summary_date|].
  intros r Hin. apply in_app_or in Hin. destruct Hin as [Hin|Hin].
  - apply in_map_iff in Hin. destruct Hin as [s [<- _]].
    split; [|reflexivity]. exists d, s, dp, dlp, sw. auto.
  - destruct (set_iter ord (dkeys sw)) as [|y ys]; [contradiction|].
    destruct (query_prices T d (y :: ys)) as [dp2 dlp2].
    apply in_map_iff in Hin. destruct Hin as [s [<- _]].
    split; [|reflexivity]. exists d, s, dp2, dlp2, sw. auto.
Qed.

Lemma run_dates_origin ord T base bp dates :
  forall prev st,
  (forall r, In r (fst (run_dates ord T base bp prev dates st)) ->
     made_row T base bp r /\ In (r_date r) dates)
  /\ (forall sm, In sm (snd (run_dates ord T base bp prev dates st)) ->
        (base <= s_date sm)%Z /\ In (s_date sm) dates).
Proof.
  induction dates as [|d dates IH]; intros prev st; simpl.
  - split; intros ? [].
  - destruct (process_date ord T base bp prev st d)
      as [[[st' rows] sm]|] eqn:P.
    + destruct (process_date_origin _ _ _ _ _ _ _ _ _ _ P) as [L [Sd Hr]].
      destruct (IH (Some d) st') as [IH1 IH2].
      destruct (run_dates ord T base bp (Some d) dates st') as [rs ss].
      simpl in *. split.
      * intros r Hin. apply in_app_or in Hin. destruct Hin as [Hin|Hin].
        -- destruct (Hr r Hin) as [M D]. split; [exact M | left; congruence].
        -- destruct (IH1 r Hin). auto.
      * intros s [<-|Hin].
        -- split; [lia | left; congruence].
        -- destruct (IH2 s Hin). auto.
    + destruct (IH (Some d) st) as [IH1 IH2]. split.
      * intros r Hin. destruct (IH1 r Hin). auto.
      * intros s Hin. destruct (IH2 s Hin). auto.
Qed.

Lemma drop_duplicates_last_incl rows r :
  In r (drop_duplicates_last rows) -> In r rows.
Proof.
  induction rows as [|x rows IH]; simpl; [auto|].
  destruct (existsb _ rows); simpl; intuition.
Qed.

(** Every row of the returned frame was built by [make_row] on a processed
    date, and every summary entry belongs to such a date. *)
Lemma comparison_origin ord T base_date_obj :
  let out := get_strategy_portfolio_weight_comparison ord T base_date_obj in
  (forall r, In r (fst out) ->
     exists base bp,
       base_actual_date_of (bm_dates T) base_date_obj = Some base
       /\ made_row T base bp r /\ In (r_date r) (bm_dates T))
  /\ (forall sm, In sm (snd out) ->
        exists base,
          base_actual_date_of (bm_dates T) base_date_obj = Some base
          /\ (base <= s_date sm)%Z /\ In (s_date sm) (bm_dates T)).
Proof.
  unfold get_strategy_portfolio_weight_comparison. fold (bm_dates T).
  destruct (base_actual_date_of (bm_dates T) base_date_obj) as [base|];
    [|split; intros ? []].
  destruct (set_iter ord _) as [|x xs]; [split; intros ? []|].
  set (bp := fst (query_prices T base (x :: xs))).
  destruct (run_dates_origin ord T base bp (bm_dates T) None initial_state)
    as [H1 H2].
  destruct (run_dates ord T base bp None (bm_dates T) initial_state)
    as [results summary].
  destruct results as [|r0 results]; [split; intros ? []|].
  cbn [fst snd] in *. split.
  - intros r Hin. exists base, bp. split; [reflexivity|].
    apply H1. apply drop_duplicates_last_incl.
    eapply Permutation_in; [apply sort_by_perm | exact Hin].
  - intros sm Hin. exists base. split; [reflexivity|]. now apply H2.
Qed.

Lemma base_actual_date_of_spec dates base_date_obj base :
  base_actual_date_of dates base_date_obj = Some base ->
  (base <= base_date_obj)%Z /\ In base dates.
Proof.
  unfold base_actual_date_of.
  set (step := fun (best : option Z) (d : Z) =>
         if (d <=? base_date_obj)%Z then
           match best with
           | Some b => Some (Z.max b d)
           | None => Some d
           end
         else best).
  assert (G : forall l best,
    (forall b, best = Some b -> (b <= base_date_obj)%Z /\ In b dates) ->
    (forall x, In x l -> In x dates) ->
    fold_left step l best = Some base ->
    (base <= base_date_obj)%Z /\ In base dates).
  { induction l as [|d l IH]; intros best Hb Hl; simpl.
    - intro E. now apply Hb.
    - apply IH; [|intros x Hx; apply Hl; now right].
      intros b E. unfold step in E.
      destruct (d <=? base_date_obj)%Z eqn:L; [|now apply Hb].
      apply Z.leb_le in L. destruct best as [b0|].
      + inversion E; subst b. destruct (Hb b0 eq_refl) as [L0 I0].
        destruct (Z.max_spec b0 d) as [[_ ->]|[_ ->]];
          [split; [exact L | apply Hl; now left] | auto].
      + inversion E; subst b. split; [exact L | apply Hl; now left]. }
  apply G; [discriminate | auto].
Qed.

(** ** Dates of the output *)

(** No row and no summary entry is emitted for a date before the effective
    base date (the latest benchmark date not after the requested base date)
    or for a date without benchmark rows. *)
Theorem output_dates_within_window (ord : SetOrder) (T : Tables)
    (base_date_obj : Z) :
  let out := get_strategy_portfolio_weight_comparison ord T base_date_obj in
  (forall r, In r (fst out) ->
     exists base,
       base_actual_date_of (bm_dates T) base_date_obj = Some base
       /\ (base <= base_date_obj)%Z /\ (base <= r_date r)%Z
       /\ In (r_date r) (map (fun row => fst (fst row)) (bm_data T)))
  /\ (forall sm, In sm (snd out) ->
        exists base,
          base_actual_date_of (bm_dates T) base_date_obj = Some base
          /\ (base <= base_date_obj)%Z /\ (base <= s_date sm)%Z
          /\ In (s_date sm) (map (fun row => fst (fst row)) (bm_data T))).
Proof.
  assert (SU : forall l x, In x (sorted_unique l) -> In x l).
  { assert (I : forall d l x, In x (insert_date d l) -> x = d \/ In x l).
    { intros d l x. induction l as [|y l IH]; simpl.
      - intuition.
      - destruct (d <? y)%Z; simpl; [intuition|].
        destruct (d =? y)%Z; simpl; intuition. }
    induction l as [|d l IH]; simpl; [auto|].
    intros x H. apply I in H. destruct H; [left; congruence | right; auto]. }
  intro out. destruct (comparison_origin ord T base_date_obj) as [H1 H2].
  fold out in H1, H2. split.
  - intros r Hin. destruct (H1 r Hin) as [base [bp [E [M D]]]].
    exists base. split; [exact E|].
    destruct (base_actual_date_of_spec _ _ _ E) as [L _].
    split; [exact L|]. split; [|now apply SU].
    destruct M as [d [s [dp [dlp [sw [Ld ->]]]]]]. exact Ld.
  - intros sm Hin. destruct (H2 sm Hin) as [base [E [L D]]].
    exists base. split; [exact E|].
    destruct (base_actual_date_of_spec _ _ _ E) as [Lb _].
    split; [exact Lb|]. split; [exact L | now apply SU].
Qed.

(** ** Relations between the columns of a row *)

Lemma per100_div (x : Qc) :
  (if Qceqb x 0 then 0 else x / q 100 1) = x / q 100 1.
Proof.
  destruct (Qceqb x 0) eqn:E; [|reflexivity].
  apply Qceqb_eq in E. subst x. field. discriminate.
Qed.

Lemma make_row_identities b d s bp dp dlp bm sw daw :
  let r := make_row b d s bp dp dlp bm sw daw in
  r_weight_diff r = r_strategy_weight r - r_BM_weight r
  /\ r_BM_contribution r = r_return_vs_base r * r_BM_weight r
  /\ r_strategy_contribution r = r_return_vs_base r * r_strategy_weight r
  /\ r_excess_contribution r = r_return_vs_base r * r_weight_diff r
  /\ r_abs_active_amount r = r_MP_amount r - r_BM_amount r
  /\ 0 <= r_active_weight r.
Proof.
  unfold make_row.
  cbn [r_weight_diff r_strategy_weight r_BM_weight r_BM_contribution
       r_return_vs_base r_strategy_contribution r_excess_contribution
       r_abs_active_amount r_MP_amount r_BM_amount r_active_weight].
  rewrite !per100_div.
  repeat split; try (field; discriminate).
  destruct (Qcltb 0 (row_active_weight s daw)) eqn:E.
  - apply Qcltb_lt in E. now apply Qclt_le_weak.
  - apply Qcle_refl.
Qed.

(** In every row of the returned frame the contribution columns are the
    return since the base date times the corresponding weight column, the
    excess contribution is that return times the weight difference, the
    absolute active amount is the strategy amount minus the benchmark amount,
    and the reported active weight is never negative. *)
Theorem output_row_identities (ord : SetOrder) (T : Tables) (base_date_obj : Z)
    (r : ResultRow) :
  In r (fst (get_strategy_portfolio_weight_comparison ord T base_date_obj)) ->
  r_weight_diff r = r_strategy_weight r - r_BM_weight r
  /\ r_BM_contribution r = r_return_vs_base r * r_BM_weight r
  /\ r_strategy_contribution r = r_return_vs_base r * r_strategy_weight r
  /\ r_excess_contribution r = r_return_vs_base r * r_weight_diff r
  /\ r_abs_active_amount r = r_MP_amount r - r_BM_amount r
  /\ 0 <= r_active_weight r.
Proof.
  intro Hin.
  destruct (proj1 (comparison_origin ord T base_date_obj) r Hin)
    as [base [bp [_ [M _]]]].
  destruct M as [d [s [dp [dlp [sw [_ ->]]]]]].
  apply make_row_identities.
Qed.



Lemma output_row_identities_witness :
  exists r,
    hd_error (fst (get_strategy_portfolio_weight_comparison ascending_order
                     T_repeated_override 1%Z)) = Some r
    /\ r_excess_contribution r = r_return_vs_base r * r_weight_diff r
    /\ 0 <= r_active_weight r.
Proof.
  eexists. split; [vm_compute; reflexivity|].
  refine ((fun H => conj (proj1 (proj2 (proj2 (proj2 H))))
                         (proj2 (proj2 (proj2 (proj2 (proj2 H))))))
            (output_row_identities ascending_order T_repeated_override 1%Z
               _ _)).
  vm_compute. left. reflexivity.
Defined.


Lemma output_dates_within_window_witness :
  exists r,
    hd_error (fst (get_strategy_portfolio_weight_comparison ascending_order
                     T_repeated_override 1%Z)) = Some r
    /\ exists base,
         base_actual_date_of (bm_dates T_repeated_override) 1%Z = Some base
         /\ (base <= 1)%Z /\ (base <= r_date r)%Z
         /\ In (r_date r)
              (map (fun row => fst (fst row)) (bm_data T_repeated_override)).
Proof.
  eexists. split; [vm_compute; reflexivity|].
  apply (proj1 (output_dates_within_window ascending_order
                  T_repeated_override 1%Z)).
  vm_compute. left. reflexivity.
Defined.

(** ** One row per date and instrument, one summary entry per date *)

Lemma drop_duplicates_last_keys rows :
  NoDup (map row_key (drop_duplicates_last rows)).
Proof.
  induction rows as [|x rows IH]; simpl; [constructor|].
  destruct (existsb _ rows) eqn:E; [exact IH|].
  simpl. constructor; [|exact IH].
  intro Hin. apply in_map_iff in Hin. destruct Hin as [y [K Hy]].
  apply drop_duplicates_last_incl in Hy.
  assert (C : existsb (fun r' => (r_date r' =? r_date x)%Z
                                && String.eqb (r_stock_name r') (r_stock_name x))
                rows = true).
  { apply existsb_exists. exists y. split; [exact Hy|].
    unfold row_key in K. inversion K.
    now rewrite Z.eqb_refl, String.eqb_refl. }
  congruence.
Qed.

Lemma run_dates_summary_sorted ord T base bp dates :
  StronglySorted Z.lt dates ->
  forall prev st,
  StronglySorted Z.lt
    (map s_date (snd (run_dates ord T base bp prev dates st))).
Proof.
  induction 1 as [|d dates S IH F]; intros prev st; simpl; [constructor|].
  destruct (process_date ord T base bp prev st d) as [[[st' rows] sm]|] eqn:P;
    [|apply IH].
  destruct (process_date_origin _ _ _ _ _ _ _ _ _ _ P) as [_ [Sd _]].
  pose proof (proj2 (run_dates_origin ord T base bp dates (Some d) st')) as O.
  specialize (IH (Some d) st').
  destruct (run_dates ord T base bp (Some d) dates st') as [rs ss].
  simpl in *. constructor; [exact IH|].
  apply Forall_forall. intros x Hx. apply in_map_iff in Hx.
  destruct Hx as [s [<- Hs]]. rewrite Sd.
  destruct (O s Hs) as [_ Hin].
  rewrite Forall_forall in F. now apply F.
Qed.

(** The returned frame holds at most one row per date and instrument (the
    rows of the two row loops are merged by [drop_duplicates]), and the
    summary holds one entry per processed date, in strictly ascending date
    order. *)
Theorem output_keys_unique (ord : SetOrder) (T : Tables) (base_date_obj : Z) :
  let out := get_strategy_portfolio_weight_comparison ord T base_date_obj in
  NoDup (map row_key (fst out))
  /\ StronglySorted Z.lt (map s_date (snd out)).
Proof.
  unfold get_strategy_portfolio_weight_comparison. fold (bm_dates T).
  destruct (base_actual_date_of (bm_dates T) base_date_obj) as [base|];
    [|split; constructor].
  destruct (set_iter ord _) as [|x xs]; [split; constructor|].
  set (bp := fst (query_prices T base (x :: xs))).
  pose proof (run_dates_summary_sorted ord T base bp (bm_dates T)
                (sorted_unique_sorted _) None initial_state) as S.
  destruct (run_dates ord T base bp None (bm_dates T) initial_state)
    as [results summary].
  destruct results as [|r0 results]; [split; constructor|].
  cbn [fst snd] in *. split; [|exact S].
  eapply Permutation_NoDup.
  - apply Permutation_map. symmetry. apply sort_by_perm.
  - apply drop_duplicates_last_keys.
Qed.

(** ** The price a row reports *)

Lemma query_prices_get T d names s :
  price_get s (fst (query_prices T d names))
  = if existsb (String.eqb s) names then stored_price T d s else None.
Proof.
  unfold query_prices, stored_price.
  assert (G : forall rows (acc : dict (option Qc) * dict (option Qc)) a,
             price_get s (fst acc)
             = (if existsb (String.eqb s) names then a else None) ->
             price_get s
               (fst (fold_left
                       (fun acc row =>
                          let '(dt, ticker, price, local_price) := row in
                          let '(prices, local_prices) := acc in
                          if (dt =? d)%Z && existsb (String.eqb ticker) names
                          then
                            (dset ticker price prices,
                             if local_price_col T
                             then dset ticker local_price local_prices
                             else local_prices)
                          else acc) rows acc))
             = (if existsb (String.eqb s) names
                then fold_left
                       (fun found row =>
                          let '(dt, ticker, price, _) := row in
                          if (dt =? d)%Z && String.eqb ticker s then price
                          else found) rows a
                else None)).
  { induction rows as [|[[[dt ticker] price] lp] rows IH]; intros [ps ls] a H;
      [exact H|].
    cbn [fold_left]. apply IH.
    destruct (String.eqb ticker s) eqn:E.
    - apply String.eqb_eq in E. subst ticker.
      destruct (dt =? d)%Z; cbn [andb]; [|exact H].
      destruct (existsb (String.eqb s) names); [|exact H].
      cbn [fst]. unfold price_get. now rewrite dget_dset_eq.
    - rewrite andb_false_r.
      destruct ((dt =? d)%Z && existsb (String.eqb ticker) names);
        [|exact H].
      cbn [fst] in *. unfold price_get in *.
      rewrite dget_dset_neq; [exact H|].
      intro K. subst. now rewrite String.eqb_refl in E. }
  apply G. cbn [fst]. now destruct (existsb _ names).
Qed.

Lemma make_row_price b d s bp dp dlp bm sw daw :
  r_PRICE (make_row b d s bp dp dlp bm sw daw) = price_get s dp
  /\ r_date (make_row b d s bp dp dlp bm sw daw) = d
  /\ r_stock_name (make_row b d s bp dp dlp bm sw daw) = s.
Proof. repeat split. Qed.

Lemma strategy_weights_nonbase_mem all_stocks daw adj s :
  NoDup all_stocks -> In s all_stocks ->
  (forall k, In k all_stocks -> dmem k adj = true) ->
  dmem s (strategy_weights_nonbase all_stocks daw adj) = true.
Proof.
  intros ND Hin Hadj. unfold dmem.
  destruct (dnonempty (stocks_with_active_weight_of all_stocks daw adj))
    eqn:NE.
  - destruct (dget s (stocks_with_active_weight_of all_stocks daw adj))
      as [info|] eqn:G.
    + now rewrite (nonbase_overridden all_stocks daw adj ND s info G).
    + now rewrite (nonbase_not_overridden all_stocks daw adj s NE Hin G).
  - rewrite (nonbase_no_active all_stocks daw adj NE). apply (Hadj s Hin).
Qed.

Lemma strategy_weights_of_covers ord T base prev st d dp s :
  In s (dkeys (build_bm_weights T d []))
  \/ ((d =? base)%Z = true /\ In s (dkeys (build_active_weights T d))) ->
  In s (dkeys (strategy_weights_of ord T base prev st d
                 (build_bm_weights T d []) (build_active_weights T d) dp)).
Proof.
  intro H. apply dmem_In. unfold strategy_weights_of.
  destruct (d =? base)%Z eqn:E.
  - unfold dmem. rewrite strategy_weights_base_get.
    rewrite existsb_eqb_true; [reflexivity|].
    apply set_iter_In, in_or_app. destruct H as [H|[_ H]]; auto.
  - destruct H as [H|[H _]]; [|discriminate].
    match goal with
    | |- dmem s (strategy_weights_nonbase ?all _ _) = true =>
        apply (strategy_weights_nonbase_mem all)
    end.
    + apply set_iter_NoDup.
    + apply set_iter_In. rewrite !in_app_iff. auto.
    + intros k Hk. unfold dmem. rewrite adjusted_weights_get.
      now rewrite (existsb_eqb_true _ _ Hk).
Qed.

Lemma process_date_rows ord T base bp prev st d st' rows sm :
  process_date ord T base bp prev st d = Some (st', rows, sm) ->
  exists rows1 rows2,
    rows = rows1 ++ rows2
    /\ (forall r, In r rows2 ->
          r_PRICE r = stored_price T (r_date r) (r_stock_name r))
    /\ (forall r, In r rows1 ->
          exists x, In x rows2 /\ row_key x = row_key r).
Proof.
  unfold process_date.
  destruct (d <? base)%Z eqn:L; [discriminate|].
  destruct (set_iter ord _) as [|x xs] eqn:N; [discriminate|].
  destruct (query_prices T d (x :: xs)) as [dp dlp].
  set (bm := build_bm_weights T d []) in *.
  set (daw := build_active_weights T d) in *.
  pose proof (strategy_weights_of_covers ord T base prev st d dp) as Cov.
  fold bm daw in Cov.
  set (sw := strategy_weights_of ord T base prev st d bm daw dp) in *.
  intro H. inversion H; subst st' rows sm; clear H.
  eexists. eexists. split; [reflexivity|].
  assert (Cov' : forall s,
             In s (if (d =? base)%Z then set_iter ord (dkeys bm ++ dkeys daw)
                   else set_iter ord (dkeys sw ++ dkeys bm)) ->
             In s (set_iter ord (dkeys sw))).
  { intros s Hs. apply set_iter_In.
    destruct (d =? base)%Z eqn:E; apply set_iter_In, in_app_or in Hs.
    - apply Cov. destruct Hs as [Hs|Hs]; auto.
    - destruct Hs as [Hs|Hs]; [exact Hs|]. apply Cov. auto. }
  rewrite N in Cov'.
  destruct (set_iter ord (dkeys sw)) as [|y ys] eqn:N2.
  { split; [intros r []|].
    intros r Hr. apply in_map_iff in Hr. destruct Hr as [s [_ Hs]].
    destruct (Cov' s Hs). }
  pose proof (query_prices_get T d (y :: ys)) as Q.
  destruct (query_prices T d (y :: ys)) as [dp2 dlp2]. cbn [fst] in Q.
  split.
  - intros r Hr. apply in_map_iff in Hr. destruct Hr as [s [<- Hs]].
    destruct (make_row_price (d =? base)%Z d s bp dp2 dlp2 bm sw daw)
      as [-> [-> ->]].
    rewrite Q. now rewrite (existsb_eqb_true _ _ Hs).
  - intros r Hr. apply in_map_iff in Hr. destruct Hr as [s [<- Hs]].
    exists (make_row (d =? base)%Z d s bp dp2 dlp2 bm sw daw). split.
    + apply in_map_iff. exists s. split; [reflexivity|now apply Cov'].
    + reflexivity.
Qed.

Lemma drop_duplicates_last_app a b r :
  In r (drop_duplicates_last (a ++ b)) ->
  In r (drop_duplicates_last b)
  \/ (In r a /\ forall x, In x b -> row_key x <> row_key r).
Proof.
  induction a as [|y a IH]; simpl; [auto|].
  destruct (existsb _ (a ++ b)) eqn:E.
  - intro H. destruct (IH H) as [K|[K1 K2]]; auto.
  - intros [<-|H].
    + right. split; [now left|].
      intros x Hx Kx.
      assert (C : existsb (fun r' => (r_date r' =? r_date y)%Z
                                    && String.eqb (r_stock_name r')
                                         (r_stock_name y)) (a ++ b) = true).
      { apply existsb_exists. exists x. split; [apply in_or_app; now right|].
        unfold row_key in Kx. inversion Kx.
        now rewrite Z.eqb_refl, String.eqb_refl. }
      congruence.
    + destruct (IH H) as [K|[K1 K2]]; auto.
Qed.

Lemma run_dates_kept_rows ord T base bp dates :
  forall prev st r,
  In r (drop_duplicates_last (fst (run_dates ord T base bp prev dates st))) ->
  r_PRICE r = stored_price T (r_date r) (r_stock_name r).
Proof.
  induction dates as [|d dates IH]; intros prev st r; cbn [run_dates].
  - intros [].
  - destruct (process_date ord T base bp prev st d)
      as [[[st' rows] sm]|] eqn:P; [|apply IH].
    destruct (process_date_rows _ _ _ _ _ _ _ _ _ _ P)
      as [rows1 [rows2 [-> [H2 H1]]]].
    specialize (IH (Some d) st' r).
    destruct (run_dates ord T base bp (Some d) dates st') as [rs ss].
    cbn [fst] in *. rewrite <- app_assoc. intro H.
    apply drop_duplicates_last_app in H. destruct H as [H|[Hr Hn]].
    + apply drop_duplicates_last_app in H. destruct H as [H|[Hr _]].
      * now apply IH.
      * now apply H2.
    + exfalso. destruct (H1 r Hr) as [x [Hx Kx]].
      apply (Hn x); [apply in_or_app; now left|exact Kx].
Qed.

(** Every row of the returned frame reports the price stored for its own
    instrument and date ([None] when [stock_price] has no such row or a NULL
    price): the rows built from the first price query, which only covers the
    benchmark and override names of the date, are all replaced by the rows of
    the second loop when duplicates are dropped. *)
Theorem output_rows_report_stored_price (ord : SetOrder) (T : Tables)
    (base_date_obj : Z) (r : ResultRow) :
  In r (fst (get_strategy_portfolio_weight_comparison ord T base_date_obj)) ->
  r_PRICE r = stored_price T (r_date r) (r_stock_name r).
Proof.
  unfold get_strategy_portfolio_weight_comparison. fold (bm_dates T).
  destruct (base_actual_date_of (bm_dates T) base_date_obj) as [base|];
    [|intros []].
  destruct (set_iter ord _) as [|x xs]; [intros []|].
  set (bp := fst (query_prices T base (x :: xs))).
  pose proof (run_dates_kept_rows ord T base bp (bm_dates T) None
                initial_state r) as K.
  destruct (run_dates ord T base bp None (bm_dates T) initial_state)
    as [results summary].
  destruct results as [|r0 results]; [intros []|].
  cbn [fst] in *. intro Hin. apply K.
  eapply Permutation_in; [apply sort_by_perm|exact Hin].
Qed.

Lemma output_rows_report_stored_price_witness :
  exists r,
    hd_error (fst (get_strategy_portfolio_weight_comparison ascending_order
                     T_repeated_override 1%Z)) = Some r
    /\ r_PRICE r = stored_price T_repeated_override (r_date r)
                     (r_stock_name r).
Proof.
  eexists. split; [vm_compute; reflexivity|].
  apply (output_rows_report_stored_price ascending_order T_repeated_override
           1%Z).
  vm_compute. left. reflexivity.
Defined.

(** ** No benchmark constituent is left out *)

Lemma insert_date_In d l x : In x (insert_date d l) <-> x = d \/ In x l.
Proof.
  induction l as [|y l IH]; simpl.
  - intuition.
  - destruct (d <? y)%Z eqn:L; simpl; [intuition|].
    destruct (d =? y)%Z eqn:E; simpl.
    + apply Z.eqb_eq in E. subst. intuition.
    + rewrite IH. intuition.
Qed.

Lemma sorted_unique_In l x : In x (sorted_unique l) <-> In x l.
Proof.
  induction l as [|d l IH]; simpl; [tauto|].
  rewrite insert_date_In, IH. intuition.
Qed.

Lemma build_bm_weights_In T d s w :
  In (d, s, Some w) (bm_data T) -> In s (dkeys (build_bm_weights T d [])).
Proof.
  unfold build_bm_weights. intro Hin. apply dmem_In.
  assert (G : forall rows (a : dict Qc),
             dmem s a = true \/ In (d, s, Some w) rows ->
             dmem s
               (fold_left
                  (fun d0 row =>
                     let '(dt, stock_name, weight) := row in
                     if (dt =? d)%Z then
                       match weight with
                       | Some w => dset stock_name w d0
                       | None => d0
                       end
                     else d0) rows a) = true).
  { induction rows as [|[[dt n] v] rows IH]; intros a H.
    - destruct H as [H|[]]. exact H.
    - cbn [fold_left]. apply IH. destruct H as [H|[H|H]].
      + left. destruct (dt =? d)%Z; [|exact H]. destruct v; [|exact H].
        unfold dmem in *. destruct (String.eqb s n) eqn:E.
        * apply String.eqb_eq in E. subst. now rewrite dget_dset_eq.
        * apply String.eqb_neq in E. now rewrite dget_dset_neq.
      + left. inversion H; subst. rewrite Z.eqb_refl.
        unfold dmem. now rewrite dget_dset_eq.
      + now right. }
  apply G. now right.
Qed.

Lemma drop_duplicates_last_complete rows x :
  In x rows ->
  exists y, In y (drop_duplicates_last rows) /\ row_key y = row_key x.
Proof.
  revert x. induction rows as [|z rows IH]; intros x H; [destruct H|].
  cbn [drop_duplicates_last].
  destruct (existsb _ rows) eqn:E.
  - destruct H as [<-|H]; [|now apply IH].
    apply existsb_exists in E. destruct E as [y [Hy Ky]].
    apply andb_true_iff in Ky. destruct Ky as [K1 K2].
    apply Z.eqb_eq in K1. apply String.eqb_eq in K2.
    destruct (IH y Hy) as [y' [Hy' Ky']]. exists y'. split; [exact Hy'|].
    rewrite Ky'. unfold row_key. now rewrite K1, K2.
  - destruct H as [<-|H].
    + exists z. split; [now left|reflexivity].
    + destruct (IH x H) as [y [Hy Ky]]. exists y. split; [now right|exact Ky].
Qed.

Lemma process_date_covers ord T base bp prev st d s :
  (base <= d)%Z -> In s (dkeys (build_bm_weights T d [])) ->
  exists st' rows sm r,
    process_date ord T base bp prev st d = Some (st', rows, sm)
    /\ In r rows /\ row_key r = (d, s).
Proof.
  intros L Hs. unfold process_date.
  destruct (d <? base)%Z eqn:L'; [apply Z.ltb_lt in L'; lia|].
  assert (Hn : In s (set_iter ord (dkeys (build_bm_weights T d [])
                                   ++ dkeys (build_active_weights T d)))).
  { apply set_iter_In, in_or_app. now left. }
  destruct (set_iter ord _) as [|x xs]; [destruct Hn|].
  destruct (query_prices T d (x :: xs)) as [dp dlp].
  pose proof (strategy_weights_of_covers ord T base prev st d dp s
                (or_introl Hs)) as Cov.
  set (sw := strategy_weights_of ord T base prev st d _ _ dp) in *.
  apply (set_iter_In ord) in Cov.
  destruct (set_iter ord (dkeys sw)) as [|y ys] eqn:N2; [destruct Cov|].
  destruct (query_prices T d (y :: ys)) as [dp2 dlp2].
  do 4 eexists. split; [reflexivity|]. split.
  - apply in_or_app. right. apply in_map_iff. exists s.
    split; [reflexivity|exact Cov].
  - reflexivity.
Qed.

Lemma run_dates_covers ord T base bp dates d s :
  (base <= d)%Z -> In d dates -> In s (dkeys (build_bm_weights T d [])) ->
  forall prev st,
  exists r, In r (fst (run_dates ord T base bp prev dates st))
            /\ row_key r = (d, s).
Proof.
  intros L Hd Hs. induction dates as [|d0 dates IH]; [destruct Hd|].
  intros prev st. cbn [run_dates]. destruct Hd as [->|Hd].
  - destruct (process_date_covers ord T base bp prev st d s L Hs)
      as [st' [rows [sm [r [P [Hr Kr]]]]]].
    rewrite P.
    destruct (run_dates ord T base bp (Some d) dates st') as [rs ss].
    exists r. split; [apply in_or_app; now left|exact Kr].
  - destruct (process_date ord T base bp prev st d0)
      as [[[st' rows] sm]|]; [|now apply IH].
    destruct (IH Hd (Some d0) st') as [r [Hr Kr]].
    destruct (run_dates ord T base bp (Some d0) dates st') as [rs ss].
    exists r. split; [apply in_or_app; now right|exact Kr].
Qed.

(** When the effective base date has a benchmark weight, every instrument
    with a benchmark weight on a date from the base date on has a row on
    that date in the returned frame, whether or not a price is known for
    it. *)
Theorem every_benchmark_constituent_has_a_row (ord : SetOrder) (T : Tables)
    (base_date_obj base d : Z) (s0 s : string) (w0 w : Qc) :
  base_actual_date_of (bm_dates T) base_date_obj = Some base ->
  In (base, s0, Some w0) (bm_data T) ->
  (base <= d)%Z -> In (d, s, Some w) (bm_data T) ->
  exists r,
    In r (fst (get_strategy_portfolio_weight_comparison ord T base_date_obj))
    /\ r_date r = d /\ r_stock_name r = s.
Proof.
  intros B H0 L H.
  unfold get_strategy_portfolio_weight_comparison. fold (bm_dates T).
  rewrite B.
  assert (Hn : In s0 (set_iter ord
                        (dkeys (build_bm_weights T base [])
                         ++ set_iter ord
                              (map (fun r => snd (fst r))
                                   (mp_weight_data T))))).
  { apply set_iter_In, in_or_app. left.
    now apply (build_bm_weights_In T base s0 w0). }
  destruct (set_iter ord _) as [|x xs]; [destruct Hn|].
  set (bp := fst (query_prices T base (x :: xs))).
  assert (Hd : In d (bm_dates T)).
  { apply sorted_unique_In. apply in_map_iff.
    exists (d, s, Some w). split; [reflexivity|exact H]. }
  destruct (run_dates_covers ord T base bp (bm_dates T) d s L Hd
              (build_bm_weights_In T d s w H) None initial_state)
    as [r [Hr Kr]].
  destruct (run_dates ord T base bp None (bm_dates T) initial_state)
    as [results summary].
  cbn [fst] in Hr.
  destruct results as [|r0 results]; [destruct Hr|].
  destruct (drop_duplicates_last_complete _ _ Hr) as [y [Hy Ky]].
  exists y. cbn [fst]. split.
  - eapply Permutation_in; [symmetry; apply sort_by_perm|exact Hy].
  - rewrite Kr in Ky. unfold row_key in Ky. inversion Ky. auto.
Qed.

Lemma every_benchmark_constituent_has_a_row_witness :
  exists r,
    In r (fst (get_strategy_portfolio_weight_comparison ascending_order
                 T_accepted 1%Z))
    /\ r_date r = 2%Z /\ r_stock_name r = "Y".
Proof.
  apply (every_benchmark_constituent_has_a_row ascending_order T_accepted
           1%Z 1%Z 2%Z "X" "Y" (q 1 4) (q 1 4)).
  - reflexivity.
  - simpl. auto.
  - lia.
  - simpl. auto 6.
Defined.

(* ================================================================== *)
(** * Further facts on rationals, sums and lists *)

Lemma Qc_add_nonneg (a b : Qc) : 0 <= a -> 0 <= b -> 0 <= a + b.
Proof.
  intros Ha Hb. replace 0 with (0 + 0) by ring.
  now apply Qcplus_le_compat.
Qed.

Lemma Qc_mul_nonneg (a b : Qc) : 0 <= a -> 0 <= b -> 0 <= a * b.
Proof.
  intros Ha Hb. replace 0 with (0 * b) by ring.
  now apply Qcmult_le_compat_r.
Qed.

Lemma Qc_inv_pos (a : Qc) : 0 < a -> 0 < / a.
Proof.
  intro H. unfold Qclt in *. simpl. rewrite Qred_correct.
  now apply Qinv_lt_0_compat.
Qed.

Lemma Qc_div_nonneg (a b : Qc) : 0 <= a -> 0 < b -> 0 <= a / b.
Proof.
  intros Ha Hb. unfold Qcdiv. apply Qc_mul_nonneg; [exact Ha|].
  apply Qclt_le_weak. now apply Qc_inv_pos.
Qed.

Lemma Qc_add_pos_nonneg (a b : Qc) : 0 < a -> 0 <= b -> 0 < a + b.
Proof.
  intros Ha Hb. apply Qclt_le_trans with (a + 0).
  - now replace (a + 0) with a by ring.
  - apply Qcplus_le_compat; [apply Qcle_refl|exact Hb].
Qed.

Lemma Qc_mul_pos (a b : Qc) : 0 < a -> 0 < b -> 0 < a * b.
Proof.
  intros Ha Hb. replace 0 with (0 * b) by ring.
  now apply Qcmult_lt_compat_r.
Qed.

Lemma Qc_pos_of_nonneg_neq (x : Qc) : 0 <= x -> x <> 0 -> 0 < x.
Proof.
  intros H N. destruct (Qcle_lt_or_eq _ _ H) as [L|E]; [exact L|].
  now symmetry in E.
Qed.

Lemma sum_nonneg (l : list Qc) : Forall (Qcle 0) l -> 0 <= sum l.
Proof.
  induction 1 as [|x l Hx Hl IH].
  - apply Qcle_refl.
  - rewrite sum_cons. now apply Qc_add_nonneg.
Qed.

Lemma sum_zero (l : list Qc) : Forall (fun x => x = 0) l -> sum l = 0.
Proof.
  induction 1 as [|x l Hx Hl IH]; [reflexivity|].
  rewrite sum_cons, Hx, IH. ring.
Qed.

Lemma sum_map_add {A} (f g : A -> Qc) (l : list A) :
  sum (map (fun x => f x + g x) l) = sum (map f l) + sum (map g l).
Proof.
  induction l as [|x l IH]; simpl.
  - unfold sum. simpl. ring.
  - rewrite !sum_cons, IH. ring.
Qed.


Lemma sum_indicator (n : string) (v : Qc) (gs : list string) :
  NoDup gs -> In n gs ->
  sum (map (fun g => if String.eqb n g then v else 0) gs) = v.
Proof.
  induction gs as [|g gs IH]; intros ND Hin; [contradiction|].
  inversion ND as [|? ? Hg ND']; subst. simpl. rewrite sum_cons.
  destruct (String.eqb n g) eqn:E.
  - apply String.eqb_eq in E. subst g.
    rewrite sum_zero; [ring|].
    apply Forall_forall. intros x Hx. apply in_map_iff in Hx.
    destruct Hx as [g [<- Hg']].
    destruct (String.eqb n g) eqn:E; [|reflexivity].
    apply String.eqb_eq in E. subst. contradiction.
  - apply String.eqb_neq in E. destruct Hin as [H|H]; [congruence|].
    rewrite (IH ND' H). ring.
Qed.

Lemma skipn_In {A} (x : A) (k : nat) (l : list A) :
  In x (skipn k l) -> In x l.
Proof.
  intro H. rewrite <- (firstn_skipn k l). apply in_or_app. now right.
Qed.

Lemma firstn_In {A} (x : A) (k : nat) (l : list A) :
  In x (firstn k l) -> In x l.
Proof.
  intro H. rewrite <- (firstn_skipn k l). apply in_or_app. now left.
Qed.

Lemma StronglySorted_filter {A} (R : A -> A -> Prop) (f : A -> bool) l :
  StronglySorted R l -> StronglySorted R (filter f l).
Proof.
  induction 1 as [|x l S IH F]; simpl; [constructor|].
  destruct (f x); [|exact IH].
  constructor; [exact IH|].
  apply Forall_forall. intros y Hy. apply filter_In in Hy.
  rewrite Forall_forall in F. now apply F.
Qed.

Lemma sort_by_sorted {A} (key : A -> Z) (l : list A) :
  StronglySorted Z.lt (map key l) ->
  sort_by (fun a b => (key a <=? key b)%Z) l = l.
Proof.
  induction l as [|x l IH]; simpl; intro S; [reflexivity|].
  apply StronglySorted_inv in S. destruct S as [S F].
  rewrite IH by exact S.
  destruct l as [|y l]; [reflexivity|]. simpl.
  inversion F as [|? ? Hxy _]; subst.
  destruct (key x <=? key y)%Z eqn:E; [reflexivity|].
  apply Z.leb_gt in E. lia.
Qed.

Lemma dnonempty_dset {V} (k : string) (v : V) (d : dict V) :
  dnonempty (dset k v d) = true.
Proof.
  destruct d as [|[k' v'] d]; simpl; [reflexivity|].
  now destruct (String.eqb k k').
Qed.



Section CondFoldApp.
Context {V : Type} (f : dict V -> string -> dict V).
Context (p : string -> bool) (g : string -> V).
Hypothesis f_step : forall d k, f d k = if p k then dset k (g k) d else d.

End CondFoldApp.

(* ================================================================== *)
(** * Further properties of the injection and of the daily summary *)



Lemma weighted_daily_return_flat (weights : dict Qc)
    (prev_prices date_prices : dict (option Qc)) :
  (forall s, In s (dkeys weights) ->
     price_get s date_prices = price_get s prev_prices) ->
  weighted_daily_return weights prev_prices date_prices = 0.
Proof.
  intro Hflat. unfold weighted_daily_return.
  match goal with
  | |- fold_left ?f _ _ = _ =>
      assert (G : forall (ws : dict Qc) acc,
                 (forall s, In s (dkeys ws) ->
                    price_get s date_prices = price_get s prev_prices) ->
                 fold_left f ws acc = acc)
  end.
  { induction ws as [|[s w] ws IH]; intros acc H; [reflexivity|].
    cbn [fold_left]. rewrite (H s (or_introl eq_refl)).
    rewrite IH by (intros s' Hs'; apply H; now right).
    unfold valid_pair, price_ratio.
    destruct (price_get s prev_prices) as [p|]; [|reflexivity].
    cbn [truthy]. destruct (Qceqb p 0) eqn:E; [reflexivity|].
    apply Qceqb_neq in E. cbn [negb andb].
    destruct (Qcltb 0 p); [|reflexivity].
    field. exact E. }
  apply G. exact Hflat.
Qed.

(** The NAV recurrence of the daily summary (call.py 3576-3612).  On a date
    after the base date on which no instrument of the previous weights has a
    new price, both NAVs are carried over unchanged from the previous date,
    whatever the weights and the overrides of the date are. *)
Theorem navs_carried_over_when_prices_unchanged (date_obj : Z)
    (date_bm_weights strategy_weights date_active_weights : dict Qc)
    (prev_bm_weights prev_strategy_weights : dict Qc)
    (prev_prices date_prices : dict (option Qc)) (bm_nav mp_nav : Qc) :
  (forall s, price_get s date_prices = price_get s prev_prices) ->
  0 < bm_nav -> 0 < mp_nav ->
  let sm :=
    make_summary false date_obj date_bm_weights strategy_weights
      date_active_weights prev_bm_weights prev_strategy_weights
      prev_prices date_prices (Some bm_nav) (Some mp_nav) in
  s_BM_NAV sm = bm_nav /\ s_MP_NAV sm = mp_nav
  /\ s_NAV_diff sm = mp_nav - bm_nav.
Proof.
  intros Hp Hb Hm. unfold make_summary. cbn [positive_nav].
  rewrite (proj2 (Qcltb_lt 0 bm_nav) Hb), (proj2 (Qcltb_lt 0 mp_nav) Hm).
  rewrite !weighted_daily_return_flat by (intros s _; apply Hp).
  cbn [s_BM_NAV s_MP_NAV s_NAV_diff].
  repeat split; ring.
Qed.

Lemma navs_carried_over_when_prices_unchanged_witness :
  let sm :=
    make_summary false 2%Z scenario_B_bm scenario_B_bm scenario_B_active
      scenario_B_bm scenario_B_bm prices_100_50 prices_100_50
      (Some 1) (Some (q 101 100)) in
  s_BM_NAV sm = 1 /\ s_MP_NAV sm = q 101 100
  /\ s_NAV_diff sm = q 101 100 - 1.
Proof.
  apply navs_carried_over_when_prices_unchanged; reflexivity.
Defined.

(* ================================================================== *)
(** * Further properties of get_daily_sector_contributions *)

Lemma sector_sum_cons (m : MergedRow) (cdf : list MergedRow) (g : string) :
  sector_sum (m :: cdf) g
  = (if String.eqb (m_gics_name m) g then ret_contribution m else 0)
    + sector_sum cdf g.
Proof.
  unfold sector_sum. simpl.
  destruct (String.eqb (m_gics_name m) g); simpl.
  - now rewrite sum_cons.
  - ring.
Qed.

Lemma sector_sums_add_up (cdf : list MergedRow) (gs : list string) :
  NoDup gs -> (forall m, In m cdf -> In (m_gics_name m) gs) ->
  sum (map (sector_sum cdf) gs) = sum (map ret_contribution cdf).
Proof.
  intro ND. induction cdf as [|m cdf IH]; intro Hin.
  - apply sum_zero. apply Forall_forall. intros x Hx.
    apply in_map_iff in Hx. destruct Hx as [g [<- _]]. reflexivity.
  - rewrite (map_ext _ _ (sector_sum_cons m cdf)).
    rewrite (sum_map_add
               (fun g => if String.eqb (m_gics_name m) g
                         then ret_contribution m else 0)
               (sector_sum cdf)).
    rewrite sum_indicator; [|exact ND|apply Hin; now left].
    rewrite IH by (intros m' Hm'; apply Hin; now right).
    simpl. now rewrite sum_cons.
Qed.

(** The sector rows emitted for a date (call.py 1801-1823) split that date's
    contributions without loss: their daily contributions add up to the sum
    of return times previous weight over all merged instruments. *)
Theorem sector_rows_add_up_to_total (date : Z) (contribution_df : list MergedRow)
    (cum : dict Qc) :
  sum (map sr_daily_contribution
         (fst (emit_sector_rows date (sector_contributions_of contribution_df)
                 cum)))
  = sum (map ret_contribution contribution_df).
Proof.
  rewrite emit_sector_rows_daily. unfold sector_contributions_of.
  rewrite map_map. cbn [snd].
  rewrite (sum_perm _ (map (sector_sum contribution_df)
                         (unique (map m_gics_name contribution_df)))).
  - apply sector_sums_add_up.
    + apply first_occurrences_NoDup.
    + intros m Hm. apply first_occurrences_In. split; [|tauto].
      now apply in_map.
  - apply Permutation_map, sort_by_perm.
Qed.

(** The frame returned by get_daily_sector_contributions (call.py
    1730-1831) has at most one row per date and sector, and every row lies
    on a date of the input strictly after the start date and not after the
    final date. *)
Theorem sector_rows_unique_and_within_window (performance_df : list PerfRow)
    (start_date_obj final_date_obj : Z) :
  let out :=
    get_daily_sector_contributions performance_df start_date_obj
      final_date_obj in
  NoDup (map (fun r => (sr_dt r, sr_gics_name r)) out)
  /\ (forall r, In r out ->
        (start_date_obj < sr_dt r <= final_date_obj)%Z
        /\ In (sr_dt r) (map p_dt performance_df)).
Proof.
  cbv zeta. unfold get_daily_sector_contributions, daily_contributions_of.
  destruct (sector_loop_rows (sort_by perf_leb performance_df)
              start_date_obj final_date_obj _
              (sorted_unique_sorted
                 (map p_dt (sort_by perf_leb performance_df)))
              {| sec_prev_date := None;
                 sector_cumulative_contribution := [] |}) as [A B].
  split.
  - eapply Permutation_NoDup; [|exact B].
    apply Permutation_map. symmetry. apply sort_by_perm.
  - intros r Hr.
    apply (Permutation_in _ (sort_by_perm sector_row_leb _)) in Hr.
    destruct (A r Hr) as [D W]. split; [exact W|].
    apply (proj1 (sorted_unique_In _ _)) in D.
    revert D. apply Permutation_in. apply Permutation_map, sort_by_perm.
Qed.

(* ================================================================== *)
(** * Properties of calculate_strategy_portfolio_returns *)

Section ReturnsFacts.
Import Returns.

Variable ord : SetOrder.

Lemma returns_loop_total (T : Tables) (base : Z)
    (base_prices : dict (option Qc)) (names : list string) (dates : list Z) :
  StronglySorted Z.lt dates ->
  forall prev st,
  ret_strategy_weights st <> None \/ In base dates ->
  exists results,
    returns_loop ord T base base_prices names prev dates st = Some results
    /\ map rr_dt results = filter (fun d => (base <=? d)%Z) dates
    /\ Forall (fun r => rr_strategy_cumulative_return r = rr_strategy_value r
                        /\ (rr_dt r = base -> rr_strategy_value r = 0))
         results.
Proof.
  induction 1 as [|d dates S IH F]; intros prev st Hst.
  - exists []. repeat split. constructor.
  - cbn [returns_loop filter]. unfold returns_step.
    destruct (d <? base)%Z eqn:L.
    + apply Z.ltb_lt in L.
      destruct (base <=? d)%Z eqn:L'; [apply Z.leb_le in L'; lia|].
      apply IH. destruct Hst as [H|[H|H]]; [now left|lia|now right].
    + apply Z.ltb_ge in L.
      destruct (base <=? d)%Z eqn:L'; [|apply Z.leb_gt in L'; lia].
      assert (A : exists sw,
                 (if (d =? base)%Z
                  then Some (strategy_weights_base
                               (set_iter ord
                                  (dkeys (build_bm_weights T d [])
                                   ++ dkeys (build_active_weights T d)))
                               (build_bm_weights T d [])
                               (build_active_weights T d))
                  else strategy_weights_after_base T prev st
                         (build_bm_weights T d [])) = Some sw).
      { destruct (d =? base)%Z eqn:E; [eexists; reflexivity|].
        apply Z.eqb_neq in E.
        assert (Hs : ret_strategy_weights st <> None).
        { destruct Hst as [H|[H|H]]; [exact H|congruence|].
          rewrite Forall_forall in F. specialize (F _ H). lia. }
        unfold strategy_weights_after_base.
        destruct (dnonempty (ret_prev_bm_weights st)); [eexists; reflexivity|].
        destruct prev; [|eexists; reflexivity].
        destruct (ret_strategy_weights st); [eexists; reflexivity|].
        congruence. }
      destruct A as [sw A]. rewrite A.
      match goal with
      | |- context [returns_loop _ _ _ _ _ (Some d) dates ?st'] =>
          destruct (IH (Some d) st') as [results [E [M R]]]
      end.
      { left. cbn [ret_strategy_weights]. discriminate. }
      rewrite E. eexists. split; [reflexivity|].
      cbn [map rr_dt]. split; [now rewrite M|].
      constructor; [|exact R]. cbn [rr_dt rr_strategy_cumulative_return
                                      rr_strategy_value].
      split; [reflexivity|].
      intro K. subst d. now rewrite Z.eqb_refl.
Qed.

(** calculate_strategy_portfolio_returns (call.py 2821-3114) never uses
    [strategy_weights] unbound.  When it returns rows at all there is one
    per benchmark date from the actual base date on, in ascending date
    order and whether or not any price is known; both return columns are
    equal, and the row of the base date holds 0. *)
Theorem returns_rows_cover_dates_from_base (T : Tables) (base_date_obj : Z) :
  exists rows,
    calculate_strategy_portfolio_returns ord T base_date_obj = Some rows
    /\ (rows = []
        \/ exists base,
             base_actual_date_of (bm_dates T) base_date_obj = Some base
             /\ map rr_dt rows
                = filter (fun d => (base <=? d)%Z) (bm_dates T))
    /\ (forall r, In r rows ->
          rr_strategy_cumulative_return r = rr_strategy_value r
          /\ (base_actual_date_of (bm_dates T) base_date_obj
              = Some (rr_dt r) -> rr_strategy_value r = 0)).
Proof.
  unfold calculate_strategy_portfolio_returns. fold (bm_dates T).
  destruct (base_actual_date_of (bm_dates T) base_date_obj) as [base|] eqn:B.
  2:{ exists []. split; [reflexivity|]. split; [now left|]. intros r []. }
  destruct (set_iter ord _) as [|x xs] eqn:N.
  { exists []. split; [reflexivity|]. split; [now left|]. intros r []. }
  destruct (base_actual_date_of_spec _ _ _ B) as [_ Hin].
  destruct (returns_loop_total T base
              (fst (query_prices T base (x :: xs))) (x :: xs) (bm_dates T)
              (sorted_unique_sorted _) None
              {| ret_prev_bm_weights := []; ret_strategy_weights := None |}
              (or_intror Hin)) as [results [E [M R]]].
  rewrite E.
  assert (Srt : sort_by return_row_leb results = results).
  { apply (sort_by_sorted rr_dt). rewrite M.
    apply StronglySorted_filter, sorted_unique_sorted. }
  rewrite Srt. exists results. split; [reflexivity|].
  split; [right; exists base; split; [reflexivity|exact M]|].
  intros r Hr. rewrite Forall_forall in R. destruct (R r Hr) as [C Z0].
  split; [exact C|]. intro K. apply Z0. congruence.
Qed.

Section SameButOverrideValues.
Variables T T' : Tables.
Hypothesis same_bm : bm_data T' = bm_data T.
Hypothesis same_price : stock_price T' = stock_price T.
Hypothesis same_local : local_price_col T' = local_price_col T.
Hypothesis same_names :
  map (fun r => snd (fst r)) (mp_weight_data T')
  = map (fun r => snd (fst r)) (mp_weight_data T).
Hypothesis no_nan : Forall (fun r => snd r <> None) (bm_data T).

Lemma build_bm_weights_same d start :
  build_bm_weights T' d start = build_bm_weights T d start.
Proof. unfold build_bm_weights. now rewrite same_bm. Qed.

Lemma query_prices_same d names :
  query_prices T' d names = query_prices T d names.
Proof. unfold query_prices. now rewrite same_price, same_local. Qed.

Lemma build_bm_weights_nonempty d :
  In d (map (fun r => fst (fst r)) (bm_data T)) ->
  dnonempty (build_bm_weights T d []) = true.
Proof.
  unfold build_bm_weights. intro Hin.
  assert (G : forall l (a : dict Qc),
             Forall (fun r : Z * string * option Qc => snd r <> None) l ->
             dnonempty a = true \/ In d (map (fun r => fst (fst r)) l) ->
             dnonempty
               (fold_left
                  (fun d0 row =>
                     let '(dt, stock_name, weight) := row in
                     if (dt =? d)%Z then
                       match weight with
                       | Some w => dset stock_name w d0
                       | None => d0
                       end
                     else d0) l a) = true).
  { induction l as [|[[dt n] w] l IH]; intros a Fl H.
    - destruct H as [H|[]]. exact H.
    - inversion Fl as [|? ? Hw Fl']; subst. cbn [fold_left].
      apply IH; [exact Fl'|].
      destruct H as [H|[H|H]].
      + left. destruct (dt =? d)%Z; [|exact H].
        destruct w; [apply dnonempty_dset|exact H].
      + left. cbn [fst snd] in H, Hw. subst dt. rewrite Z.eqb_refl.
        destruct w; [apply dnonempty_dset|congruence].
      + now right. }
  apply G; [exact no_nan|now right].
Qed.

Lemma returns_loop_same (base : Z) (base_prices : dict (option Qc))
    (names : list string) (dates : list Z) :
  (forall d, In d dates -> In d (map (fun r => fst (fst r)) (bm_data T))) ->
  forall prev st st',
  ret_prev_bm_weights st' = ret_prev_bm_weights st ->
  dnonempty (ret_prev_bm_weights st) = true
  \/ ret_strategy_weights st' = ret_strategy_weights st ->
  returns_loop ord T' base base_prices names prev dates st'
  = returns_loop ord T base base_prices names prev dates st.
Proof.
  induction dates as [|d dates IH]; intros Hd prev st st' Hb Hs;
    [reflexivity|].
  cbn [returns_loop]. unfold returns_step.
  rewrite build_bm_weights_same.
  destruct (d <? base)%Z.
  { apply IH; auto. intros x Hx. apply Hd. now right. }
  pose proof (build_bm_weights_nonempty d (Hd d (or_introl eq_refl))) as NE.
  set (bm := build_bm_weights T d []) in *.
  destruct (d =? base)%Z.
  - match goal with
    | |- context [returns_loop ord T' _ _ _ (Some d) dates ?s'] =>
        match goal with
        | |- context [returns_loop ord T _ _ _ (Some d) dates ?s] =>
            rewrite (IH (fun x Hx => Hd x (or_intror Hx)) (Some d) s s'
                       eq_refl (or_introl NE))
        end
    end.
    reflexivity.
  - assert (A : strategy_weights_after_base T' prev st' bm
                = strategy_weights_after_base T prev st bm).
    { unfold strategy_weights_after_base. rewrite Hb.
      destruct (dnonempty (ret_prev_bm_weights st)) eqn:P; [reflexivity|].
      destruct Hs as [Hs|Hs]; [discriminate|]. rewrite Hs.
      destruct prev; [|reflexivity].
      destruct (ret_strategy_weights st); [|reflexivity].
      now rewrite build_bm_weights_same. }
    rewrite A.
    destruct (strategy_weights_after_base T prev st bm) as [sw|];
      [|reflexivity].
    rewrite query_prices_same.
    rewrite (IH (fun x Hx => Hd x (or_intror Hx)) (Some d)
               {| ret_prev_bm_weights := bm; ret_strategy_weights := Some sw |}
               {| ret_prev_bm_weights := bm; ret_strategy_weights := Some sw |}
               eq_refl (or_introl NE)).
    reflexivity.
Qed.

(** The override values never reach the returned frame.  When no benchmark
    weight is missing, two inputs with the same benchmark and price tables
    whose override tables name the same instruments give the same result,
    whatever the dates and the [active_weight] numbers of the overrides
    are: after the base date the value is computed from the previous date's
    benchmark weights alone. *)
Theorem returns_ignore_override_values (base_date_obj : Z) :
  calculate_strategy_portfolio_returns ord T' base_date_obj
  = calculate_strategy_portfolio_returns ord T base_date_obj.
Proof.
  unfold calculate_strategy_portfolio_returns.
  rewrite same_bm.
  destruct (base_actual_date_of _ base_date_obj) as [base|]; [|reflexivity].
  rewrite build_bm_weights_same.
  rewrite same_names.
  destruct (set_iter ord _) as [|x xs]; [reflexivity|].
  rewrite query_prices_same.
  rewrite (returns_loop_same base _ (x :: xs) _
             (fun d Hd => proj1 (sorted_unique_In _ d) Hd) None
             {| ret_prev_bm_weights := []; ret_strategy_weights := None |}
             {| ret_prev_bm_weights := []; ret_strategy_weights := None |}
             eq_refl (or_intror eq_refl)).
  reflexivity.
Qed.

End SameButOverrideValues.

End ReturnsFacts.

Lemma returns_ignore_override_values_witness :
  Returns.calculate_strategy_portfolio_returns ascending_order
    {| bm_data := bm_data T_accepted;
       mp_weight_data := [(1%Z, "X", Some (q 1 4))];
       stock_price := stock_price T_accepted;
       local_price_col := local_price_col T_accepted |} 1%Z
  = Returns.calculate_strategy_portfolio_returns ascending_order T_accepted 1%Z.
Proof.
  apply returns_ignore_override_values; try reflexivity.
  repeat constructor; discriminate.
Defined.

(* ================================================================== *)
(** * Properties of get_business_day and get_business_day_by_country *)

Section BusinessDays.
Import Utils.
Local Open Scope Z_scope.

Lemma weekdays_from_snoc (date : Z) (n : nat) :
  weekdays_from date (S n)
  = weekdays_from date n
    + (if weekday (date + Z.of_nat n) <? 5 then 1 else 0).
Proof.
  revert date. induction n as [|n IH]; intro date.
  - cbn [weekdays_from]. change (Z.of_nat 0) with 0. rewrite !Z.add_0_r.
    reflexivity.
  - change (weekdays_from date (S (S n)))
      with ((if weekday date <? 5 then 1 else 0)
            + weekdays_from (date + 1) (S n)).
    rewrite IH. cbn [weekdays_from].
    replace (date + 1 + Z.of_nat n) with (date + Z.of_nat (S n)) by lia.
    lia.
Qed.

Lemma business_day_loop_fuel (f1 f2 : nat) (current_date count days_back : Z) :
  (Z.to_nat current_date <= f1)%nat -> (Z.to_nat current_date <= f2)%nat ->
  business_day_loop f1 current_date count days_back
  = business_day_loop f2 current_date count days_back.
Proof.
  revert f2 current_date count.
  induction f1 as [|f1 IH]; intros f2 cur count H1 H2.
  - destruct f2 as [|f2]; [reflexivity|].
    cbn [business_day_loop]. destruct (count <? days_back); [|reflexivity].
    unfold minus_days. destruct (cur - 1 <? 1) eqn:E; [reflexivity|].
    apply Z.ltb_ge in E. lia.
  - destruct f2 as [|f2].
    + cbn [business_day_loop]. destruct (count <? days_back); [|reflexivity].
      unfold minus_days. destruct (cur - 1 <? 1) eqn:E; [reflexivity|].
      apply Z.ltb_ge in E. lia.
    + cbn [business_day_loop]. destruct (count <? days_back); [|reflexivity].
      unfold minus_days. destruct (cur - 1 <? 1) eqn:E; [reflexivity|].
      apply Z.ltb_ge in E. apply IH; lia.
Qed.

Lemma business_day_loop_shift (s : Z) (fuel : nat)
    (current_date count days_back : Z) :
  business_day_loop fuel current_date (count + s) (days_back + s)
  = business_day_loop fuel current_date count days_back.
Proof.
  revert current_date count.
  induction fuel as [|fuel IH]; intros cur count; cbn [business_day_loop].
  - replace (count + s <? days_back + s) with (count <? days_back);
      [reflexivity|].
    destruct (count <? days_back) eqn:E; symmetry.
    + apply Z.ltb_lt in E. apply Z.ltb_lt. lia.
    + apply Z.ltb_ge in E. apply Z.ltb_ge. lia.
  - replace (count + s <? days_back + s) with (count <? days_back).
    2:{ destruct (count <? days_back) eqn:E; symmetry.
        + apply Z.ltb_lt in E. apply Z.ltb_lt. lia.
        + apply Z.ltb_ge in E. apply Z.ltb_ge. lia. }
    destruct (count <? days_back); [|reflexivity].
    destruct (minus_days cur 1) as [c|]; [|reflexivity].
    destruct (weekday c <? 5).
    + replace (count + s + 1) with (count + 1 + s) by lia. apply IH.
    + apply IH.
Qed.

Lemma business_day_loop_spec (fuel : nat) :
  forall current_date count days_back,
  count < days_back ->
  1 <= current_date - 3 * (days_back - count) + weekend_slack current_date ->
  (Z.to_nat current_date <= fuel)%nat ->
  exists d,
    business_day_loop fuel current_date count days_back = Some d
    /\ weekday d < 5
    /\ d < current_date
    /\ current_date - 3 * (days_back - count) + weekend_slack current_date <= d
    /\ weekdays_from d (Z.to_nat (current_date - d)) = days_back - count.
Proof.
  induction fuel as [|fuel IH]; intros cur count k Hc Hb Hf.
  - exfalso. unfold weekend_slack in Hb.
    destruct (weekday cur =? 0); [lia|]. destruct (weekday cur =? 6); lia.
  - cbn [business_day_loop].
    destruct (count <? k) eqn:E; [|apply Z.ltb_ge in E; lia].
    assert (Hs : weekend_slack cur <= 2).
    { unfold weekend_slack. destruct (weekday cur =? 0); [lia|].
      destruct (weekday cur =? 6); lia. }
    unfold minus_days.
    destruct (cur - 1 <? 1) eqn:E1; [apply Z.ltb_lt in E1; lia|].
    apply Z.ltb_ge in E1.
    destruct (weekday (cur - 1) <? 5) eqn:W.
    + apply Z.ltb_lt in W.
      destruct (Z.eq_dec (count + 1) k) as [Hk|Hk].
      * exists (cur - 1).
        assert (L : business_day_loop fuel (cur - 1) (count + 1) k
                    = Some (cur - 1)).
        { destruct fuel; cbn [business_day_loop];
            (destruct (count + 1 <? k) eqn:E2;
             [apply Z.ltb_lt in E2; lia|reflexivity]). }
        rewrite L. repeat split; try lia.
        replace (cur - (cur - 1)) with 1 by lia.
        change (Z.to_nat 1) with 1%nat. cbn [weekdays_from].
        destruct (weekday (cur - 1) <? 5) eqn:W'; [lia|].
        apply Z.ltb_ge in W'. lia.
      * assert (S0 : 0 <= weekend_slack (cur - 1)).
        { unfold weekend_slack. destruct (weekday (cur - 1) =? 0); [lia|].
          destruct (weekday (cur - 1) =? 6); lia. }
        destruct (IH (cur - 1) (count + 1) k) as [d [L [Wd [Lt [Bd Cn]]]]];
          try lia.
        exists d. rewrite L. repeat split; try lia.
        replace (Z.to_nat (cur - d)) with (S (Z.to_nat (cur - 1 - d))) by lia.
        rewrite weekdays_from_snoc, Cn.
        replace (d + Z.of_nat (Z.to_nat (cur - 1 - d))) with (cur - 1) by lia.
        destruct (weekday (cur - 1) <? 5) eqn:W'; [lia|].
        apply Z.ltb_ge in W'. lia.
    + apply Z.ltb_ge in W.
      assert (S1 : weekend_slack (cur - 1) = weekend_slack cur + 1).
      { unfold weekend_slack, weekday in *.
        destruct ((cur + 6) mod 7 =? 0) eqn:A;
          destruct ((cur + 6) mod 7 =? 6) eqn:B;
          destruct ((cur - 1 + 6) mod 7 =? 0) eqn:C;
          destruct ((cur - 1 + 6) mod 7 =? 6) eqn:D;
          rewrite ?Z.eqb_eq, ?Z.eqb_neq in *;
          Z.div_mod_to_equations; lia. }
      destruct (IH (cur - 1) count k) as [d [L [Wd [Lt [Bd Cn]]]]]; try lia.
      exists d. rewrite L. repeat split; try lia.
      replace (Z.to_nat (cur - d)) with (S (Z.to_nat (cur - 1 - d))) by lia.
      rewrite weekdays_from_snoc, Cn.
      replace (d + Z.of_nat (Z.to_nat (cur - 1 - d))) with (cur - 1) by lia.
      destruct (weekday (cur - 1) <? 5) eqn:W'; [|lia].
      apply Z.ltb_lt in W'. lia.
Qed.

(** get_business_day (utils.py 106-127).  For [days_back >= 1] and a date far
    enough from the smallest date, the loop ends without an error on a
    weekday [d] before [date] such that exactly [days_back] weekdays lie
    in [d .. date - 1]; [d] is never more than [3 * days_back] days back,
    the window [get_business_day_by_country] queries. *)
Theorem get_business_day_is_kth_weekday_before (date days_back : Z) :
  1 <= days_back -> 3 * days_back < date ->
  exists d,
    get_business_day date days_back = Some d
    /\ weekday d < 5
    /\ date - 3 * days_back <= d < date
    /\ weekdays_from d (Z.to_nat (date - d)) = days_back.
Proof.
  intros Hk Hd. unfold get_business_day.
  assert (S0 : 0 <= weekend_slack date).
  { unfold weekend_slack. destruct (weekday date =? 0); [lia|].
    destruct (weekday date =? 6); lia. }
  destruct (business_day_loop_spec (Z.to_nat date) date 0 days_back)
    as [d [L [Wd [Lt [Bd Cn]]]]]; try lia.
  rewrite Z.sub_0_r in Cn. exists d. repeat split; try assumption; lia.
Qed.

Lemma get_business_day_is_kth_weekday_before_witness :
  exists d,
    get_business_day 20 2 = Some d
    /\ weekday d < 5
    /\ 20 - 3 * 2 <= d < 20
    /\ weekdays_from d (Z.to_nat (20 - d)) = 2.
Proof. apply get_business_day_is_kth_weekday_before; lia. Defined.

Lemma business_day_loop_split (j k : Z) (fuel : nat) :
  forall current_date count,
  0 <= k -> count <= j -> (Z.to_nat current_date <= fuel)%nat ->
  business_day_loop fuel current_date count (j + k)
  = match business_day_loop fuel current_date count j with
    | Some d => business_day_loop (Z.to_nat d) d j (j + k)
    | None => None
    end.
Proof.
  induction fuel as [|fuel IH]; intros cur count Hk Hc Hf.
  - cbn [business_day_loop].
    destruct (count <? j) eqn:E.
    + apply Z.ltb_lt in E.
      destruct (count <? j + k) eqn:E2; [reflexivity|].
      apply Z.ltb_ge in E2. lia.
    + apply Z.ltb_ge in E. assert (count = j) by lia. subst count.
      replace (Z.to_nat cur) with 0%nat by lia. reflexivity.
  - cbn [business_day_loop].
    destruct (count <? j) eqn:E.
    + apply Z.ltb_lt in E.
      destruct (count <? j + k) eqn:E2; [|apply Z.ltb_ge in E2; lia].
      unfold minus_days. destruct (cur - 1 <? 1) eqn:E1; [reflexivity|].
      apply Z.ltb_ge in E1.
      destruct (weekday (cur - 1) <? 5); apply IH; lia.
    + apply Z.ltb_ge in E. assert (count = j) by lia. subst count.
      change (business_day_loop (S fuel) cur j (j + k)
              = business_day_loop (Z.to_nat cur) cur j (j + k)).
      apply business_day_loop_fuel; lia.
Qed.

(** Going back [j + k] business days is going back [j] and then [k] from
    there, errors included: [get_period_dates] takes its 1D window from
    [get_business_day(today, 2)] and [get_business_day(today, 1)], and the
    first is one business day before the second. *)
Theorem get_business_day_composes (date j k : Z) :
  0 <= j -> 0 <= k ->
  get_business_day date (j + k)
  = match get_business_day date j with
    | Some d => get_business_day d k
    | None => None
    end.
Proof.
  intros Hj Hk. unfold get_business_day.
  rewrite business_day_loop_split by lia.
  destruct (business_day_loop (Z.to_nat date) date 0 j) as [d|]; [|reflexivity].
  rewrite <- (business_day_loop_shift j (Z.to_nat d) d 0 k).
  rewrite Z.add_0_l, (Z.add_comm k j). reflexivity.
Qed.

Lemma get_business_day_composes_witness :
  get_business_day 20 (1 + 1)
  = match get_business_day 20 1 with
    | Some d => get_business_day d 1
    | None => None
    end.
Proof. apply get_business_day_composes; lia. Defined.

Lemma getitem_int_query_row (i : Z) (columns : list (string * Z)) :
  getitem (KInt i) (query_row columns) = None.
Proof.
  induction columns as [|[c v] columns IH]; [reflexivity|].
  simpl. exact IH.
Qed.

(** get_business_day_by_country (utils.py 54-103) never uses the calendar.
    With a connection, passed by the caller or opened by the decorator, the
    rows of the query are dicts keyed by column name, so [row[0]] raises on
    the first row and the handler falls back: whatever the calendar table
    holds, and also when the query raises, the result is that of
    [get_business_day].  Without one, when no connection is passed and none
    can be opened, the call raises before the function is entered. *)
Theorem get_business_day_by_country_ignores_calendar
    (connect connection : option Connection) (date days_back : Z) :
  0 < days_back -> 3 * days_back < date ->
  get_business_day_by_country connect date days_back connection
  = match connection, connect with
    | None, None => None
    | _, _ => get_business_day date days_back
    end.
Proof.
  intros Hk Hd.
  assert (G : forall conn : Connection,
             get_business_day_by_country_undecorated date days_back conn
             = get_business_day date days_back).
  { intro conn. unfold get_business_day_by_country_undecorated.
    destruct (days_back <=? 0) eqn:E; [apply Z.leb_le in E; lia|].
    unfold minus_days.
    destruct (date - days_back * 3 <? 1) eqn:E1; [apply Z.ltb_lt in E1; lia|].
    destruct (conn _ _) as [[|row rows]|]; try reflexivity.
    cbn [map business_dates_of]. now rewrite getitem_int_query_row. }
  unfold get_business_day_by_country, with_connection.
  destruct connection as [conn|]; [apply G|].
  destruct connect as [conn|]; [apply G|reflexivity].
Qed.

Lemma get_business_day_by_country_ignores_calendar_witness :
  get_business_day_by_country
    (Some (fun _ _ => Some [[("dt"%string, 18)]; [("dt"%string, 15)]]))
    20 2 None
  = get_business_day 20 2
  /\ get_business_day_by_country None 20 2 None = None.
Proof.
  split.
  - apply (get_business_day_by_country_ignores_calendar
             (Some (fun _ _ => Some [[("dt"%string, 18)];
                                     [("dt"%string, 15)]])) None); lia.
  - apply (get_business_day_by_country_ignores_calendar None None 20 2); lia.
Defined.

End BusinessDays.

(* ================================================================== *)
(** * Properties of _rsi_from_prices *)

Section RsiFacts.
Import Rsi.

Lemma q_of_nat_ge_1 (n : nat) : (1 <= n)%nat -> 1 <= q (Z.of_nat n) 1.
Proof.
  intro H. unfold Qcle, q. cbn [this Q2Qc]. rewrite !Qred_correct.
  unfold Qle. cbn [Qnum Qden]. lia.
Qed.

Lemma Qc_0_le_100 : 0 <= q 100 1.
Proof. intro H. discriminate H. Qed.

Lemma rsi_value_range (avg_gain avg_loss : Qc) :
  0 <= avg_gain -> 0 <= avg_loss ->
  exists v, rsi_value avg_gain avg_loss = Some v /\ 0 <= v /\ v <= q 100 1.
Proof.
  intros Hg Hl. unfold rsi_value.
  destruct (Qceqb avg_loss 0) eqn:E.
  - exists (q 100 1). repeat split.
    + exact Qc_0_le_100.
    + apply Qcle_refl.
  - apply Qceqb_neq in E.
    assert (Lp : 0 < avg_loss) by now apply Qc_pos_of_nonneg_neq.
    assert (Hx : 0 <= avg_gain / avg_loss) by now apply Qc_div_nonneg.
    set (x := avg_gain / avg_loss) in *.
    assert (Ht : 0 < 1 + x) by (apply Qc_add_pos_nonneg; [reflexivity|exact Hx]).
    assert (Nt : 1 + x <> 0).
    { intro K. rewrite K in Ht. exact (Qclt_not_eq _ _ Ht eq_refl). }
    destruct (Qceqb (1 + x) 0) eqn:E2; [apply Qceqb_eq in E2; contradiction|].
    eexists. split; [reflexivity|]. split.
    + replace (q 100 1 - q 100 1 / (1 + x)) with (q 100 1 * x / (1 + x))
        by (field; exact Nt).
      apply Qc_div_nonneg; [|exact Ht].
      apply Qc_mul_nonneg; [exact Qc_0_le_100|exact Hx].
    + apply Qcle_minus_iff.
      replace (q 100 1 + - (q 100 1 - q 100 1 / (1 + x)))
        with (q 100 1 / (1 + x)) by (field; exact Nt).
      apply Qc_div_nonneg; [exact Qc_0_le_100|exact Ht].
Qed.

Lemma average_step_nonneg (p avg x : Qc) :
  1 <= p -> 0 <= avg -> 0 <= x -> 0 <= (avg * (p - 1) + x) / p.
Proof.
  intros Hp Ha Hx. apply Qc_div_nonneg.
  - apply Qc_add_nonneg; [|exact Hx]. apply Qc_mul_nonneg; [exact Ha|].
    exact (proj1 (Qcle_minus_iff 1 p) Hp).
  - apply Qclt_le_trans with 1; [reflexivity|exact Hp].
Qed.

Lemma rsi_loop_range (p : Qc) (moves : list (Qc * Qc)) :
  1 <= p -> Forall (fun m => 0 <= fst m /\ 0 <= snd m) moves ->
  forall avg_gain avg_loss, 0 <= avg_gain -> 0 <= avg_loss ->
  exists vs,
    rsi_loop p avg_gain avg_loss moves = Some (map Some vs)
    /\ List.length vs = List.length moves
    /\ Forall (fun v => 0 <= v /\ v <= q 100 1) vs.
Proof.
  intros Hp F. induction F as [|[u d] moves [Hu Hd] F IH]; intros g l Hg Hl.
  - exists []. repeat split. constructor.
  - cbn [rsi_loop]. cbn [fst snd] in Hu, Hd.
    pose proof (average_step_nonneg p g u Hp Hg Hu) as G.
    pose proof (average_step_nonneg p l d Hp Hl Hd) as L.
    destruct (rsi_value_range _ _ G L) as [v [Ev Rv]].
    destruct (IH _ _ G L) as [vs [Evs [Len Rs]]].
    exists (v :: vs). rewrite Ev, Evs. repeat split.
    + cbn [List.length]. now rewrite Len.
    + now constructor.
Qed.

Lemma forward_fill_length (last : option Qc) (closes : list (option Qc)) :
  List.length (forward_fill last closes) = List.length closes.
Proof.
  revert last. induction closes as [|v closes IH]; intro last; simpl;
    [reflexivity|]. now rewrite IH.
Qed.

Lemma forward_fill_idempotent (last : option Qc) (closes : list (option Qc)) :
  forward_fill last (forward_fill last closes) = forward_fill last closes.
Proof.
  revert last. induction closes as [|v closes IH]; intro last;
    [reflexivity|].
  cbn [forward_fill]. destruct v as [x|].
  - now rewrite IH.
  - destruct last as [y|]; now rewrite IH.
Qed.

Lemma forward_fill_from_value (a : Qc) (closes : list (option Qc)) :
  existsb is_None (forward_fill (Some a) closes) = false.
Proof.
  revert a. induction closes as [|v closes IH]; intro a; [reflexivity|].
  cbn [forward_fill]. destruct v as [x|]; cbn [existsb is_None]; apply IH.
Qed.

Lemma forward_fill_present (last : option Qc) (prices : list Qc) :
  forward_fill last (map Some prices) = map Some prices.
Proof.
  revert last. induction prices as [|x prices IH]; intro last;
    [reflexivity|].
  cbn [map forward_fill]. now rewrite IH.
Qed.

Lemma price_changes_of_length (vals : list Qc) :
  List.length (price_changes_of vals) = (List.length vals - 1)%nat.
Proof.
  induction vals as [|a [|b rest] IH]; try reflexivity.
  change (price_changes_of (a :: b :: rest))
    with ((b - a) :: price_changes_of (b :: rest)).
  cbn [List.length] in *. rewrite IH. lia.
Qed.

Lemma up_of_nonneg (c : Qc) : 0 <= up_of c.
Proof.
  unfold up_of. destruct (Qcltb 0 c) eqn:E.
  - apply Qcltb_lt in E. now apply Qclt_le_weak.
  - apply Qcle_refl.
Qed.

Lemma down_of_nonneg (c : Qc) : 0 <= down_of c.
Proof.
  unfold down_of, Qcabs. destruct (Qcltb c 0) eqn:E.
  - apply Qcltb_lt in E. apply Qclt_le_weak.
    apply Qclt_minus_iff in E. now replace (0 + - c) with (- c) in E by ring.
  - apply Qcle_refl.
Qed.

Lemma moves_nonneg (changes : list Qc) (k : nat) :
  Forall (fun m => 0 <= fst m /\ 0 <= snd m)
    (skipn k (combine (map up_of changes) (map down_of changes))).
Proof.
  apply Forall_forall. intros [u d] Hin.
  apply skipn_In in Hin.
  pose proof (in_combine_l _ _ _ _ Hin) as Hu.
  apply in_combine_r in Hin.
  apply in_map_iff in Hu. destruct Hu as [c [<- _]].
  apply in_map_iff in Hin. destruct Hin as [c' [<- _]].
  split; [apply up_of_nonneg|apply down_of_nonneg].
Qed.

Lemma moves_length (changes : list Qc) (k : nat) :
  List.length (skipn k (combine (map up_of changes) (map down_of changes)))
  = (List.length changes - k)%nat.
Proof.
  rewrite length_skipn, length_combine, !length_map. lia.
Qed.

Lemma initial_average_nonneg (p : Qc) (l : list Qc) (k : nat) :
  1 <= p -> Forall (Qcle 0) l -> 0 <= sum (firstn k l) / p.
Proof.
  intros Hp F. apply Qc_div_nonneg.
  - apply sum_nonneg. apply Forall_forall. intros x Hx.
    rewrite Forall_forall in F. apply F. eapply firstn_In; eauto.
  - apply Qclt_le_trans with 1; [reflexivity|exact Hp].
Qed.

(** _rsi_from_prices (rsi.py 5-28) gives no index at all, without an
    error, when the series has at most [period] entries or starts with a
    missing close. *)
Theorem rsi_all_none_when_short_or_unstarted
    (closes : list (option Qc)) (period : nat) :
  (List.length closes <= period)%nat \/ hd_error closes = Some None ->
  _rsi_from_prices closes period
  = Some (repeat None (List.length closes)).
Proof.
  intros H. unfold _rsi_from_prices.
  destruct (List.length closes <? period + 1)%nat eqn:E; [reflexivity|].
  apply Nat.ltb_ge in E. destruct H as [H|H]; [lia|].
  destruct closes as [|[c|] rest]; try discriminate H. reflexivity.
Qed.

Lemma rsi_all_none_when_short_or_unstarted_witness :
  _rsi_from_prices [None; Some (q 10 1); Some (q 11 1); Some (q 12 1)] 2
  = Some (repeat None 4).
Proof.
  apply (rsi_all_none_when_short_or_unstarted
           [None; Some (q 10 1); Some (q 11 1); Some (q 12 1)] 2).
  right. reflexivity.
Defined.

(** For a period of at least 1, a series longer than the period that starts
    with a close gives, without an error, [period] empty entries followed by
    one index per remaining day, each between 0 and 100. *)
Theorem rsi_values_in_range (c0 : Qc) (rest : list (option Qc))
    (period : nat) :
  (1 <= period)%nat -> (period <= List.length rest)%nat ->
  exists vs,
    _rsi_from_prices (Some c0 :: rest) period
    = Some (repeat None period ++ map Some vs)
    /\ List.length vs = (List.length rest + 1 - period)%nat
    /\ Forall (fun v => 0 <= v /\ v <= q 100 1) vs.
Proof.
  intros Hp Hn. unfold _rsi_from_prices.
  destruct (List.length (Some c0 :: rest) <? period + 1)%nat eqn:E.
  { apply Nat.ltb_lt in E. cbn [List.length] in E. lia. }
  cbn [forward_fill existsb is_None]. rewrite forward_fill_from_value.
  cbn [orb].
  destruct period as [|k]; [lia|].
  set (changes := price_changes_of _).
  set (p := q (Z.of_nat (S k)) 1).
  assert (P1 : 1 <= p) by (apply q_of_nat_ge_1; lia).
  assert (Fu : Forall (Qcle 0) (map up_of changes)).
  { apply Forall_forall. intros x Hx. apply in_map_iff in Hx.
    destruct Hx as [c [<- _]]. apply up_of_nonneg. }
  assert (Fd : Forall (Qcle 0) (map down_of changes)).
  { apply Forall_forall. intros x Hx. apply in_map_iff in Hx.
    destruct Hx as [c [<- _]]. apply down_of_nonneg. }
  destruct (rsi_loop_range p _ P1 (moves_nonneg changes k) _ _
              (initial_average_nonneg p _ (S k) P1 Fu)
              (initial_average_nonneg p _ (S k) P1 Fd))
    as [vs [Evs [Len Rs]]].
  exists vs. rewrite Evs. repeat split; [|exact Rs].
  rewrite Len, moves_length. unfold changes.
  rewrite price_changes_of_length. cbn [map List.length].
  rewrite length_map, forward_fill_length. lia.
Qed.

Lemma rsi_values_in_range_witness :
  exists vs,
    _rsi_from_prices
      (Some (q 10 1) :: [Some (q 12 1); None; Some (q 11 1)]) 2
    = Some (repeat None 2 ++ map Some vs)
    /\ List.length vs = (3 + 1 - 2)%nat
    /\ Forall (fun v => 0 <= v /\ v <= q 100 1) vs.
Proof.
  apply (rsi_values_in_range (q 10 1) [Some (q 12 1); None; Some (q 11 1)] 2);
    cbn [List.length]; lia.
Defined.

(** A missing close counts exactly as a repetition of the close before it:
    filling the series forward beforehand changes nothing, whatever the
    period. *)
Theorem rsi_unchanged_by_forward_fill (closes : list (option Qc))
    (period : nat) :
  _rsi_from_prices (forward_fill None closes) period
  = _rsi_from_prices closes period.
Proof.
  unfold _rsi_from_prices.
  now rewrite forward_fill_length, forward_fill_idempotent.
Qed.

Lemma existsb_is_None_present (prices : list Qc) :
  existsb is_None (map Some prices) = false.
Proof. induction prices as [|x prices IH]; [reflexivity|exact IH]. Qed.

Lemma map_the_present (prices : list Qc) : map the (map Some prices) = prices.
Proof.
  induction prices as [|x prices IH]; [reflexivity|].
  cbn [map the]. now rewrite IH.
Qed.

Lemma price_changes_rising (prices : list Qc) :
  Sorted Qcle prices -> Forall (Qcle 0) (price_changes_of prices).
Proof.
  induction 1 as [|a rest S IH H]; [constructor|].
  destruct rest as [|b rest]; [constructor|].
  change (price_changes_of (a :: b :: rest))
    with ((b - a) :: price_changes_of (b :: rest)).
  constructor; [|exact IH].
  inversion H as [|? ? Hab]; subst.
  exact (proj1 (Qcle_minus_iff a b) Hab).
Qed.

Lemma price_changes_falling (prices : list Qc) :
  Sorted (fun a b => b < a) prices ->
  Forall (fun c => c < 0) (price_changes_of prices).
Proof.
  induction 1 as [|a rest S IH H]; [constructor|].
  destruct rest as [|b rest]; [constructor|].
  change (price_changes_of (a :: b :: rest))
    with ((b - a) :: price_changes_of (b :: rest)).
  constructor; [|exact IH].
  inversion H as [|? ? Hab]; subst.
  apply Qclt_minus_iff. replace (0 + - (b - a)) with (a + - b) by ring.
  exact (proj1 (Qclt_minus_iff b a) Hab).
Qed.

Lemma rsi_loop_no_loss (p : Qc) (moves : list (Qc * Qc)) :
  Forall (fun m => snd m = 0) moves ->
  forall avg_gain,
  rsi_loop p avg_gain 0 moves
  = Some (repeat (Some (q 100 1)) (List.length moves)).
Proof.
  induction 1 as [|[u d] moves Hd F IH]; intro g; [reflexivity|].
  cbn [rsi_loop]. cbn [snd] in Hd. subst d.
  replace ((0 * (p - 1) + 0) / p) with 0 by (unfold Qcdiv; ring).
  unfold rsi_value. change (Qceqb 0 0) with true. cbv iota.
  now rewrite IH.
Qed.

Lemma rsi_value_no_gain (avg_loss : Qc) :
  0 < avg_loss -> rsi_value 0 avg_loss = Some 0.
Proof.
  intro H. unfold rsi_value.
  assert (N : avg_loss <> 0).
  { intro K. rewrite K in H. exact (Qclt_not_eq _ _ H eq_refl). }
  apply Qceqb_neq in N. rewrite N.
  replace (1 + 0 / avg_loss) with 1 by (unfold Qcdiv; ring).
  change (Qceqb 1 0) with false. cbv iota.
  f_equal; apply Qc_is_canon; reflexivity.
Qed.

Lemma rsi_loop_no_gain (p : Qc) (moves : list (Qc * Qc)) :
  1 <= p -> Forall (fun m => fst m = 0 /\ 0 < snd m) moves ->
  forall avg_loss, 0 <= avg_loss ->
  rsi_loop p 0 avg_loss moves = Some (repeat (Some 0) (List.length moves)).
Proof.
  intros Hp F. induction F as [|[u d] moves [Hu Hd] F IH]; intros l Hl;
    [reflexivity|].
  cbn [rsi_loop]. cbn [fst snd] in Hu, Hd. subst u.
  replace ((0 * (p - 1) + 0) / p) with 0 by (unfold Qcdiv; ring).
  assert (P0 : 0 < p) by (apply Qclt_le_trans with 1; [reflexivity|exact Hp]).
  assert (L : 0 < (l * (p - 1) + d) / p).
  { unfold Qcdiv. apply Qc_mul_pos; [|now apply Qc_inv_pos].
    rewrite Qcplus_comm. apply Qc_add_pos_nonneg; [exact Hd|].
    apply Qc_mul_nonneg; [exact Hl|].
    exact (proj1 (Qcle_minus_iff 1 p) Hp). }
  rewrite (rsi_value_no_gain _ L).
  rewrite (IH _ (Qclt_le_weak _ _ L)). reflexivity.
Qed.

(** A series without missing closes that never falls (a flat one included)
    has index 100 on every day after the first [period] days. *)
Theorem rsi_is_100_when_prices_never_fall (prices : list Qc) (period : nat) :
  (1 <= period)%nat -> (period < List.length prices)%nat ->
  Sorted Qcle prices ->
  _rsi_from_prices (map Some prices) period
  = Some (repeat None period
          ++ repeat (Some (q 100 1)) (List.length prices - period)).
Proof.
  intros Hp Hn Hs. unfold _rsi_from_prices.
  rewrite length_map.
  destruct (List.length prices <? period + 1)%nat eqn:E;
    [apply Nat.ltb_lt in E; lia|].
  rewrite forward_fill_present, existsb_is_None_present, map_the_present.
  destruct period as [|k]; [lia|].
  pose proof (price_changes_rising prices Hs) as R.
  pose proof (price_changes_of_length prices) as Len.
  set (changes := price_changes_of prices) in *.
  assert (Z0 : Forall (fun x => x = 0) (map down_of changes)).
  { apply Forall_forall. intros x Hx. apply in_map_iff in Hx.
    destruct Hx as [c [<- Hc]]. rewrite Forall_forall in R.
    unfold down_of. now rewrite (proj2 (Qcltb_ge c 0) (R c Hc)). }
  assert (A0 : sum (firstn (S k) (map down_of changes))
               / q (Z.of_nat (S k)) 1 = 0).
  { rewrite sum_zero; [unfold Qcdiv; ring|].
    apply Forall_forall. intros x Hx. rewrite Forall_forall in Z0.
    apply Z0. eapply firstn_In; eauto. }
  rewrite A0, rsi_loop_no_loss.
  - rewrite moves_length, Len. do 3 f_equal. lia.
  - apply Forall_forall. intros [u d] Hin. apply skipn_In in Hin.
    apply in_combine_r in Hin. rewrite Forall_forall in Z0.
    exact (Z0 d Hin).
Qed.

Lemma rsi_is_100_when_prices_never_fall_witness :
  _rsi_from_prices (map Some [q 5 1; q 5 1; q 7 1; q 8 1]) 2
  = Some (repeat None 2 ++ repeat (Some (q 100 1)) (4 - 2)).
Proof.
  apply (rsi_is_100_when_prices_never_fall [q 5 1; q 5 1; q 7 1; q 8 1] 2).
  - lia.
  - cbn [List.length]. lia.
  - repeat constructor; intro H; discriminate H.
Defined.

(** A series without missing closes that falls every day has index 0 on
    every day after the first [period] days. *)
Theorem rsi_is_0_when_prices_always_fall (prices : list Qc) (period : nat) :
  (1 <= period)%nat -> (period < List.length prices)%nat ->
  Sorted (fun a b => b < a) prices ->
  _rsi_from_prices (map Some prices) period
  = Some (repeat None period ++ repeat (Some 0) (List.length prices - period)).
Proof.
  intros Hp Hn Hs. unfold _rsi_from_prices.
  rewrite length_map.
  destruct (List.length prices <? period + 1)%nat eqn:E;
    [apply Nat.ltb_lt in E; lia|].
  rewrite forward_fill_present, existsb_is_None_present, map_the_present.
  destruct period as [|k]; [lia|].
  pose proof (price_changes_falling prices Hs) as R.
  pose proof (price_changes_of_length prices) as Len.
  set (changes := price_changes_of prices) in *.
  set (p := q (Z.of_nat (S k)) 1).
  assert (P1 : 1 <= p) by (apply q_of_nat_ge_1; lia).
  rewrite Forall_forall in R.
  assert (U0 : Forall (fun x => x = 0) (map up_of changes)).
  { apply Forall_forall. intros x Hx. apply in_map_iff in Hx.
    destruct Hx as [c [<- Hc]]. unfold up_of.
    now rewrite (proj2 (Qcltb_ge 0 c) (Qclt_le_weak _ _ (R c Hc))). }
  assert (Dp : forall d, In d (map down_of changes) -> 0 < d).
  { intros d Hd. apply in_map_iff in Hd. destruct Hd as [c [<- Hc]].
    unfold down_of, Qcabs. rewrite (proj2 (Qcltb_lt c 0) (R c Hc)).
    pose proof (proj1 (Qclt_minus_iff c 0) (R c Hc)) as K.
    now replace (0 + - c) with (- c) in K by ring. }
  assert (A0 : sum (firstn (S k) (map up_of changes)) / p = 0).
  { rewrite sum_zero; [unfold Qcdiv; ring|].
    apply Forall_forall. intros x Hx. rewrite Forall_forall in U0.
    apply U0. eapply firstn_In; eauto. }
  rewrite A0, rsi_loop_no_gain.
  - rewrite moves_length, Len. do 3 f_equal. lia.
  - exact P1.
  - apply Forall_forall. intros [u d] Hin. apply skipn_In in Hin.
    pose proof (in_combine_l _ _ _ _ Hin) as Hu.
    apply in_combine_r in Hin. rewrite Forall_forall in U0.
    split; [exact (U0 u Hu)|exact (Dp d Hin)].
  - apply initial_average_nonneg; [exact P1|].
    apply Forall_forall. intros x Hx. apply Qclt_le_weak. now apply Dp.
Qed.

Lemma rsi_is_0_when_prices_always_fall_witness :
  _rsi_from_prices (map Some [q 9 1; q 7 1; q 6 1; q 2 1]) 2
  = Some (repeat None 2 ++ repeat (Some 0) (4 - 2)).
Proof.
  apply (rsi_is_0_when_prices_always_fall [q 9 1; q 7 1; q 6 1; q 2 1] 2).
  - lia.
  - cbn [List.length]. lia.
  - repeat constructor.
Defined.

End RsiFacts.
